(** * resource-library: query state, request derivation and history sync

    A shallow embedding of [src/resource-library.js] (a Vue component for
    WordPress REST listings) and the properties of its specification.

    Conventions of the embedding.
    - A JavaScript value is a [value]: the JSON-representable values with
      integer numbers.  [undefined] is the [None] of an [option value].
    - A JavaScript string is a [string] holding the UTF-8 bytes of the text.
    - A plain object is an association list in property order ([object]);
      a well-formed object has no duplicate keys.
    - A function that can throw returns a [result].
    - The component instance ([this]) is the record [state]; every method is
      a function on it.  Vue's change detection is not modelled: a run is a
      list of [event]s in which the reactions of the [params] watcher
      appear explicitly, so every interleaving of calls and reactions is
      covered. *)

From Stdlib Require Import List String Ascii ZArith NArith Lia Bool Arith.
From Stdlib Require Import DecimalString DecimalZ DecimalFacts.
Import ListNotations.

#[local] Set Warnings "-register-all".
#[local] Open Scope string_scope.
#[local] Open Scope Z_scope.

(* ================================================================== *)
(** * Part I: definitions *)
(* ================================================================== *)

(** ** JavaScript values and plain objects *)

Inductive value : Type :=
| VNull
| VBool (b : bool)
| VNum (n : Z)
| VStr (s : string)
| VArr (items : list value)
| VObj (props : list (string * value)).

Definition object := list (string * value).

Inductive js_error : Type :=
| TypeError
| ReferenceError
| SyntaxError
| URIError
| Thrown (msg : string)          (* [throw 'some string'] *)
| ErrorOf (cause : js_error)     (* [new Error(cause)] *)
| Rejected (reason : string).    (* a rejected promise of the platform *)

Inductive result (A : Type) : Type :=
| Ok (a : A)
| Throw (e : js_error).

Arguments Ok {A} a.
Arguments Throw {A} e.

Definition bind {A B} (r : result A) (k : A -> result B) : result B :=
  match r with
  | Ok a => k a
  | Throw e => Throw e
  end.

Notation "x <- r ;; k" := (bind r (fun x => k))
  (at level 61, r at next level, right associativity).
Notation "' p <- r ;; k" := (bind r (fun x => let p := x in k))
  (at level 61, p pattern, r at next level, right associativity).

(** ToBoolean.  Arrays and objects are truthy, also when empty. *)
Definition truthy (v : value) : bool :=
  match v with
  | VNull => false
  | VBool b => b
  | VNum n => negb (n =? 0)
  | VStr s => negb (s =? "")%string
  | VArr _ => true
  | VObj _ => true
  end.

Definition truthy_opt (v : option value) : bool :=
  match v with
  | Some v => truthy v
  | None => false
  end.

(** Own properties of a plain object. *)
Fixpoint get (o : object) (k : string) : option value :=
  match o with
  | [] => None
  | (k', v) :: rest => if (k' =? k)%string then Some v else get rest k
  end.

Fixpoint put (o : object) (k : string) (v : value) : object :=
  match o with
  | [] => [(k, v)]
  | (k', v') :: rest =>
      if (k' =? k)%string then (k, v) :: rest else (k', v') :: put rest k v
  end.

Fixpoint delete (o : object) (k : string) : object :=
  match o with
  | [] => []
  | (k', v) :: rest =>
      if (k' =? k)%string then delete rest k else (k', v) :: delete rest k
  end.

Definition keys (o : object) : list string := map fst o.

(** [o[k] = v] on a plain object.  Assigning to [__proto__] goes to the
    accessor of [Object.prototype] and creates no own property. *)
Definition assign (o : object) (k : string) (v : value) : object :=
  if (k =? "__proto__")%string then o else put o k v.

(** The members every plain object inherits from [Object.prototype]; a
    property read [o[k]] finds them when [o] has no own property [k]. *)
Definition Object_prototype_members : list string :=
  [ "constructor"; "__proto__"; "hasOwnProperty"; "isPrototypeOf";
    "propertyIsEnumerable"; "toLocaleString"; "toString"; "valueOf";
    "__defineGetter__"; "__defineSetter__"; "__lookupGetter__";
    "__lookupSetter__" ].

Inductive prop_read : Type :=
| Own (v : value)      (* an own property *)
| Inherited            (* a function or object of the prototype: truthy *)
| Undefined.

Definition read (o : object) (k : string) : prop_read :=
  match get o k with
  | Some v => Own v
  | None =>
      if existsb (String.eqb k) Object_prototype_members
      then Inherited else Undefined
  end.

(** [r === text]. *)
Definition read_is_str (text : string) (r : prop_read) : bool :=
  match r with
  | Own (VStr t) => (t =? text)%string
  | _ => false
  end.

Definition read_truthy (r : prop_read) : bool :=
  match r with
  | Own v => truthy v
  | Inherited => true
  | Undefined => false
  end.

(** Decimal form of an integer, as [Number.prototype.toString] and
    [JSON.stringify] print integers of magnitude below 10^21. *)
Definition string_of_Z (n : Z) : string := NilZero.string_of_int (Z.to_int n).

(** [Array.prototype.join]. *)
Definition join (sep : string) (l : list string) : string := String.concat sep l.

(** ToString of a value ([undefined] is [None]). *)
Fixpoint to_string (v : value) : string :=
  match v with
  | VNull => "null"
  | VBool true => "true"
  | VBool false => "false"
  | VNum n => string_of_Z n
  | VStr s => s
  | VArr items =>
      join "," (map (fun e => match e with VNull => "" | _ => to_string e end) items)
  | VObj _ => "[object Object]"
  end.

Definition to_property_key (v : option value) : string :=
  match v with
  | Some v => to_string v
  | None => "undefined"
  end.

(** ** PaginationWindower: the computed property [pages] *)

Inductive page_token : Type :=
| Page (n : Z)
| Hellip.     (* the string '&hellip;' *)

(** lodash [range(start, end)]: step 1 when [start < end], else -1; [end]
    itself is never produced. *)
Definition range (start stop : Z) : list Z :=
  if start <? stop
  then map (fun i => start + Z.of_nat i) (seq 0 (Z.to_nat (stop - start)))
  else map (fun i => start - Z.of_nat i) (seq 0 (Z.to_nat (start - stop))).

(** [pages], for an integer [pagination_data.total_pages] and an integer
    [params.pagenum]. *)
Definition pages (total_pages pagenum : Z) : list page_token :=
  if total_pages =? 0 then []
  else if total_pages <=? 10 then map Page (range 1 (total_pages + 1))
  else
    let pages_before := 4 in
    let pages_after := 4 in
    let current_page := pagenum in
    let '(pages_before, pages_after) :=
      if pages_before >=? current_page then
        (current_page - 1, pages_after + (pages_before - (current_page - 1)))
      else if current_page + pages_after >? total_pages then
        (pages_before + (pages_after - (total_pages - current_page)),
         total_pages - current_page)
      else (pages_before, pages_after) in
    let start_page := current_page - pages_before in
    let end_page := current_page + pages_after in
    if start_page =? 1 then
      (map Page (range start_page (end_page + 1)) ++ [Hellip; Page total_pages])%list
    else if end_page =? total_pages then
      ([Page 1; Hellip] ++ map Page (range start_page (end_page + 1)))%list
    else
      let pagination_items := map Page (range start_page (end_page + 1)) in
      let pagination_items :=
        if negb (start_page =? 2) then Hellip :: pagination_items
        else pagination_items in
      let pagination_items := Page 1 :: pagination_items in
      let pagination_items :=
        if negb (end_page =? total_pages - 1)
        then (pagination_items ++ [Hellip])%list
        else pagination_items in
      (pagination_items ++ [Page total_pages])%list.

(** ** Characters *)

Definition code (c : ascii) : N := N_of_ascii c.

Definition in_range (lo hi : N) (c : ascii) : bool :=
  ((lo <=? code c) && (code c <=? hi))%N.

Definition dquote : ascii := "034"%char.
Definition backslash : ascii := "092"%char.

Definition is_digit (c : ascii) : bool := in_range 48 57 c.
Definition is_alpha (c : ascii) : bool := in_range 65 90 c || in_range 97 122 c.

Definition hex_upper (n : N) : ascii :=
  if (n <? 10)%N then ascii_of_N (48 + n) else ascii_of_N (55 + n).

Definition hex_lower (n : N) : ascii :=
  if (n <? 10)%N then ascii_of_N (48 + n) else ascii_of_N (87 + n).

Definition hex_value (c : ascii) : option N :=
  if is_digit c then Some (code c - 48)%N
  else if in_range 65 70 c then Some (code c - 55)%N
  else if in_range 97 102 c then Some (code c - 87)%N
  else None.

(** ** encodeURIComponent and decodeURIComponent

    The platform functions, after ECMA-262 (Encode and Decode with the
    unreserved set of encodeURIComponent and an empty reserved set), on
    UTF-8 byte strings.  A string with a lone surrogate, on which
    encodeURIComponent throws, has no UTF-8 form and is outside the
    embedding. *)

Definition is_uri_unreserved (c : ascii) : bool :=
  is_alpha c || is_digit c
  || existsb (Ascii.eqb c) ["-"; "_"; "."; "!"; "~"; "*"; "'"; "("; ")"]%char.

Definition encode_char (c : ascii) : string :=
  if is_uri_unreserved c then String c ""
  else String "%" (String (hex_upper (code c / 16))
                     (String (hex_upper (code c mod 16)) "")).

Fixpoint encodeURIComponent (s : string) : string :=
  match s with
  | "" => ""
  | String c rest => encode_char c ++ encodeURIComponent rest
  end.

Fixpoint percent_decode (s : string) : option string :=
  match s with
  | "" => Some ""
  | String c rest =>
      if (c =? "%")%char then
        match rest with
        | String h (String l rest') =>
            match hex_value h, hex_value l with
            | Some a, Some b =>
                option_map (String (ascii_of_N (16 * a + b))) (percent_decode rest')
            | _, _ => None
            end
        | _ => None
        end
      else option_map (String c) (percent_decode rest)
  end.

Definition is_cont (c : ascii) : bool := in_range 128 191 c.

(** Well-formed UTF-8 (no overlong forms, no surrogates, at most U+10FFFF). *)
Fixpoint utf8_valid (s : string) : bool :=
  match s with
  | "" => true
  | String c r =>
      if (code c <? 128)%N then utf8_valid r
      else if in_range 194 223 c then
        match r with
        | String c1 r1 => is_cont c1 && utf8_valid r1
        | _ => false
        end
      else if in_range 224 239 c then
        match r with
        | String c1 (String c2 r2) =>
            (if (code c =? 224)%N then in_range 160 191 c1
             else if (code c =? 237)%N then in_range 128 159 c1
             else is_cont c1)
            && is_cont c2 && utf8_valid r2
        | _ => false
        end
      else if in_range 240 244 c then
        match r with
        | String c1 (String c2 (String c3 r3)) =>
            (if (code c =? 240)%N then in_range 144 191 c1
             else if (code c =? 244)%N then in_range 128 143 c1
             else is_cont c1)
            && is_cont c2 && is_cont c3 && utf8_valid r3
        | _ => false
        end
      else false
  end.

Definition decodeURIComponent (s : string) : result string :=
  match percent_decode s with
  | Some bytes => if utf8_valid bytes then Ok bytes else Throw URIError
  | None => Throw URIError
  end.

(** ** JSON.stringify and JSON.parse

    After ECMA-262 (SerializeJSONProperty, QuoteJSONString) and the JSON
    grammar.  [Unsupported] marks a text that is outside the embedding: a
    number whose digits are followed by a fraction or an exponent (which
    JavaScript reads as a number, or rejects when ill formed), or a string
    with a lone surrogate escape. *)

Definition Unsupported : js_error := Thrown "outside the embedding".

Definition escape_char (c : ascii) : string :=
  if (c =? dquote)%char then String backslash (String dquote "")
  else if (c =? backslash)%char then String backslash (String backslash "")
  else if (c =? "008")%char then String backslash "b"
  else if (c =? "012")%char then String backslash "f"
  else if (c =? "010")%char then String backslash "n"
  else if (c =? "013")%char then String backslash "r"
  else if (c =? "009")%char then String backslash "t"
  else if (code c <? 32)%N then
    String backslash
      (String "u" (String "0" (String "0"
         (String (hex_lower (code c / 16)) (String (hex_lower (code c mod 16)) "")))))
  else String c "".

Fixpoint escape_string (s : string) : string :=
  match s with
  | "" => ""
  | String c rest => escape_char c ++ escape_string rest
  end.

Definition quote (s : string) : string :=
  String dquote (escape_string s ++ String dquote "").

Fixpoint JSON_stringify (v : value) : string :=
  match v with
  | VNull => "null"
  | VBool true => "true"
  | VBool false => "false"
  | VNum n => string_of_Z n
  | VStr s => quote s
  | VArr items => "[" ++ join "," (map JSON_stringify items) ++ "]"
  | VObj props =>
      "{" ++ join ","
               (map (fun kv => let '(k, v) := kv in quote k ++ ":" ++ JSON_stringify v)
                    props) ++ "}"
  end.

Definition is_json_ws (c : ascii) : bool :=
  existsb (Ascii.eqb c) [" "; "009"; "010"; "013"]%char.

Fixpoint skip_ws (s : string) : string :=
  match s with
  | String c rest => if is_json_ws c then skip_ws rest else s
  | "" => ""
  end.

(** What a string literal denotes before it is turned into text: the
    characters written as they are, and the [\uXXXX] code units. *)
Inductive code_unit : Type :=
| Raw (c : ascii)
| Esc (u : N).

Definition simple_escape (e : ascii) : option ascii :=
  if (e =? dquote)%char then Some dquote
  else if (e =? backslash)%char then Some backslash
  else if (e =? "/")%char then Some "/"%char
  else if (e =? "b")%char then Some "008"%char
  else if (e =? "f")%char then Some "012"%char
  else if (e =? "n")%char then Some "010"%char
  else if (e =? "r")%char then Some "013"%char
  else if (e =? "t")%char then Some "009"%char
  else None.

Definition hex4 (h1 h2 h3 h4 : ascii) : option N :=
  match hex_value h1, hex_value h2, hex_value h3, hex_value h4 with
  | Some a, Some b, Some c, Some d => Some (((a * 16 + b) * 16 + c) * 16 + d)%N
  | _, _, _, _ => None
  end.

(** The characters of a string literal after its opening quote, up to and
    including the closing quote. *)
Fixpoint parse_string_body (s : string) : result (list code_unit * string) :=
  match s with
  | "" => Throw SyntaxError
  | String c r =>
      if (c =? dquote)%char then Ok ([], r)
      else if (c =? backslash)%char then
        match r with
        | "" => Throw SyntaxError
        | String e r1 =>
            if (e =? "u")%char then
              match r1 with
              | String h1 (String h2 (String h3 (String h4 r2))) =>
                  match hex4 h1 h2 h3 h4 with
                  | Some u =>
                      '(us, rest) <- parse_string_body r2 ;; Ok (Esc u :: us, rest)
                  | None => Throw SyntaxError
                  end
              | _ => Throw SyntaxError
              end
            else
              match simple_escape e with
              | Some c' =>
                  '(us, rest) <- parse_string_body r1 ;; Ok (Raw c' :: us, rest)
              | None => Throw SyntaxError
              end
        end
      else if (code c <? 32)%N then Throw SyntaxError
      else '(us, rest) <- parse_string_body r ;; Ok (Raw c :: us, rest)
  end.

Definition byte (n : N) : ascii := ascii_of_N n.

Definition utf8_encode (cp : N) : string :=
  (if cp <? 128 then String (byte cp) ""
   else if cp <? 2048 then
     String (byte (192 + cp / 64)) (String (byte (128 + cp mod 64)) "")
   else if cp <? 65536 then
     String (byte (224 + cp / 4096))
       (String (byte (128 + (cp / 64) mod 64)) (String (byte (128 + cp mod 64)) ""))
   else
     String (byte (240 + cp / 262144))
       (String (byte (128 + (cp / 4096) mod 64))
          (String (byte (128 + (cp / 64) mod 64))
             (String (byte (128 + cp mod 64)) ""))))%N.

Definition is_high_surrogate (u : N) : bool := ((55296 <=? u) && (u <=? 56319))%N.
Definition is_low_surrogate (u : N) : bool := ((56320 <=? u) && (u <=? 57343))%N.

(** The text of a literal; [None] when a surrogate escape is unpaired. *)
Fixpoint utf8_of_units (us : list code_unit) : option string :=
  match us with
  | [] => Some ""
  | Raw c :: r => option_map (String c) (utf8_of_units r)
  | Esc u :: r =>
      if is_high_surrogate u then
        match r with
        | Esc l :: r' =>
            if is_low_surrogate l then
              option_map
                (append (utf8_encode (65536 + (u - 55296) * 1024 + (l - 56320))%N))
                (utf8_of_units r')
            else None
        | _ => None
        end
      else if is_low_surrogate u then None
      else option_map (append (utf8_encode u)) (utf8_of_units r)
  end.

Definition parse_string (s : string) : result (string * string) :=
  '(us, rest) <- parse_string_body s ;;
  match utf8_of_units us with
  | Some text => Ok (text, rest)
  | None => Throw Unsupported
  end.

Definition digit_of (c : ascii) : option (Decimal.uint -> Decimal.uint) :=
  if (c =? "0")%char then Some Decimal.D0
  else if (c =? "1")%char then Some Decimal.D1
  else if (c =? "2")%char then Some Decimal.D2
  else if (c =? "3")%char then Some Decimal.D3
  else if (c =? "4")%char then Some Decimal.D4
  else if (c =? "5")%char then Some Decimal.D5
  else if (c =? "6")%char then Some Decimal.D6
  else if (c =? "7")%char then Some Decimal.D7
  else if (c =? "8")%char then Some Decimal.D8
  else if (c =? "9")%char then Some Decimal.D9
  else None.

(** The longest prefix of decimal digits. *)
Fixpoint take_digits (s : string) : Decimal.uint * string :=
  match s with
  | "" => (Decimal.Nil, "")
  | String c r =>
      match digit_of c with
      | Some d => let '(ds, rest) := take_digits r in (d ds, rest)
      | None => (Decimal.Nil, s)
      end
  end.

Definition parse_number (s : string) : result (value * string) :=
  let '(negative, s1) :=
    match s with
    | String c r => if (c =? "-")%char then (true, r) else (false, s)
    | "" => (false, s)
    end in
  let '(d, rest) := take_digits s1 in
  match d with
  | Decimal.Nil => Throw SyntaxError
  | Decimal.D0 (Decimal.Nil) | Decimal.D1 _ | Decimal.D2 _ | Decimal.D3 _
  | Decimal.D4 _ | Decimal.D5 _ | Decimal.D6 _ | Decimal.D7 _ | Decimal.D8 _
  | Decimal.D9 _ =>
      let n := Z.of_int (if negative then Decimal.Neg d else Decimal.Pos d) in
      match rest with
      | String c _ =>
          if existsb (Ascii.eqb c) ["."; "e"; "E"]%char then Throw Unsupported
          else Ok (VNum n, rest)
      | "" => Ok (VNum n, rest)
      end
  | Decimal.D0 _ => Throw SyntaxError     (* a leading zero *)
  end.

Fixpoint expect (word : string) (s : string) : option string :=
  match word, s with
  | "", _ => Some s
  | String w word', String c rest => if (w =? c)%char then expect word' rest else None
  | String _ _, "" => None
  end.

(** CreateDataProperty for each member in turn: a repeated key keeps its
    first position and takes the last value. *)
Definition build_object (members : list (string * value)) : object :=
  fold_left (fun o kv => put o (fst kv) (snd kv)) members [].

Fixpoint parse_value (fuel : nat) (s : string) {struct fuel}
  : result (value * string) :=
  match fuel with
  | O => Throw SyntaxError
  | S fuel' =>
      match s with
      | "" => Throw SyntaxError
      | String c r =>
          if (c =? "n")%char then
            match expect "ull" r with
            | Some rest => Ok (VNull, rest) | None => Throw SyntaxError
            end
          else if (c =? "t")%char then
            match expect "rue" r with
            | Some rest => Ok (VBool true, rest) | None => Throw SyntaxError
            end
          else if (c =? "f")%char then
            match expect "alse" r with
            | Some rest => Ok (VBool false, rest) | None => Throw SyntaxError
            end
          else if (c =? dquote)%char then
            '(text, rest) <- parse_string r ;; Ok (VStr text, rest)
          else if (c =? "[")%char then
            match expect "]" (skip_ws r) with
            | Some rest => Ok (VArr [], rest)
            | None =>
                '(items, rest) <- parse_elements fuel' (skip_ws r) ;;
                Ok (VArr items, rest)
            end
          else if (c =? "{")%char then
            match expect "}" (skip_ws r) with
            | Some rest => Ok (VObj [], rest)
            | None =>
                '(members, rest) <- parse_members fuel' (skip_ws r) ;;
                Ok (VObj (build_object members), rest)
            end
          else parse_number s
      end
  end

with parse_elements (fuel : nat) (s : string) {struct fuel}
  : result (list value * string) :=
  match fuel with
  | O => Throw SyntaxError
  | S fuel' =>
      '(v, r) <- parse_value fuel' s ;;
      match skip_ws r with
      | "" => Throw SyntaxError
      | String c r1 =>
          if (c =? ",")%char then
            '(vs, rest) <- parse_elements fuel' (skip_ws r1) ;; Ok (v :: vs, rest)
          else if (c =? "]")%char then Ok ([v], r1)
          else Throw SyntaxError
      end
  end

with parse_members (fuel : nat) (s : string) {struct fuel}
  : result (list (string * value) * string) :=
  match fuel with
  | O => Throw SyntaxError
  | S fuel' =>
      match expect (String dquote "") s with
      | None => Throw SyntaxError
      | Some s1 =>
          '(k, r) <- parse_string s1 ;;
          match expect ":" (skip_ws r) with
          | None => Throw SyntaxError
          | Some r0 =>
              '(v, r1) <- parse_value fuel' (skip_ws r0) ;;
              match skip_ws r1 with
              | "" => Throw SyntaxError
              | String c r2 =>
                  if (c =? ",")%char then
                    '(ms, rest) <- parse_members fuel' (skip_ws r2) ;;
                    Ok ((k, v) :: ms, rest)
                  else if (c =? "}")%char then Ok ([(k, v)], r2)
                  else Throw SyntaxError
              end
          end
      end
  end.

Definition JSON_parse (s : string) : result value :=
  '(v, rest) <- parse_value (S (String.length s)) (skip_ws s) ;;
  match skip_ws rest with
  | "" => Ok v
  | String _ _ => Throw SyntaxError
  end.

(** ** ParamSerializer: [serializeParams] and [unserializeParams] *)

(** [JSON.stringify(x)] is [undefined] for an absent [x], which
    encodeURIComponent turns into the text "undefined". *)
Definition stringify_opt (v : option value) : string :=
  match v with
  | Some v => JSON_stringify v
  | None => "undefined"
  end.

Definition serializeParams (params : object) : string :=
  join "&"
    (map (fun k =>
            encodeURIComponent k ++ "="
            ++ encodeURIComponent (stringify_opt (get params k)))
         (filter (fun k => truthy_opt (get params k)) (keys params))).

(** [String.prototype.split] with a separator of one character. *)
Fixpoint split_on (sep : ascii) (s : string) : list string :=
  match s with
  | "" => [""]
  | String c rest =>
      if (c =? sep)%char then "" :: split_on sep rest
      else match split_on sep rest with
           | piece :: pieces => String c piece :: pieces
           | [] => [String c ""]
           end
  end.

(** [s.substring(1)]. *)
Definition substring1 (s : string) : string :=
  match s with
  | "" => ""
  | String _ rest => rest
  end.

(** An element of a split that is absent reads as [undefined], which
    decodeURIComponent turns into the text "undefined". *)
Definition item (val : list string) (i : nat) : string :=
  nth i val "undefined".

Definition unserializeParams (param_string : string) : result object :=
  let params_obj := map (split_on "=") (split_on "&" (substring1 param_string)) in
  fold_left
    (fun acc val =>
       params <- acc ;;
       k <- decodeURIComponent (item val 0) ;;
       text <- decodeURIComponent (item val 1) ;;
       v <- JSON_parse text ;;
       Ok (assign params k v))
    params_obj (Ok []).

(** ** lodash [merge]

    [merge_value dst src] is the value left at a key by [merge] when the
    destination holds [dst] there and the source holds [src]: primitives
    overwrite, arrays merge index by index, plain objects merge key by key,
    and a source array or object over anything else is copied.  A source
    object over a destination array leaves an array with named properties,
    which [value] cannot hold: the array is kept.  What lodash does with a
    key named [__proto__] differs between its versions and is not
    modelled. *)
Fixpoint merge_value (dst : option value) (src : value) {struct src} : value :=
  match src with
  | VArr items =>
      let d := match dst with Some (VArr d) => d | _ => [] end in
      VArr ((fix go (ss ds : list value) {struct ss} : list value :=
               match ss with
               | [] => ds
               | s :: ss' =>
                   match ds with
                   | [] => merge_value None s :: go ss' []
                   | d :: ds' => merge_value (Some d) s :: go ss' ds'
                   end
               end) items d)
  | VObj props =>
      match dst with
      | Some (VArr d) => VArr d
      | _ =>
          let d := match dst with Some (VObj d) => d | _ => [] end in
          VObj ((fix go (ps : list (string * value)) (acc : object) {struct ps} : object :=
                   match ps with
                   | [] => acc
                   | (k, v) :: ps' => go ps' (put acc k (merge_value (get acc k) v))
                   end) props d)
      end
  | _ => src
  end.

(** [merge(dst, src)] on two plain objects. *)
Definition merge (dst src : object) : object :=
  match merge_value (Some (VObj dst)) (VObj src) with
  | VObj o => o
  | _ => dst
  end.

(** ** The component: props, data and private fields *)

Record props : Type := {
  ver : Z;
  post_type : string;
  per_page : Z;
  meta_fields : object;
  initial_page : Z;
  initial_search : string;
  initial_order : string;
  initial_orderby : string;
  initial_taxonomies : object;
  initial_meta_query : object
}.

(** A number read by [parseInt]: [None] is [NaN]. *)
Record pagination : Type := {
  total : option Z;
  total_pages : option Z
}.

Record state : Type := {
  wp_data : value;
  pagination_data : pagination;
  params : object;
  error : option js_error;                  (* [null] is [None] *)
  loading : bool;
  page_updated : bool;                      (* [__page_updated] *)
  suppress_history_state : bool;            (* [__suppress_history_state] *)
  is_initial_load : bool;                   (* [__is_initial_load] *)
  history_entries : list (string * object); (* [__history.push], oldest first *)
  root_events : list string;                (* [triggerRootEvent], oldest first *)
  initial_load_calls : nat;                 (* calls of the hook [onInitialLoad] *)
  params_change_calls : nat                 (* calls of the hook [onParamsChange] *)
}.

Definition with_wp_data (v : value) (s : state) : state :=
  {| wp_data := v; pagination_data := pagination_data s; params := params s;
     error := error s; loading := loading s; page_updated := page_updated s;
     suppress_history_state := suppress_history_state s;
     is_initial_load := is_initial_load s; history_entries := history_entries s;
     root_events := root_events s; initial_load_calls := initial_load_calls s;
     params_change_calls := params_change_calls s |}.

Definition with_pagination_data (p : pagination) (s : state) : state :=
  {| wp_data := wp_data s; pagination_data := p; params := params s;
     error := error s; loading := loading s; page_updated := page_updated s;
     suppress_history_state := suppress_history_state s;
     is_initial_load := is_initial_load s; history_entries := history_entries s;
     root_events := root_events s; initial_load_calls := initial_load_calls s;
     params_change_calls := params_change_calls s |}.

Definition with_params (p : object) (s : state) : state :=
  {| wp_data := wp_data s; pagination_data := pagination_data s; params := p;
     error := error s; loading := loading s; page_updated := page_updated s;
     suppress_history_state := suppress_history_state s;
     is_initial_load := is_initial_load s; history_entries := history_entries s;
     root_events := root_events s; initial_load_calls := initial_load_calls s;
     params_change_calls := params_change_calls s |}.

Definition with_error (e : option js_error) (s : state) : state :=
  {| wp_data := wp_data s; pagination_data := pagination_data s; params := params s;
     error := e; loading := loading s; page_updated := page_updated s;
     suppress_history_state := suppress_history_state s;
     is_initial_load := is_initial_load s; history_entries := history_entries s;
     root_events := root_events s; initial_load_calls := initial_load_calls s;
     params_change_calls := params_change_calls s |}.

Definition with_loading (b : bool) (s : state) : state :=
  {| wp_data := wp_data s; pagination_data := pagination_data s; params := params s;
     error := error s; loading := b; page_updated := page_updated s;
     suppress_history_state := suppress_history_state s;
     is_initial_load := is_initial_load s; history_entries := history_entries s;
     root_events := root_events s; initial_load_calls := initial_load_calls s;
     params_change_calls := params_change_calls s |}.

Definition with_page_updated (b : bool) (s : state) : state :=
  {| wp_data := wp_data s; pagination_data := pagination_data s; params := params s;
     error := error s; loading := loading s; page_updated := b;
     suppress_history_state := suppress_history_state s;
     is_initial_load := is_initial_load s; history_entries := history_entries s;
     root_events := root_events s; initial_load_calls := initial_load_calls s;
     params_change_calls := params_change_calls s |}.

Definition with_suppress_history_state (b : bool) (s : state) : state :=
  {| wp_data := wp_data s; pagination_data := pagination_data s; params := params s;
     error := error s; loading := loading s; page_updated := page_updated s;
     suppress_history_state := b;
     is_initial_load := is_initial_load s; history_entries := history_entries s;
     root_events := root_events s; initial_load_calls := initial_load_calls s;
     params_change_calls := params_change_calls s |}.

Definition with_is_initial_load (b : bool) (s : state) : state :=
  {| wp_data := wp_data s; pagination_data := pagination_data s; params := params s;
     error := error s; loading := loading s; page_updated := page_updated s;
     suppress_history_state := suppress_history_state s;
     is_initial_load := b; history_entries := history_entries s;
     root_events := root_events s; initial_load_calls := initial_load_calls s;
     params_change_calls := params_change_calls s |}.

Definition with_history_entries (h : list (string * object)) (s : state) : state :=
  {| wp_data := wp_data s; pagination_data := pagination_data s; params := params s;
     error := error s; loading := loading s; page_updated := page_updated s;
     suppress_history_state := suppress_history_state s;
     is_initial_load := is_initial_load s; history_entries := h;
     root_events := root_events s; initial_load_calls := initial_load_calls s;
     params_change_calls := params_change_calls s |}.

Definition with_root_events (l : list string) (s : state) : state :=
  {| wp_data := wp_data s; pagination_data := pagination_data s; params := params s;
     error := error s; loading := loading s; page_updated := page_updated s;
     suppress_history_state := suppress_history_state s;
     is_initial_load := is_initial_load s; history_entries := history_entries s;
     root_events := l; initial_load_calls := initial_load_calls s;
     params_change_calls := params_change_calls s |}.

Definition with_initial_load_calls (n : nat) (s : state) : state :=
  {| wp_data := wp_data s; pagination_data := pagination_data s; params := params s;
     error := error s; loading := loading s; page_updated := page_updated s;
     suppress_history_state := suppress_history_state s;
     is_initial_load := is_initial_load s; history_entries := history_entries s;
     root_events := root_events s; initial_load_calls := n;
     params_change_calls := params_change_calls s |}.

Definition with_params_change_calls (n : nat) (s : state) : state :=
  {| wp_data := wp_data s; pagination_data := pagination_data s; params := params s;
     error := error s; loading := loading s; page_updated := page_updated s;
     suppress_history_state := suppress_history_state s;
     is_initial_load := is_initial_load s; history_entries := history_entries s;
     root_events := root_events s; initial_load_calls := initial_load_calls s;
     params_change_calls := n |}.

(** [data()], with the private fields as [created] sets them. *)
Definition data : state :=
  {| wp_data := VObj [];
     pagination_data := {| total := Some 0; total_pages := Some 0 |};
     params := [];
     error := None;
     loading := true;
     page_updated := true;
     suppress_history_state := true;
     is_initial_load := true;
     history_entries := [];
     root_events := [];
     initial_load_calls := 0;
     params_change_calls := 0 |}.

Definition valid_orderbys : list string :=
  ["author"; "date"; "id"; "include"; "modified"; "parent"; "relevance";
   "slug"; "title"].

(** ** QueryBuilder: the computed property [query_params] *)

Section Component.

Variable cfg : props.
Variable pathname : string.      (* [window.location.pathname] *)
Variable origin : string.        (* [location.origin] *)

(** [Object.keys(x).length > 0] for a value [x] other than [null]. *)
Definition has_own_keys (v : value) : bool :=
  match v with
  | VObj (_ :: _) => true
  | VArr (_ :: _) => true
  | VStr s => negb (s =? "")%string
  | _ => false
  end.

(** [x.relation = 'AND'] in module (strict) code.  A named property set
    on an array is not part of a [value]: the array is kept as it is. *)
Definition set_relation (v : value) : result value :=
  match v with
  | VObj o => Ok (VObj (put o "relation" (VStr "AND")))
  | VArr items => Ok (VArr items)
  | _ => Throw TypeError
  end.

Definition orderby_error : js_error :=
  Thrown ("Orderby must be one of: " ++ join ", " valid_orderbys
          ++ ", or a postmeta field").

(** [this.__valid_orderbys.indexOf(orderby) === -1]. *)
Definition not_a_valid_orderby (orderby : option value) : bool :=
  match orderby with
  | Some (VStr s) => negb (existsb (String.eqb s) valid_orderbys)
  | _ => true
  end.

(** [query_params] evaluated on [this.params].  It returns the derived
    request and [this.params] as the evaluation leaves it:
    [extend({}, this.params)] copies the top level only, so the object under
    [meta_query] is the one of [this.params], and the assignment of
    [relation] is made on it. *)
Definition query_params (this_params : object) : result (object * object) :=
  let query_params := this_params in
  let orderby := get this_params "orderby" in
  let query_params :=
    match get query_params "pagenum" with
    | Some pagenum =>
        if truthy pagenum
        then delete (put query_params "page" pagenum) "pagenum"
        else query_params
    | None => query_params
    end in
  let meta_type := read (meta_fields cfg) (to_property_key orderby) in
  (* [meta_key = orderby] with an absent [orderby] stores [undefined],
     which an [object] does not hold *)
  let set_meta_key q :=
    match orderby with Some v => put q "meta_key" v | None => q end in
  query_params <-
    (if read_is_str "number" meta_type then
       Ok (set_meta_key (put query_params "orderby" (VStr "meta_value_num")))
     else if read_truthy meta_type then
       Ok (set_meta_key (put query_params "orderby" (VStr "meta_value")))
     else if not_a_valid_orderby orderby then Throw orderby_error
     else Ok query_params) ;;
  match get query_params "meta_query" with
  | None | Some VNull => Throw TypeError      (* [Object.keys] of no object *)
  | Some meta_query =>
      if has_own_keys meta_query then
        meta_query' <- set_relation meta_query ;;
        Ok (put query_params "meta_query" meta_query',
            put this_params "meta_query" meta_query')
      else Ok (query_params, this_params)
  end.

(** ** FetchOrchestrator: [constructURL] and [__fetchData] *)

Record url : Type := {
  url_base : string;
  url_search : list (string * string)
}.

(** [constructURL]; evaluating [this.query_params] acts on [this.params]. *)
Definition constructURL (s : state) : result (url * state) :=
  match query_params (params s) with
  | Ok (q, this_params) =>
      Ok ({| url_base := origin ++ "/wp-json/wp/v2/" ++ post_type cfg;
             url_search :=
               ("context", "embed") :: ("_embed", "1")
               :: map (fun kv => (fst kv, to_string (snd kv))) q |},
          with_params this_params s)
  | Throw e => Throw (ErrorOf e)
  end.

(** How the network call of one [__fetchData] ends. *)
Inductive fetch_outcome : Type :=
| FetchRejected (e : js_error)      (* [fetch] rejects: network error *)
| BodyRejected (e : js_error)       (* [fetchResponse.json()] rejects *)
| Responded (body : value) (x_wp_total x_wp_totalpages : option string).

Definition is_space (c : ascii) : bool :=
  existsb (Ascii.eqb c) [" "; "009"; "010"; "011"; "012"; "013"]%char.

Fixpoint skip_space (s : string) : string :=
  match s with
  | String c rest => if is_space c then skip_space rest else s
  | "" => ""
  end.

Fixpoint hex_prefix (s : string) (acc : N) (seen : bool) : option N :=
  match s with
  | String c rest =>
      match hex_value c with
      | Some d => hex_prefix rest (16 * acc + d)%N true
      | None => if seen then Some acc else None
      end
  | "" => if seen then Some acc else None
  end.

(** [parseInt(x)] without a radix, for a header value ([None] is the
    [null] of an absent header); [None] as a result is [NaN].  Only the
    ASCII white space is skipped. *)
Definition parseInt (x : option string) : option Z :=
  match x with
  | None => None
  | Some text =>
      let s := skip_space text in
      let '(sign, s) :=
        match s with
        | String c rest =>
            if (c =? "-")%char then (-1, rest)
            else if (c =? "+")%char then (1, rest)
            else (1, s)
        | "" => (1, s)
        end in
      match s with
      | String z (String x rest) =>
          if ((z =? "0") && ((x =? "x") || (x =? "X")))%char then
            option_map (fun n => sign * Z.of_N n) (hex_prefix rest 0 false)
          else
            match fst (take_digits s) with
            | Decimal.Nil => None
            | d => Some (sign * Z.of_uint d)
            end
      | _ =>
          match fst (take_digits s) with
          | Decimal.Nil => None
          | d => Some (sign * Z.of_uint d)
          end
      end
  end.

Definition triggerRootEvent (name : string) (s : state) : state :=
  with_root_events (root_events s ++ [name])%list s.

(** [__fetchData] up to its first [await].  [true] says a network call
    is in flight; [false] that building the request threw and the [catch]
    block has run. *)
Definition fetch_start (s : state) : state * bool :=
  let s := with_loading true s in
  let s := triggerRootEvent "loading" s in
  match constructURL s with
  | Ok (_, s) => (s, true)
  | Throw e => (with_loading false (with_error (Some e) s), false)
  end.

(** [__fetchData] from the moment the network call ends. *)
Definition fetch_settle (o : fetch_outcome) (s : state) : state :=
  match o with
  | Responded body x_wp_total x_wp_totalpages =>
      let s := with_wp_data body s in
      let s := with_pagination_data
                 {| total := parseInt x_wp_total;
                    total_pages := parseInt x_wp_totalpages |} s in
      let s := with_loading false s in
      if is_initial_load s then
        with_is_initial_load false
          (with_initial_load_calls (S (initial_load_calls s)) s)
      else s
  | FetchRejected e | BodyRejected e =>
      with_loading false (with_error (Some e) s)
  end.

(** One whole run of [__fetchData], the network call ending as [o]. *)
Definition fetchData (o : fetch_outcome) (s : state) : state :=
  let '(s, in_flight) := fetch_start s in
  if in_flight then fetch_settle o s else s.

(** ** The public methods

    The optional callbacks are not passed. *)

(** The [terms] argument: one ID or an array of IDs. *)
Inductive terms_arg : Type :=
| OneTerm (t : Z)
| ManyTerms (ts : list Z).

(** [if (terms.constructor !== Array) terms = [terms]]. *)
Definition as_array (terms : terms_arg) : list Z :=
  match terms with
  | OneTerm t => [t]
  | ManyTerms ts => ts
  end.

(** [x === t] for a number [t]. *)
Definition is_num (t : Z) (x : value) : bool :=
  match x with
  | VNum n => n =? t
  | _ => false
  end.

Definition selectPage (page : Z) (s : state) : result state :=
  let s := with_page_updated true s in
  Ok (with_params (put (params s) "pagenum" (VNum page)) s).

Definition setSearch (search : string) (s : state) : result state :=
  Ok (with_params (put (params s) "search" (VStr search)) s).

Definition resetTerms (taxonomy : string) (s : state) : result state :=
  Ok (with_params (assign (params s) taxonomy (VArr [])) s).

(** One turn of the loop of [addTerms] on the value under the taxonomy. *)
Definition add_term (current : option value) (t : Z) : result (option value) :=
  match current with
  | Some (VArr items) =>
      if existsb (is_num t) items then Ok current
      else Ok (Some (VArr (items ++ [VNum t])%list))
  | Some (VStr text) =>
      (* [String.prototype.indexOf], and no [push] on a string *)
      match String.index 0 (string_of_Z t) text with
      | Some _ => Ok current
      | None => Throw TypeError
      end
  | _ => Throw TypeError
  end.

Definition store (taxonomy : string) (v : option value) (p : object) : object :=
  match v with
  | Some v => put p taxonomy v
  | None => p
  end.

Definition addTerms (taxonomy : string) (terms : terms_arg) (s : state)
  : result state :=
  final <- fold_left (fun acc t => cur <- acc ;; add_term cur t)
             (as_array terms) (Ok (get (params s) taxonomy)) ;;
  Ok (with_params (store taxonomy final (params s)) s).

(** [splice(index, 1)] at the first element equal to [t]. *)
Fixpoint remove_first (t : Z) (items : list value) : list value :=
  match items with
  | [] => []
  | x :: rest => if is_num t x then rest else x :: remove_first t rest
  end.

Definition remove_term (current : option value) (t : Z) : result (option value) :=
  match current with
  | Some (VArr items) => Ok (Some (VArr (remove_first t items)))
  | Some (VStr text) =>
      match String.index 0 (string_of_Z t) text with
      | Some _ => Throw TypeError       (* no [splice] on a string *)
      | None => Ok current
      end
  | _ => Throw TypeError
  end.

Definition removeTerms (taxonomy : string) (terms : terms_arg) (s : state)
  : result state :=
  final <- fold_left (fun acc t => cur <- acc ;; remove_term cur t)
             (as_array terms) (Ok (get (params s) taxonomy)) ;;
  Ok (with_params (store taxonomy final (params s)) s).

Definition setTerms (taxonomy : string) (terms : terms_arg) (s : state)
  : result state :=
  Ok (with_params (assign (params s) taxonomy (VArr (map VNum (as_array terms)))) s).

Definition setOrder (order : string) (s : state) : result state :=
  if negb (order =? "asc")%string && negb (order =? "desc")%string
  then Throw (Thrown "Order must be either asc or desc")
  else Ok (with_params (put (params s) "order" (VStr order)) s).

Definition setOrderBy (orderby : string) (s : state) : result state :=
  Ok (with_params (put (params s) "orderby" (VStr orderby)) s).

Definition is_str (text : string) (x : option value) : bool :=
  match x with
  | Some (VStr t) => (t =? text)%string
  | _ => false
  end.

Definition toggleOrder (s : state) : result state :=
  if is_str "asc" (get (params s) "order") then setOrder "desc" s
  else setOrder "asc" s.

Definition selectOrderBy (orderby : string) (default_order : option string)
    (s : state) : result state :=
  let default_order :=
    match default_order with
    | Some o => if (o =? "")%string then "asc" else o
    | None => "asc"
    end in
  s <- (if is_str orderby (get (params s) "orderby") then toggleOrder s
        else setOrder default_order s) ;;
  setOrderBy orderby s.

(** [Vue.set(this.params.meta_query, field, {field, value})].  Vue tests
    [field in target], which throws on anything that is not an object.  An
    array under [meta_query] is outside the data model and is left as it
    is. *)
Definition setMetaFilter (field : string) (v : value) (s : state) : result state :=
  match get (params s) "meta_query" with
  | Some (VObj mq) =>
      Ok (with_params
            (put (params s) "meta_query"
               (VObj (put mq field (VObj [("field", VStr field); ("value", v)]))))
            s)
  | Some (VArr _) => Ok s
  | _ => Throw TypeError
  end.

(** [Vue.delete(this.params.meta_query, field)].  Vue reads
    [target.__ob__], which throws on [undefined] and [null], and returns
    when the target has no own property [field], as a number or a boolean
    has none.  A string or an array under [meta_query] is outside the data
    model and is left as it is. *)
Definition removeMetaFilter (field : string) (s : state) : result state :=
  match get (params s) "meta_query" with
  | Some (VObj mq) =>
      Ok (with_params (put (params s) "meta_query" (VObj (delete mq field))) s)
  | None | Some VNull => Throw TypeError
  | Some _ => Ok s
  end.

(** [Vue.set(this.params, meta_query, {})]: the identifier [meta_query]
    is not declared. *)
Definition clearMetaFilters (s : state) : result state := Throw ReferenceError.

Definition initialParams : object :=
  [ ("per_page", VNum (per_page cfg));
    ("search", VStr (initial_search cfg));
    ("order", VStr (initial_order cfg));
    ("orderby", VStr (initial_orderby cfg));
    ("pagenum", VNum (initial_page cfg));
    ("meta_query", VObj (initial_meta_query cfg));
    ("ver", VNum (ver cfg)) ].

Definition reset (s : state) : state :=
  let params := merge (merge [] initialParams) (initial_taxonomies cfg) in
  with_params params s.

(** ** HistorySync and the watcher of [params] *)

Definition pushHistoryState (target : string) (s : state) : state :=
  with_history_entries (history_entries s ++ [(target, params s)])%list s.

(** The listener of [__initHistory] on a POP; [snapshot] is
    [location.state], [None] when the entry carries none. *)
Definition on_pop (snapshot : option object) (s : state) : state :=
  let s := with_suppress_history_state true s in
  match snapshot with
  | Some snap => with_params snap (with_page_updated true s)
  | None => reset s
  end.

(** [watch.params.handler]: one reaction to a change of [params].  The
    call of [__fetchData] is not awaited: its part before the first [await]
    runs here, the rest when the network call ends ([fetch_settle]). *)
Definition handler (s : state) : state :=
  let s :=
    if negb (page_updated s)
    then with_params (put (params s) "pagenum" (VNum 1)) s
    else s in
  let s := fst (fetch_start s) in
  let s := with_page_updated false s in
  let s :=
    if negb (suppress_history_state s)
    then pushHistoryState (pathname ++ "?" ++ serializeParams (params s)) s
    else s in
  let s := with_suppress_history_state false s in
  with_params_change_calls (S (params_change_calls s)) s.

(** [created], for the [window.location.search] found at creation. *)
Definition created (location_search : string) : result state :=
  if (location_search =? "")%string then Ok (reset data)
  else
    parsed <- unserializeParams location_search ;;
    Ok (with_params (merge initialParams parsed) data).

(** ** Runs of the component *)

Inductive call : Type :=
| SelectPage (page : Z)
| SetSearch (search : string)
| ResetTerms (taxonomy : string)
| AddTerms (taxonomy : string) (terms : terms_arg)
| RemoveTerms (taxonomy : string) (terms : terms_arg)
| SetTerms (taxonomy : string) (terms : terms_arg)
| SetOrder (order : string)
| SetOrderBy (orderby : string)
| SelectOrderBy (orderby : string) (default_order : option string)
| ToggleOrder
| SetMetaFilter (field : string) (v : value)
| RemoveMetaFilter (field : string)
| ClearMetaFilters
| Reset.

Definition perform (c : call) (s : state) : result state :=
  match c with
  | SelectPage page => selectPage page s
  | SetSearch search => setSearch search s
  | ResetTerms taxonomy => resetTerms taxonomy s
  | AddTerms taxonomy terms => addTerms taxonomy terms s
  | RemoveTerms taxonomy terms => removeTerms taxonomy terms s
  | SetTerms taxonomy terms => setTerms taxonomy terms s
  | SetOrder order => setOrder order s
  | SetOrderBy orderby => setOrderBy orderby s
  | SelectOrderBy orderby default_order => selectOrderBy orderby default_order s
  | ToggleOrder => toggleOrder s
  | SetMetaFilter field v => setMetaFilter field v s
  | RemoveMetaFilter field => removeMetaFilter field s
  | ClearMetaFilters => clearMetaFilters s
  | Reset => Ok (reset s)
  end.

Inductive event : Type :=
| Call (c : call)                    (* a public method is called *)
| Pop (snapshot : option object)     (* back or forward navigation *)
| React                              (* the watcher of [params] runs *)
| Settle (o : fetch_outcome).        (* a network call ends *)

(** A method that throws leaves the component as it was. *)
Definition step (e : event) (s : state) : state :=
  match e with
  | Call c => match perform c s with Ok s' => s' | Throw _ => s end
  | Pop snapshot => on_pop snapshot s
  | React => handler s
  | Settle o => fetch_settle o s
  end.

Definition run (trace : list event) (s : state) : state :=
  fold_left (fun s e => step e s) trace s.

End Component.

(** ** ResourceTransformer: the computed property [resources]

    An item of the response is any [value].  The function that
    [resources] stores under [getFeaturedImage] is not part of a [value]:
    it is the function [getFeaturedImage] of the item.  The items are
    transformed in place, so [wp_data] holds the transformed items too. *)

(** [x[k]] for a value [x] that is not [null] and a key [k] that no
    prototype defines (the fixed keys that the component reads: title,
    rendered, _embedded, sizes, taxonomy, name and the like): only an object
    can hold it. *)
Definition field (x : value) (k : string) : option value :=
  match x with
  | VObj o => get o k
  | _ => None
  end.

(** The element of an array at the index written [k]. *)
Fixpoint at_index (items : list value) (i : nat) (k : string) : option value :=
  match items with
  | [] => None
  | x :: rest =>
      if (string_of_Z (Z.of_nat i) =? k)%string then Some x
      else at_index rest (S i) k
  end.

(** [x[k]] where a value is looked for: an own property of an object or
    the element of an array.  What the prototypes define (methods, the
    length of an array, the characters of a string) is left out: the
    component only goes on to read, from what it finds, a key that none of
    them has, or tests that it is an array. *)
Definition member (x : value) (k : string) : option value :=
  match x with
  | VObj o => get o k
  | VArr items => at_index items 0 k
  | _ => None
  end.

(** lodash [get(object, path)] for such keys: it stops at [null] and at
    what is missing. *)
Fixpoint get_path (x : value) (path : list string) : option value :=
  match path with
  | [] => Some x
  | k :: rest =>
      match member x k with
      | Some y => get_path y rest
      | None => None
      end
  end.

(** [if (!item.title) item.title = '';
     if (item.title.rendered) item.title = item.title.rendered;]
    as the value that [item.title] holds in the end. *)
Definition rendered_or_self (current : option value) : value :=
  let t :=
    match current with
    | Some t => if truthy t then t else VStr ""
    | None => VStr ""
    end in
  match field t "rendered" with
  | Some r => if truthy r then r else t
  | None => t
  end.

(** [!!get(sizes, [size])] for the sizes of the media details: on an
    object, an own property that is truthy or a member of
    [Object.prototype]. *)
Definition size_found (sizes : option value) (size : string) : bool :=
  match sizes with
  | Some (VObj o) => read_truthy (read o size)
  | Some x => truthy_opt (member x size)
  | None => false
  end.

(** [item.getFeaturedImage(size)]; [None] as a size is [undefined] and
    [None] as a result is [false].  On sizes that are an array, its length
    and its methods are found too and have no [source_url], as the size
    "full" has none there: the result is [false] either way. *)
Definition getFeaturedImage (item : value) (size : option string) : option value :=
  match get_path item ["_embedded"; "wp:featuredmedia"; "0"; "media_details"] with
  | Some base_featured_image =>
      if truthy base_featured_image then
        let size :=
          match size with
          | Some requested =>
              if (requested =? "")%string then "full"
              else if size_found (member base_featured_image "sizes") requested
                   then requested else "full"
          | None => "full"
          end in
        match get_path base_featured_image ["sizes"; size; "source_url"] with
        | Some source_url => if truthy source_url then Some source_url else None
        | None => None
        end
      else None
  | None => None
  end.

(** The name under which a term is filed: its taxonomy, [post_tag]
    turned into [tags]. *)
Definition taxonomy_name (term : value) : string :=
  let name := field term "taxonomy" in
  if is_str "post_tag" name then "tags" else to_property_key name.

(** One turn of the inner [forEach]: the term is pushed to the list under
    its taxonomy, created when [item.terms] reads [undefined] there. *)
Definition file_term (terms : object) (term : value) : result object :=
  match term with
  | VNull => Throw TypeError
  | _ =>
      let key := taxonomy_name term in
      match read terms key with
      | Undefined => Ok (assign terms key (VArr [term]))
      | Own (VArr filed) => Ok (put terms key (VArr (filed ++ [term])%list))
      | Own _ => Throw TypeError
      | Inherited => Throw TypeError          (* no [push] on it *)
      end
  end.

(** One turn of the outer [forEach], on one array of the embedded terms.
    Only an array has [forEach]; an object whose own [length] is not a
    number is outside the embedding. *)
Definition file_group (terms : object) (taxonomy : value) : result object :=
  match taxonomy with
  | VNull => Throw TypeError
  | VArr group => fold_left (fun acc term => t <- acc ;; file_term t term) group (Ok terms)
  | VStr text => if (text =? "")%string then Ok terms else Throw TypeError
  | VObj o =>
      match get o "length" with
      | None | Some VNull => Ok terms
      | Some (VNum n) => if 0 <? n then Throw TypeError else Ok terms
      | Some (VBool b) => if b then Throw TypeError else Ok terms
      | Some _ => Throw Unsupported
      end
  | _ => Ok terms
  end.

(** [item.terms] as the loops over [item._embedded['wp:term']] leave it. *)
Definition embedded_terms (item : value) : result object :=
  match get_path item ["_embedded"; "wp:term"] with
  | Some embedded =>
      if truthy embedded then
        match embedded with
        | VArr groups =>
            fold_left (fun acc taxonomy => t <- acc ;; file_group t taxonomy)
              groups (Ok [])
        | _ => Throw TypeError                (* no [forEach] on it *)
        end
      else Ok []
  | None => Ok []
  end.

(** The own properties of an array: its elements under their indices. *)
Definition indexed (items : list value) : object :=
  combine (map (fun i => string_of_Z (Z.of_nat i)) (seq 0 (List.length items)))
    items.

(** The body of the [map] of [resources] on one item; the resource is
    given by its own properties, in their order.  Module code is strict:
    reading [title] of [null] throws, and so does setting it on a number, a
    text or a boolean.  An array as an item takes the properties as an object
    does: it has no [title], no [excerpt] and no [_embedded], so it comes back
    with an empty title and excerpt and no terms, after its elements; that
    the resource is an array is not kept. *)
Definition transform (item : value) : result object :=
  match item with
  | VObj o =>
      let o := put o "title" (rendered_or_self (get o "title")) in
      let o := put o "excerpt" (rendered_or_self (get o "excerpt")) in
      let o := put o "terms" (VObj []) in
      terms <- embedded_terms (VObj o) ;;
      Ok (put o "terms" (VObj terms))
  | VArr items =>
      let o := put (indexed items) "title" (VStr "") in
      let o := put o "excerpt" (VStr "") in
      Ok (put o "terms" (VObj []))
  | _ => Throw TypeError
  end.

(** The results of [f] on the elements in turn, up to the first throw. *)
Fixpoint traverse {A B} (f : A -> result B) (l : list A) : result (list B) :=
  match l with
  | [] => Ok []
  | x :: rest => y <- f x ;; ys <- traverse f rest ;; Ok (y :: ys)
  end.

(** [resources]: lodash [map] over [this.wp_data].  [map] goes through
    the elements of an array, through the indices below [length] of an
    object that has a length, through the values of any other object and the
    characters of a string; [null], numbers and booleans have nothing to go
    through. *)
Definition resources (wp_data : value) : result (list object) :=
  match wp_data with
  | VArr items => traverse transform items
  | VObj o =>
      match get o "length" with
      | Some (VNum n) =>
          if (0 <=? n) && (n <=? 4294967295) then
            traverse (fun i => match get o (string_of_Z (Z.of_nat i)) with
                               | Some item => transform item
                               | None => Throw TypeError
                               end)
                     (seq 0 (Z.to_nat n))
          else if (0 <=? n) && (n <=? 9007199254740991) then
            Throw Unsupported       (* [Array(length)] throws a RangeError *)
          else traverse transform (map snd o)
      | _ => traverse transform (map snd o)
      end
  | VStr text => if (text =? "")%string then Ok [] else Throw TypeError
  | _ => Ok []
  end.

(** [joinTerms(item, taxonomy, separator)]; [None] as a separator is the
    default [', ']. *)
Definition joinTerms (item : value) (taxonomy : string) (separator : option string)
  : result string :=
  let separator := match separator with Some s => s | None => ", " end in
  match field item "terms" with
  | None | Some VNull => Throw TypeError
  | Some terms =>
      match member terms taxonomy with
      | Some (VArr filed) =>
          names <- traverse
                     (fun term =>
                        match term with
                        | VNull => Throw TypeError
                        | _ => Ok (match field term "name" with
                                   | None | Some VNull => ""
                                   | Some name => to_string name
                                   end)
                        end) filed ;;
          Ok (join separator names)
      | _ => Ok ""
      end
  end.

(** [isOrderedBy(orderby, order)]. *)
Definition isOrderedBy (orderby order : string) (s : state) : bool :=
  is_str orderby (get (params s) "orderby") && is_str order (get (params s) "order").

(** ** Notions used in the properties *)

(** [sep] does not occur in [s]. *)
Fixpoint free_of (sep : ascii) (s : string) : bool :=
  match s with
  | "" => true
  | String c rest => negb (c =? sep)%char && free_of sep rest
  end.

(** What [parse_string_body] reads back for a character that
    [escape_char] wrote: a code unit for a control character written as
    [\u00XX], the character itself otherwise. *)
Definition unit_of (c : ascii) : code_unit :=
  if (code c <? 32)%N
     && negb (existsb (Ascii.eqb c) ["008"; "009"; "010"; "012"; "013"]%char)
  then Esc (code c) else Raw c.

(** The text after a JSON number of the embedding: nothing, or one of
    the characters that close a value. *)
Definition delimited (rest : string) : bool :=
  match rest with
  | "" => true
  | String c _ => (c =? ",")%char || (c =? "]")%char || (c =? "}")%char
  end.

(** The first characters of the JSON texts that are not numbers. *)
Definition starts_other_token (c : ascii) : bool :=
  (c =? "n")%char || (c =? "t")%char || (c =? "f")%char || (c =? dquote)%char
  || (c =? "[")%char || (c =? "{")%char.

Fixpoint distinct (l : list string) : bool :=
  match l with
  | [] => true
  | x :: rest => negb (existsb (String.eqb x) rest) && distinct rest
  end.

(** The values that JSON represents exactly: integers within the safe
    range of a double, well-formed text, objects without repeated keys. *)
Fixpoint json_safe (v : value) : bool :=
  match v with
  | VNull => true
  | VBool _ => true
  | VNum n => Z.abs n <=? 9007199254740991
  | VStr s => utf8_valid s
  | VArr items => forallb json_safe items
  | VObj props =>
      distinct (map fst props)
      && forallb (fun kv => let '(k, v) := kv in utf8_valid k && json_safe v) props
  end.

(** Fuel that [parse_value] needs to read a value back. *)
Fixpoint size (v : value) : nat :=
  match v with
  | VArr items => S (fold_right (fun e n => S (size e + n)) O items)
  | VObj props => S (fold_right (fun kv n => let '(_, e) := kv in S (size e + n)) O props)
  | _ => 1
  end.

(** The text of one member of an object, as [JSON.stringify] writes it. *)
Definition member_text (kv : string * value) : string :=
  let '(k, v) := kv in quote k ++ ":" ++ JSON_stringify v.

(** The piece that [serializeParams] writes for a key and its value. *)
Definition pair_text (kv : string * value) : string :=
  encodeURIComponent (fst kv) ++ "="
  ++ encodeURIComponent (JSON_stringify (snd kv)).

(** A JSON text starts with a character that is neither white space nor
    a closing bracket. *)
Definition opens_value (s : string) : Prop :=
  exists c r, s = String c r
              /\ is_json_ws c = false
              /\ (c =? "]")%char = false /\ (c =? "}")%char = false.

(** [JSON.parse] reads [v] back from its text, whatever closes it. *)
Definition reads_back (v : value) : Prop :=
  json_safe v = true ->
  forall fuel rest,
    (size v <= fuel)%nat -> delimited rest = true ->
    parse_value fuel (JSON_stringify v ++ rest) = Ok (v, rest).


(** ** A configuration and a state to evaluate the component on *)

Definition example_props : props :=
  {| ver := 1;
     post_type := "posts";
     per_page := 10;
     meta_fields := [("price", VStr "number"); ("color", VStr "text");
                     ("rating", VStr "")];
     initial_page := 1;
     initial_search := "";
     initial_order := "desc";
     initial_orderby := "date";
     initial_taxonomies := [("category", VArr [])];
     initial_meta_query := [] |}.

Definition example_state : state := reset example_props data.

(** [example_state] with the filter [color = red] set. *)
Definition example_filtered : object :=
  [ ("per_page", VNum 10); ("search", VStr ""); ("order", VStr "desc");
    ("orderby", VStr "date"); ("pagenum", VNum 1);
    ("meta_query",
       VObj [("color", VObj [("field", VStr "color"); ("value", VStr "red")])]);
    ("ver", VNum 1); ("category", VArr []) ].

(** [params.pagenum] is a number that is at least 1. *)
Definition pagenum_ok (p : object) : Prop :=
  exists n, get p "pagenum" = Some (VNum n) /\ 1 <= n.

(** The events that cannot take [params.pagenum] below 1: a page selected
    is at least 1, a snapshot restored carries such a page, the configured
    initial page is one, and no taxonomy set or reset is called pagenum. *)
Definition keeps_page_valid (cfg : props) (e : event) : Prop :=
  match e with
  | Call (SelectPage page) => 1 <= page
  | Call (ResetTerms taxonomy) | Call (SetTerms taxonomy _) => taxonomy <> "pagenum"
  | Call Reset | Pop None =>
      1 <= initial_page cfg /\ ~ In "pagenum" (keys (initial_taxonomies cfg))
  | Pop (Some snapshot) => pagenum_ok snapshot
  | _ => True
  end.

(** The terms that a call of [addTerms] appends to [items]. *)
Fixpoint new_terms (items : list value) (ts : list Z) : list Z :=
  match ts with
  | [] => []
  | t :: rest =>
      if existsb (is_num t) items then new_terms items rest
      else t :: new_terms (items ++ [VNum t])%list rest
  end.

(** A post of the backend with a rendered title, no excerpt and one
    embedded tag. *)
Definition example_tag : value :=
  VObj [("id", VNum 7); ("name", VStr "News"); ("taxonomy", VStr "post_tag")].

Definition example_item : value :=
  VObj [ ("id", VNum 1);
         ("title", VObj [("rendered", VStr "Hi")]);
         ("_embedded",
            VObj [ ("wp:featuredmedia",
                      VArr [VObj [("media_details",
                         VObj [("sizes",
                            VObj [("full", VObj [("source_url", VStr "/full.jpg")]);
                                  ("medium", VObj [("source_url", VStr "/medium.jpg")])])])]]);
                   ("wp:term", VArr [VArr []; VArr [example_tag]]) ]) ].

(** *** Notions used in the properties of the transformer *)

(** What [item.terms] holds for a taxonomy with the terms [filed]:
    nothing when there is none. *)
Definition as_group (filed : list value) : option value :=
  match filed with
  | [] => None
  | _ => Some (VArr filed)
  end.

(** The terms of [terms] that are filed under [name], in their order. *)
Definition filed_under (name : string) (terms : list value) : list value :=
  filter (fun term => (taxonomy_name term =? name)%string) terms.

(** A term that can be filed: it is not [null] and its taxonomy is not
    called like a member of [Object.prototype]. *)
Definition plain_term (term : value) : bool :=
  match term with
  | VNull => false
  | _ => negb (existsb (String.eqb (taxonomy_name term)) Object_prototype_members)
  end.

(** What [joinTerms] prints for a term: its name, nothing for a missing
    or [null] name. *)
Definition term_name (term : value) : string :=
  match field term "name" with
  | None | Some VNull => ""
  | Some name => to_string name
  end.

(** A title or excerpt whose rendered form, when it has one, has no
    rendered form of its own (as a text has none). *)
Definition settles (current : option value) : bool :=
  negb (truthy_opt (field (rendered_or_self current) "rendered")).

(** *** Notions used in the properties of the pagination *)

(** A sequence of page tokens reads as a row of pages after [prev]: a
    page number follows its predecessor directly, or follows an ellipsis
    that stands for at least one page left out; no ellipsis follows another
    and none ends the row.  [gap] says that an ellipsis was just read. *)
Fixpoint spaced (prev : Z) (gap : bool) (l : list page_token) : bool :=
  match l with
  | [] => negb gap
  | Page n :: rest =>
      (if gap then prev + 1 <? n else n =? prev + 1) && spaced n false rest
  | Hellip :: rest => negb gap && spaced prev true rest
  end.

(** *** Notions used in the properties of the order *)

(** [params.order] is one of the two directions. *)
Definition order_ok (p : object) : Prop :=
  get p "order" = Some (VStr "asc") \/ get p "order" = Some (VStr "desc").

(** The events that cannot leave [params.order] without a direction: no
    taxonomy set or reset is called order, a snapshot restored carries a
    direction, and the configured initial order is one. *)
Definition keeps_order_valid (cfg : props) (e : event) : Prop :=
  match e with
  | Call (ResetTerms taxonomy) | Call (SetTerms taxonomy _) => taxonomy <> "order"
  | Call Reset | Pop None =>
      (initial_order cfg = "asc" \/ initial_order cfg = "desc")
      /\ ~ In "order" (keys (initial_taxonomies cfg))
  | Pop (Some snapshot) => order_ok snapshot
  | _ => True
  end.

(** *** Notions used in the properties of the URL *)

(** Every character of [s] passes [f]. *)
Fixpoint all_chars (f : ascii -> bool) (s : string) : bool :=
  match s with
  | "" => true
  | String c rest => f c && all_chars f rest
  end.

(** The characters of a serialized query: the unreserved ones, the
    percent sign of an escape, and the two separators. *)
Definition is_query_char (c : ascii) : bool :=
  is_uri_unreserved c || (c =? "%")%char || (c =? "&")%char || (c =? "=")%char.

(** The parameters that a URL brings back: no key twice, at least one
    truthy value, and every truthy value is one that JSON represents
    exactly, under a key of well-formed text that is not [__proto__]. *)
Definition restorable (p : object) : bool :=
  distinct (keys p)
  && existsb (fun kv => truthy (snd kv)) p
  && forallb (fun kv =>
                negb (truthy (snd kv))
                || (negb (fst kv =? "__proto__")%string && utf8_valid (fst kv)
                    && json_safe (snd kv))) p.

(** The parameters that [serializeParams] writes. *)
Definition truthy_params (p : object) : object :=
  filter (fun kv => truthy (snd kv)) p.

(** A number, a text or a boolean. *)
Definition is_primitive (v : value) : bool :=
  match v with
  | VBool _ | VNum _ | VStr _ => true
  | _ => false
  end.

(** *** Notions used in the properties of the runs *)

Definition is_reaction (e : event) : bool :=
  match e with
  | React => true
  | _ => false
  end.

(** A network call ends with a response whose body could be read. *)
Definition is_response (e : event) : bool :=
  match e with
  | Settle (Responded _ _ _) => true
  | _ => false
  end.

(** The number of reactions of the watcher in a run. *)
Definition reactions (trace : list event) : nat :=
  List.length (filter is_reaction trace).


(** *** Notions used in the properties of a pop

    A value in which no object holds a key twice, as every value of
    JavaScript is. *)
Fixpoint well_formed (v : value) : bool :=
  match v with
  | VArr items => forallb well_formed items
  | VObj props =>
      distinct (map fst props) && forallb (fun kv => well_formed (snd kv)) props
  | _ => true
  end.

(** The configured initial values of the QueryParams: page size, initial
    search, order and orderby, initial page, initial meta query and
    version, under the required keys. *)
Definition configured_values (cfg : props) : object :=
  [ ("per_page", VNum (per_page cfg));
    ("search", VStr (initial_search cfg));
    ("order", VStr (initial_order cfg));
    ("orderby", VStr (initial_orderby cfg));
    ("pagenum", VNum (initial_page cfg));
    ("meta_query", VObj (initial_meta_query cfg));
    ("ver", VNum (ver cfg)) ].

(** The example configuration with two categories selected and the
    filter [color = red] set from the start. *)
Definition example_selected : props :=
  {| ver := 1;
     post_type := "posts";
     per_page := 10;
     meta_fields := [("price", VStr "number"); ("color", VStr "text")];
     initial_page := 1;
     initial_search := "";
     initial_order := "desc";
     initial_orderby := "date";
     initial_taxonomies := [("category", VArr [VNum 3; VNum 5])];
     initial_meta_query :=
       [("color", VObj [("field", VStr "color"); ("value", VStr "red")])] |}.

(* ================================================================== *)
(** * Part II: properties *)
(* ================================================================== *)

(** ** Plain objects *)

Lemma get_put_same (o : object) (k : string) (v : value) :
  get (put o k v) k = Some v.
Proof.
  induction o as [|[k' v'] o IH]; simpl.
  - now rewrite String.eqb_refl.
  - destruct (String.eqb_spec k' k) as [->|Hne]; simpl.
    + now rewrite String.eqb_refl.
    + destruct (String.eqb_spec k' k); [contradiction|exact IH].
Qed.

Lemma get_put_other (o : object) (k k' : string) (v : value) :
  k <> k' -> get (put o k v) k' = get o k'.
Proof.
  intros Hne. induction o as [|[k0 v0] o IH]; simpl.
  - destruct (String.eqb_spec k k'); [contradiction|reflexivity].
  - destruct (String.eqb_spec k0 k) as [->|Hk]; simpl.
    + destruct (String.eqb_spec k k'); [contradiction|reflexivity].
    + destruct (String.eqb_spec k0 k'); [reflexivity|exact IH].
Qed.

Lemma put_get_id (o : object) (k : string) (v : value) :
  get o k = Some v -> put o k v = o.
Proof.
  induction o as [|[k0 v0] o IH]; simpl; [discriminate|].
  destruct (String.eqb_spec k0 k) as [->|Hk].
  - now intros [= ->].
  - intros H. now rewrite IH.
Qed.

Lemma get_delete_other (o : object) (k k' : string) :
  k <> k' -> get (delete o k) k' = get o k'.
Proof.
  intros Hne. induction o as [|[k0 v0] o IH]; simpl; [reflexivity|].
  destruct (String.eqb_spec k0 k) as [->|Hk]; simpl.
  - destruct (String.eqb_spec k k'); [contradiction|exact IH].
  - destruct (String.eqb_spec k0 k'); [reflexivity|exact IH].
Qed.

Lemma get_none_not_in (o : object) (k : string) :
  ~ In k (keys o) -> get o k = None.
Proof.
  induction o as [|[k0 v0] o IH]; simpl; [reflexivity|].
  intros Hn. destruct (String.eqb_spec k0 k) as [->|Hk].
  - exfalso. apply Hn. now left.
  - apply IH. intros Hin. apply Hn. now right.
Qed.

Lemma put_not_in (o : object) (k : string) (v : value) :
  ~ In k (keys o) -> put o k v = (o ++ [(k, v)])%list.
Proof.
  induction o as [|[k0 v0] o IH]; simpl; [reflexivity|].
  intros Hn. destruct (String.eqb_spec k0 k) as [->|Hk].
  - exfalso. apply Hn. now left.
  - rewrite IH; [reflexivity|]. intros Hin. apply Hn. now right.
Qed.

Lemma with_params_same (s : state) : with_params (params s) s = s.
Proof. now destruct s. Qed.

(** ** PaginationWindower *)

(** C2, as the code computes it: no pages give the empty sequence and five
    pages give 1..5 whatever the current page is; with twenty pages the
    window holds nine page numbers, so page 1 gives 1..9, the ellipsis and
    20, and page 20 gives 1, the ellipsis and 12..20. *)
Theorem pages_examples :
  (forall pagenum, pages 0 pagenum = [])
  /\ (forall pagenum, pages 5 pagenum = map Page [1; 2; 3; 4; 5])
  /\ pages 20 1 = (map Page [1; 2; 3; 4; 5; 6; 7; 8; 9] ++ [Hellip; Page 20])%list
  /\ pages 20 20
     = ([Page 1; Hellip] ++ map Page [12; 13; 14; 15; 16; 17; 18; 19; 20])%list.
Proof. repeat split. Qed.

(** The window the claim gives for page 1 of 20 is not the one computed. *)
Lemma pages_first_of_twenty_is_not_five_wide :
  pages 20 1 <> (map Page [1; 2; 3; 4; 5] ++ [Hellip; Page 20])%list.
Proof. vm_compute. discriminate. Qed.

(** X7. With more than ten pages and the current page within them, the
    sequence starts at page 1, ends at the last page and holds nine
    consecutive page numbers around the current one. *)
Lemma pages_window (total_pages pagenum : Z) :
  10 < total_pages -> 1 <= pagenum <= total_pages ->
  exists start_page,
    1 <= start_page /\ start_page + 8 <= total_pages
    /\ start_page <= pagenum <= start_page + 8
    /\ hd_error (pages total_pages pagenum) = Some (Page 1)
    /\ last (pages total_pages pagenum) Hellip = Page total_pages
    /\ incl (map Page (range start_page (start_page + 9)))
            (pages total_pages pagenum).
Proof.
  intros Ht Hp. unfold pages.
  destruct (Z.eqb_spec total_pages 0); [lia|].
  destruct (Z.leb_spec total_pages 10); [lia|].
  destruct (Z.geb_spec 4 pagenum) as [H4|H4].
  - exists 1. replace (pagenum - (pagenum - 1)) with 1 by lia.
    replace (pagenum + (4 + (4 - (pagenum - 1))) + 1) with 10 by lia.
    simpl (1 =? 1). cbv iota.
    repeat split; try lia.
    apply incl_appl, incl_refl.
  - destruct (Z.gtb_spec (pagenum + 4) total_pages) as [Hov|Hov].
    + exists (total_pages - 8).
      replace (pagenum - (4 + (4 - (total_pages - pagenum)))) with (total_pages - 8) by lia.
      replace (pagenum + (total_pages - pagenum) + 1) with (total_pages - 8 + 9) by lia.
      replace (pagenum + (total_pages - pagenum)) with total_pages by lia.
      destruct (Z.eqb_spec (total_pages - 8) 1); [lia|].
      rewrite Z.eqb_refl.
      repeat split; try lia.
      * unfold range. destruct (Z.ltb_spec (total_pages - 8) (total_pages - 8 + 9)); [|lia].
        replace (total_pages - 8 + 9 - (total_pages - 8)) with 9 by lia.
        simpl. f_equal. lia.
      * apply incl_appr, incl_refl.
    + exists (pagenum - 4).
      replace (pagenum + 4 + 1) with (pagenum - 4 + 9) by lia.
      destruct (Z.eqb_spec (pagenum - 4) 1) as [Hstart|Hstart].
      { repeat split; try lia.
        - rewrite Hstart. reflexivity.
        - change [Hellip; Page total_pages] with ([Hellip] ++ [Page total_pages])%list.
          now rewrite app_assoc, last_last.
        - apply incl_appl, incl_refl. }
      destruct (Z.eqb_spec (pagenum + 4) total_pages) as [Hend|Hend].
      { repeat split; try lia.
        - unfold range. destruct (Z.ltb_spec (pagenum - 4) (pagenum - 4 + 9)); [|lia].
          replace (pagenum - 4 + 9 - (pagenum - 4)) with 9 by lia.
          simpl. f_equal. lia.
        - apply incl_appr, incl_refl. }
      repeat split; try lia.
      * now destruct (negb (pagenum + 4 =? total_pages - 1)).
      * now rewrite last_last.
      * apply incl_appl.
        destruct (negb (pagenum + 4 =? total_pages - 1)).
        -- apply incl_appl. apply incl_tl.
           destruct (negb (pagenum - 4 =? 2)); [apply incl_tl|]; apply incl_refl.
        -- apply incl_tl.
           destruct (negb (pagenum - 4 =? 2)); [apply incl_tl|]; apply incl_refl.
Qed.

(** ** Taxonomy terms: [addTerms] *)

Lemma is_num_In (t : Z) (items : list value) :
  existsb (is_num t) items = true <-> In (VNum t) items.
Proof.
  rewrite existsb_exists. split.
  - intros [x [Hin Hx]]. destruct x; try discriminate.
    simpl in Hx. apply Z.eqb_eq in Hx. now subst.
  - intros Hin. exists (VNum t). split; [exact Hin|]. simpl. apply Z.eqb_refl.
Qed.

Lemma fold_add_term (ts : list Z) (items : list value) :
  fold_left (fun acc t => cur <- acc ;; add_term cur t) ts (Ok (Some (VArr items)))
  = Ok (Some (VArr (items ++ map VNum (new_terms items ts))%list)).
Proof.
  revert items. induction ts as [|t ts IH]; intros items; simpl.
  - now rewrite List.app_nil_r.
  - destruct (existsb (is_num t) items) eqn:E; simpl.
    + apply IH.
    + rewrite IH. now rewrite <- List.app_assoc.
Qed.

Lemma new_terms_spec (ts : list Z) (items : list value) (t : Z) :
  In t (new_terms items ts) <-> In t ts /\ ~ In (VNum t) items.
Proof.
  revert items. induction ts as [|t0 ts IH]; intros items; simpl.
  - tauto.
  - destruct (existsb (is_num t0) items) eqn:E.
    + apply is_num_In in E. rewrite IH. split.
      * tauto.
      * intros [[->|Hin] Hn]; [contradiction|tauto].
    + assert (Hn0 : ~ In (VNum t0) items).
      { intros Hin. apply is_num_In in Hin. congruence. }
      simpl. rewrite IH. rewrite in_app_iff. simpl. split.
      * intros [->|[Hin Hn]]; [tauto|]. split; [tauto|]. intros H. apply Hn. now left.
      * intros [[->|Hin] Hn]; [now left|].
        destruct (Z.eq_dec t0 t) as [->|Hne]; [now left|right].
        split; [exact Hin|]. intros [H|[[= H]|[]]]; [contradiction|congruence].
Qed.

Lemma new_terms_NoDup (ts : list Z) (items : list value) :
  NoDup items -> NoDup (items ++ map VNum (new_terms items ts))%list.
Proof.
  revert items. induction ts as [|t ts IH]; intros items Hnd; simpl.
  - now rewrite List.app_nil_r.
  - destruct (existsb (is_num t) items) eqn:E.
    + now apply IH.
    + assert (Hn : ~ In (VNum t) items).
      { intros Hin. apply is_num_In in Hin. congruence. }
      simpl. change (VNum t :: map VNum (new_terms (items ++ [VNum t]) ts))%list
        with ([VNum t] ++ map VNum (new_terms (items ++ [VNum t]) ts))%list.
      rewrite List.app_assoc. apply IH.
      apply NoDup_app; [exact Hnd|repeat constructor; intros []|].
      intros x Hx [<-|[]]. contradiction.
Qed.

Lemma fold_add_term_present (ts : list Z) (items : list value) :
  (forall t, In t ts -> In (VNum t) items) ->
  fold_left (fun acc t => cur <- acc ;; add_term cur t) ts (Ok (Some (VArr items)))
  = Ok (Some (VArr items)).
Proof.
  induction ts as [|t ts IH]; intros Hall; simpl; [reflexivity|].
  assert (E : existsb (is_num t) items = true).
  { apply is_num_In, Hall. now left. }
  rewrite E. apply IH. intros t' Hin. apply Hall. now right.
Qed.

(** C10: on a taxonomy whose list holds no duplicate, [addTerms] appends
    exactly the given IDs that the list does not hold yet, each once, so the
    list still holds no duplicate; a second call with the same terms changes
    nothing. *)
Theorem addTerms_appends_new_terms_once
    (taxonomy : string) (terms : terms_arg) (s : state) (items : list value) :
  get (params s) taxonomy = Some (VArr items) ->
  NoDup items ->
  exists (added : list Z) (s' : state),
    addTerms taxonomy terms s = Ok s'
    /\ get (params s') taxonomy = Some (VArr (items ++ map VNum added)%list)
    /\ (forall t, In t added <-> In t (as_array terms) /\ ~ In (VNum t) items)
    /\ NoDup added
    /\ NoDup (items ++ map VNum added)%list
    /\ addTerms taxonomy terms s' = Ok s'.
Proof.
  intros Hget Hnd.
  exists (new_terms items (as_array terms)).
  eexists. unfold addTerms at 1. rewrite Hget, fold_add_term. simpl.
  split; [reflexivity|].
  pose proof (new_terms_NoDup (as_array terms) items Hnd) as Hnd'.
  split; [apply get_put_same|].
  split; [apply new_terms_spec|].
  split.
  { apply NoDup_app_remove_l in Hnd'. eapply NoDup_map_inv, Hnd'. }
  split; [exact Hnd'|].
  unfold addTerms. simpl. rewrite get_put_same.
  rewrite fold_add_term_present.
  - simpl. rewrite put_get_id by apply get_put_same.
    reflexivity.
  - intros t Hin. apply in_app_iff.
    destruct (existsb (is_num t) items) eqn:E.
    + left. now apply is_num_In.
    + right. apply in_map, new_terms_spec. split; [exact Hin|].
      intros Hi. apply is_num_In in Hi. congruence.
Qed.

(** C10 on the example: the category list holds 3 and 5, and 5, 7, 7 and 9
    are added. *)
Lemma addTerms_example :
  let s := with_params (put (params example_state) "category"
                          (VArr [VNum 3; VNum 5])) example_state in
  (get (params s) "category" = Some (VArr [VNum 3; VNum 5])
   /\ NoDup [VNum 3; VNum 5])
  /\ exists added s',
       addTerms "category" (ManyTerms [5; 7; 7; 9]) s = Ok s'
       /\ get (params s') "category"
          = Some (VArr ([VNum 3; VNum 5] ++ map VNum added)%list)
       /\ (forall t, In t added
                     <-> In t [5; 7; 7; 9] /\ ~ In (VNum t) [VNum 3; VNum 5])
       /\ NoDup added
       /\ NoDup ([VNum 3; VNum 5] ++ map VNum added)%list
       /\ addTerms "category" (ManyTerms [5; 7; 7; 9]) s' = Ok s'.
Proof.
  assert (Hnd : NoDup [VNum 3; VNum 5]).
  { repeat constructor; simpl; intros H; repeat destruct H as [H|H];
      try discriminate; exact H. }
  split; [split; [reflexivity|exact Hnd]|].
  exact (addTerms_appends_new_terms_once "category" (ManyTerms [5; 7; 7; 9])
           (with_params (put (params example_state) "category"
                           (VArr [VNum 3; VNum 5])) example_state)
           [VNum 3; VNum 5] eq_refl Hnd).
Defined.

(** ** QueryBuilder *)

Ltac get_put :=
  repeat (rewrite get_put_same
          || rewrite get_put_other by discriminate
          || rewrite get_delete_other by discriminate).

Section QueryBuilder.

Variable cfg : props.

(** The request before the order and the meta query are processed. *)
Lemma renamed_page_get (p : object) (k : string) :
  k <> "page" -> k <> "pagenum" ->
  get (match get p "pagenum" with
       | Some pagenum =>
           if truthy pagenum then delete (put p "page" pagenum) "pagenum" else p
       | None => p
       end) k = get p k.
Proof.
  intros H1 H2. destruct (get p "pagenum") as [pn|]; [|reflexivity].
  destruct (truthy pn); [|reflexivity].
  rewrite get_delete_other by congruence. apply get_put_other. congruence.
Qed.

(** Evaluating [query_params] changes nothing of [this.params] but what
    is under [meta_query]. *)
Lemma query_params_frame (p q p' : object) :
  query_params cfg p = Ok (q, p') ->
  p' = p \/ exists mq, p' = put p "meta_query" mq.
Proof.
  unfold query_params.
  match goal with |- context [bind ?r _] => destruct r as [q0|e] end; simpl;
    [|discriminate].
  destruct (get q0 "meta_query") as [mq|]; [|discriminate].
  destruct mq; try discriminate;
    match goal with
    | |- context [has_own_keys ?v] => destruct (has_own_keys v)
    end; simpl; try discriminate;
    try (intros [= _ <-]; now left).
  - intros [= _ <-]. right. eauto.
  - intros [= _ <-]. right. eauto.
Qed.

Lemma query_params_keeps (p q p' : object) (k : string) :
  query_params cfg p = Ok (q, p') -> k <> "meta_query" -> get p' k = get p k.
Proof.
  intros H Hk. destruct (query_params_frame _ _ _ H) as [->|[mq ->]];
    [reflexivity|].
  apply get_put_other. congruence.
Qed.

(** With no key under [meta_query], evaluating [query_params] leaves
    [this.params] as it is. *)
Lemma query_params_pure_without_filters (p q p' : object) :
  get p "meta_query" = Some (VObj []) ->
  query_params cfg p = Ok (q, p') -> p' = p.
Proof.
  intros Hmq. unfold query_params.
  match goal with |- context [bind ?r _] => destruct r as [q0|e] eqn:E end; simpl;
    [|discriminate].
  assert (Hq0 : get q0 "meta_query" = Some (VObj [])).
  { rewrite <- Hmq.
    destruct (read_is_str "number" _); [injection E as <-|].
    2: destruct (read_truthy _); [injection E as <-|].
    3: destruct (not_a_valid_orderby _); [discriminate|injection E as <-].
    1, 2: destruct (get p "orderby"); get_put.
    all: apply renamed_page_get; discriminate. }
  rewrite Hq0. simpl. now intros [= _ <-].
Qed.

(** C8, as the code decides it: for [params] whose [orderby] is a string
    and whose [meta_query] is an object, a meta field of type "number"
    gives [meta_value_num], a meta field of any other truthy type gives
    [meta_value], both with [meta_key] set to the original [orderby]; when
    [meta_fields[orderby]] is falsy (no such field, or a field whose type is
    falsy, and no member inherited from [Object.prototype]) and [orderby] is
    not one of the nine valid names, the message is thrown. *)
Theorem query_params_orderby (p mq : object) (orderby : string) :
  get p "orderby" = Some (VStr orderby) ->
  get p "meta_query" = Some (VObj mq) ->
  (get (meta_fields cfg) orderby = Some (VStr "number") ->
   exists q p', query_params cfg p = Ok (q, p')
     /\ get q "orderby" = Some (VStr "meta_value_num")
     /\ get q "meta_key" = Some (VStr orderby))
  /\ (forall type, get (meta_fields cfg) orderby = Some type ->
        type <> VStr "number" -> truthy type = true ->
        exists q p', query_params cfg p = Ok (q, p')
          /\ get q "orderby" = Some (VStr "meta_value")
          /\ get q "meta_key" = Some (VStr orderby))
  /\ (read_truthy (read (meta_fields cfg) orderby) = false ->
      ~ In orderby valid_orderbys ->
      query_params cfg p = Throw orderby_error).
Proof.
  intros Ho Hmq.
  assert (Hfin : forall q0 : object,
             get q0 "meta_query" = Some (VObj mq) ->
             forall k v, k <> "meta_query" -> get q0 k = Some v ->
             exists q p',
               match get q0 "meta_query" with
               | None | Some VNull => Throw TypeError
               | Some meta_query =>
                   if has_own_keys meta_query then
                     meta_query' <- set_relation meta_query ;;
                     Ok (put q0 "meta_query" meta_query',
                         put p "meta_query" meta_query')
                   else Ok (q0, p)
               end = Ok (q, p') /\ get q k = Some v).
  { intros q0 Hq0 k v Hk Hv. rewrite Hq0.
    destruct (has_own_keys (VObj mq)); simpl; do 2 eexists; split;
      try reflexivity; [|exact Hv].
    rewrite get_put_other by congruence. exact Hv. }
  unfold query_params. rewrite Ho. simpl to_property_key.
  repeat split.
  - intros Hmf. unfold read. rewrite Hmf. simpl.
    match goal with |- context [put (put ?a _ _) _ _] => set (q0 := a) end.
    assert (Hq0 : get q0 "meta_query" = Some (VObj mq)).
    { subst q0. rewrite renamed_page_get by discriminate. exact Hmq. }
    rewrite get_put_other by discriminate.
    rewrite get_put_other by discriminate. rewrite Hq0.
    destruct (has_own_keys (VObj mq)); simpl; do 2 eexists;
      (split; [reflexivity|]); split; now get_put.
  - intros type Hmf Hnum Htruthy. unfold read. rewrite Hmf.
    assert (E : read_is_str "number" (Own type) = false).
    { destruct type; try reflexivity. simpl.
      apply String.eqb_neq. congruence. }
    rewrite E. simpl read_truthy. rewrite Htruthy. simpl.
    match goal with |- context [put (put ?a _ _) _ _] => set (q0 := a) end.
    assert (Hq0 : get q0 "meta_query" = Some (VObj mq)).
    { subst q0. rewrite renamed_page_get by discriminate. exact Hmq. }
    rewrite get_put_other by discriminate.
    rewrite get_put_other by discriminate. rewrite Hq0.
    destruct (has_own_keys (VObj mq)); simpl; do 2 eexists;
      (split; [reflexivity|]); split; now get_put.
  - intros Hfalsy Hinvalid.
    assert (E : read_is_str "number" (read (meta_fields cfg) orderby) = false).
    { destruct (read (meta_fields cfg) orderby) as [[]| |]; try reflexivity;
        try discriminate.
      simpl in *. destruct (String.eqb_spec s "number") as [->|]; [|reflexivity].
      discriminate. }
    rewrite E, Hfalsy.
    assert (Hn : not_a_valid_orderby (Some (VStr orderby)) = true).
    { unfold not_a_valid_orderby. apply negb_true_iff. apply not_true_is_false.
      intros Hex. apply existsb_exists in Hex as [x [Hin Hx]].
      apply String.eqb_eq in Hx. subst. contradiction. }
    now rewrite Hn.
Qed.

End QueryBuilder.

(** C8 on the example configuration, ordered by the numeric field price. *)
Lemma query_params_orderby_example :
  let p := put (params example_state) "orderby" (VStr "price") in
  (get p "orderby" = Some (VStr "price") /\ get p "meta_query" = Some (VObj []))
  /\ exists q p',
       query_params example_props p = Ok (q, p')
       /\ get q "orderby" = Some (VStr "meta_value_num")
       /\ get q "meta_key" = Some (VStr "price").
Proof.
  split; [split; reflexivity|].
  destruct (query_params_orderby example_props
              (put (params example_state) "orderby" (VStr "price")) []
              "price" eq_refl eq_refl) as [Hnum _].
  exact (Hnum eq_refl).
Defined.

(** A meta field configured with the empty type is named by [orderby],
    yet the derivation throws. *)
Lemma query_params_falsy_type_throws :
  get (meta_fields example_props) "rating" = Some (VStr "")
  /\ VStr "" <> VStr "number"
  /\ query_params example_props
       (put (params example_state) "orderby" (VStr "rating"))
     = Throw orderby_error.
Proof. repeat split. discriminate. Qed.

(** An [orderby] that names a member of [Object.prototype] is neither a
    configured meta field nor a valid name, yet no message is thrown. *)
Example query_params_inherited_member :
  exists p',
    query_params example_props
      (put (params example_state) "orderby" (VStr "constructor"))
    = Ok ([ ("per_page", VNum 10); ("search", VStr ""); ("order", VStr "desc");
            ("orderby", VStr "meta_value"); ("meta_query", VObj []);
            ("ver", VNum 1); ("category", VArr []); ("page", VNum 1);
            ("meta_key", VStr "constructor") ], p').
Proof. eexists. reflexivity. Qed.

(** The failing input of C6 is the example state after
    [setMetaFilter('color', 'red')]. *)
Example example_filtered_by_setMetaFilter :
  setMetaFilter "color" (VStr "red") example_state
  = Ok (with_params example_filtered example_state).
Proof. reflexivity. Qed.

(** C6 at the failing input: with one filter set, evaluating
    [query_params] writes [relation] into the [meta_query] of [this.params]. *)
Theorem query_params_writes_into_params :
  exists q p',
    query_params example_props example_filtered = Ok (q, p')
    /\ p' <> example_filtered
    /\ get p' "meta_query"
       = Some (VObj [("color", VObj [("field", VStr "color"); ("value", VStr "red")]);
                     ("relation", VStr "AND")]).
Proof.
  do 2 eexists. split; [reflexivity|]. split; [discriminate|reflexivity].
Qed.

(** ** lodash [merge] *)

Lemma merge_members_get_other (merge_at : option value -> value -> value)
    (ps : list (string * value)) (acc : object) (k : string) :
  ~ In k (keys ps) ->
  get ((fix go (ps : list (string * value)) (acc : object) {struct ps} : object :=
          match ps with
          | [] => acc
          | (k, v) :: ps' => go ps' (put acc k (merge_at (get acc k) v))
          end) ps acc) k = get acc k.
Proof.
  revert acc. induction ps as [|[k0 v0] ps IH]; intros acc Hn; [reflexivity|].
  rewrite IH.
  - apply get_put_other. intros ->. apply Hn. now left.
  - intros Hin. apply Hn. now right.
Qed.

(** A key that the source does not have keeps what the destination holds. *)
Lemma merge_get_other (dst src : object) (k : string) :
  ~ In k (keys src) -> get (merge dst src) k = get dst k.
Proof.
  intros Hn. unfold merge. simpl.
  now apply merge_members_get_other.
Qed.

(** Merged into an empty object, [initialParams()] keeps every field; the
    object under [meta_query] is copied. *)
Lemma initialParams_merged_get (cfg : props) (k : string) :
  k <> "meta_query" ->
  get (merge [] (initialParams cfg)) k = get (initialParams cfg) k.
Proof.
  intros Hk.
  change (merge [] (initialParams cfg))
    with [ ("per_page", VNum (per_page cfg));
           ("search", VStr (initial_search cfg));
           ("order", VStr (initial_order cfg));
           ("orderby", VStr (initial_orderby cfg));
           ("pagenum", VNum (initial_page cfg));
           ("meta_query", merge_value None (VObj (initial_meta_query cfg)));
           ("ver", VNum (ver cfg)) ].
  unfold initialParams. cbn [get].
  repeat match goal with
         | |- context [(?a =? k)%string] =>
             destruct (String.eqb_spec a k); [subst; try reflexivity|]
         end; try reflexivity.
  contradiction.
Qed.

(** ** The watcher, the fetch and the history *)

Section Reactions.

Variable cfg : props.
Variables pathname origin : string.


Ltac fetch_cases s :=
  unfold fetch_start, constructURL; simpl;
  destruct (query_params cfg (params s)) as [[? ?]|?] eqn:?; simpl.

Lemma fetch_start_params (s : state) (k : string) :
  k <> "meta_query" ->
  get (params (fst (fetch_start cfg origin s))) k = get (params s) k.
Proof.
  intros Hk. fetch_cases s; [|reflexivity].
  eapply query_params_keeps; eassumption.
Qed.

Lemma fetch_start_flags (s : state) :
  page_updated (fst (fetch_start cfg origin s)) = page_updated s
  /\ suppress_history_state (fst (fetch_start cfg origin s)) = suppress_history_state s
  /\ history_entries (fst (fetch_start cfg origin s)) = history_entries s
  /\ wp_data (fst (fetch_start cfg origin s)) = wp_data s
  /\ pagination_data (fst (fetch_start cfg origin s)) = pagination_data s.
Proof. fetch_cases s; repeat split. Qed.

(** C5, as the code runs: when the request cannot be built the error is
    recorded and results and pagination are left as they were; so they are
    when the network call or the reading of the body fails; a response
    replaces the results, sets the pagination from the two headers read by
    [parseInt] and ends the loading, and the error recorded before stays as
    it is. *)
Theorem fetchData_outcomes (o : fetch_outcome) (s : state) :
  match query_params cfg (params s) with
  | Throw e =>
      error (fetchData cfg origin o s) = Some (ErrorOf e)
      /\ wp_data (fetchData cfg origin o s) = wp_data s
      /\ pagination_data (fetchData cfg origin o s) = pagination_data s
      /\ loading (fetchData cfg origin o s) = false
  | Ok _ =>
      match o with
      | Responded body x_wp_total x_wp_totalpages =>
          wp_data (fetchData cfg origin o s) = body
          /\ pagination_data (fetchData cfg origin o s)
             = {| total := parseInt x_wp_total;
                  total_pages := parseInt x_wp_totalpages |}
          /\ loading (fetchData cfg origin o s) = false
          /\ error (fetchData cfg origin o s) = error s
      | FetchRejected e | BodyRejected e =>
          error (fetchData cfg origin o s) = Some e
          /\ wp_data (fetchData cfg origin o s) = wp_data s
          /\ pagination_data (fetchData cfg origin o s) = pagination_data s
          /\ loading (fetchData cfg origin o s) = false
      end
  end.
Proof.
  unfold fetchData, fetch_start, constructURL. simpl.
  destruct (query_params cfg (params s)) as [[q p']|e]; simpl.
  - destruct o; simpl; repeat split.
    all: destruct (is_initial_load s); reflexivity.
  - repeat split.
Qed.

(** Every public method acts on [params] only, [selectPage] also raising
    the page flag. *)
Lemma perform_frame (c : call) (s s' : state) :
  perform cfg c s = Ok s' ->
  exists p,
    s' = with_params p
           (match c with SelectPage _ => with_page_updated true s | _ => s end).
Proof.
  destruct c; simpl.
  - intros [= <-]. eexists. reflexivity.
  - intros [= <-]. eexists. reflexivity.
  - intros [= <-]. eexists. reflexivity.
  - unfold addTerms. destruct (fold_left _ _ _); simpl; [|discriminate].
    intros [= <-]. eexists. reflexivity.
  - unfold removeTerms. destruct (fold_left _ _ _); simpl; [|discriminate].
    intros [= <-]. eexists. reflexivity.
  - intros [= <-]. eexists. reflexivity.
  - unfold setOrder. destruct (_ && _); [discriminate|].
    intros [= <-]. eexists. reflexivity.
  - intros [= <-]. eexists. reflexivity.
  - unfold selectOrderBy, toggleOrder, setOrder, setOrderBy.
    destruct (is_str orderby _); [destruct (is_str "asc" _)|]; simpl;
      try (intros [= <-]; eexists; reflexivity).
    destruct (_ && _); simpl; [discriminate|].
    intros [= <-]. eexists. reflexivity.
  - unfold toggleOrder, setOrder. destruct (is_str "asc" _); simpl;
      intros [= <-]; eexists; reflexivity.
  - unfold setMetaFilter. destruct (get (params s) "meta_query") as [[]|];
      try discriminate; intros [= <-].
    + exists (params s). now rewrite with_params_same.
    + eexists. reflexivity.
  - unfold removeMetaFilter. destruct (get (params s) "meta_query") as [[]|];
      try discriminate; intros [= <-];
      try (exists (params s); now rewrite with_params_same).
    eexists. reflexivity.
  - discriminate.
  - intros [= <-]. eexists. reflexivity.
Qed.

Lemma call_keeps_history (c : call) (s : state) :
  suppress_history_state (step cfg pathname origin (Call c) s) = suppress_history_state s
  /\ history_entries (step cfg pathname origin (Call c) s) = history_entries s.
Proof.
  simpl. destruct (perform cfg c s) as [s'|e] eqn:E; [|now split].
  apply perform_frame in E as [p ->]. now destruct c.
Qed.

Lemma call_keeps_page_flag (c : call) (s : state) :
  (forall page, c <> SelectPage page) ->
  page_updated (step cfg pathname origin (Call c) s) = page_updated s.
Proof.
  intros Hc. simpl. destruct (perform cfg c s) as [s'|e] eqn:E; [|reflexivity].
  apply perform_frame in E as [p ->].
  destruct c; try reflexivity. now destruct (Hc page).
Qed.

Lemma handler_history (s : state) :
  history_entries (handler cfg pathname origin s)
  = if suppress_history_state s then history_entries s
    else (history_entries s
          ++ [((pathname ++ "?" ++ serializeParams (params (handler cfg pathname origin s)))%string,
               params (handler cfg pathname origin s))])%list.
Proof.
  unfold handler. simpl.
  set (s1 := if negb (page_updated s) then _ else s).
  assert (Hs1 : suppress_history_state s1 = suppress_history_state s
                /\ history_entries s1 = history_entries s).
  { subst s1. now destruct (page_updated s). }
  destruct Hs1 as [Hsup Hhist].
  destruct (fetch_start_flags s1) as (_ & Hf & Hh & _).
  rewrite Hf, Hsup. destruct (suppress_history_state s); simpl.
  - now rewrite Hh.
  - now rewrite Hh, Hhist.
Qed.

Lemma handler_flags (s : state) :
  suppress_history_state (handler cfg pathname origin s) = false /\ page_updated (handler cfg pathname origin s) = false.
Proof.
  unfold handler. simpl.
  destruct (negb (suppress_history_state _)); now split.
Qed.

Lemma handler_params (s : state) (k : string) :
  k <> "meta_query" ->
  get (params (handler cfg pathname origin s)) k
  = if page_updated s then get (params s) k
    else get (put (params s) "pagenum" (VNum 1)) k.
Proof.
  intros Hk. unfold handler.
  set (s1 := if negb (page_updated s) then _ else s).
  assert (Hp : get (params s1) k
               = if page_updated s then get (params s) k
                 else get (put (params s) "pagenum" (VNum 1)) k).
  { subst s1. now destruct (page_updated s). }
  rewrite <- Hp, <- (fetch_start_params s1 k Hk). simpl.
  now destruct (negb (suppress_history_state _)).
Qed.

(** C4: creation and a pop raise the suppression flag and push nothing; a
    reaction pushes nothing when the flag is raised and otherwise pushes one
    entry made of the path, a question mark and the serialized [params],
    with [params] as its state; every reaction leaves the flag cleared, and
    neither a method call nor the end of a network call touches the flag or
    the history.  So the reaction after a pop pushes nothing and the one
    after it pushes. *)
Theorem history_push_suppression (s : state) :
  (forall location_search,
      match created cfg location_search with
      | Ok s0 => suppress_history_state s0 = true /\ history_entries s0 = []
      | Throw _ => True
      end)
  /\ (forall snapshot,
        suppress_history_state (on_pop cfg snapshot s) = true
        /\ history_entries (on_pop cfg snapshot s) = history_entries s)
  /\ history_entries (handler cfg pathname origin s)
     = (if suppress_history_state s then history_entries s
        else (history_entries s
              ++ [((pathname ++ "?" ++ serializeParams (params (handler cfg pathname origin s)))%string,
                   params (handler cfg pathname origin s))])%list)
  /\ suppress_history_state (handler cfg pathname origin s) = false
  /\ (forall c,
        suppress_history_state (step cfg pathname origin (Call c) s) = suppress_history_state s
        /\ history_entries (step cfg pathname origin (Call c) s) = history_entries s)
  /\ (forall o,
        suppress_history_state (step cfg pathname origin (Settle o) s) = suppress_history_state s
        /\ history_entries (step cfg pathname origin (Settle o) s) = history_entries s)
  /\ (forall snapshot,
        let s1 := handler cfg pathname origin (on_pop cfg snapshot s) in
        let s2 := handler cfg pathname origin s1 in
        history_entries s1 = history_entries s
        /\ history_entries s2
           = (history_entries s
              ++ [((pathname ++ "?" ++ serializeParams (params s2))%string, params s2)])%list).
Proof.
  split.
  { intros location_search. unfold created.
    destruct (location_search =? "")%string; [now split|].
    destruct (unserializeParams location_search); simpl; [now split|exact I]. }
  split.
  { intros [snap|]; now split. }
  split; [apply handler_history|].
  split; [apply handler_flags|].
  split; [intros c; apply call_keeps_history|].
  split.
  { intros o. simpl. destruct o; simpl; try now split.
    destruct (is_initial_load s); now split. }
  intros snapshot s1 s2.
  assert (H1 : history_entries s1 = history_entries s).
  { subst s1. rewrite handler_history. now destruct snapshot. }
  split; [exact H1|].
  subst s2. rewrite handler_history.
  assert (Hflag : suppress_history_state s1 = false) by apply handler_flags.
  now rewrite Hflag, H1.
Qed.

(** *** The page-reset policy *)

Lemma pagenum_ok_put_other (p : object) (k : string) (v : value) :
  k <> "pagenum" -> pagenum_ok p -> pagenum_ok (put p k v).
Proof.
  intros Hk [n [Hn Hle]]. exists n. split; [|exact Hle].
  now rewrite get_put_other.
Qed.

Lemma pagenum_ok_assign_other (p : object) (k : string) (v : value) :
  k <> "pagenum" -> pagenum_ok p -> pagenum_ok (assign p k v).
Proof.
  intros Hk Hp. unfold assign. destruct (k =? "__proto__")%string;
    [exact Hp|now apply pagenum_ok_put_other].
Qed.

(** The loops of [addTerms] and [removeTerms] throw on a number. *)
Lemma fold_terms_on_number
    (f : option value -> Z -> result (option value)) (ts : list Z) (n : Z)
    (final : option value) :
  (forall t, f (Some (VNum n)) t = Throw TypeError) ->
  fold_left (fun acc t => cur <- acc ;; f cur t) ts (Ok (Some (VNum n))) = Ok final ->
  final = Some (VNum n).
Proof.
  intros Hf. destruct ts as [|t ts]; simpl.
  - now intros [= <-].
  - rewrite Hf.
    assert (Hthrow : forall l e,
               fold_left (fun acc t => cur <- acc ;; f cur t) l (Throw e) = Throw e).
    { induction l as [|t' l IH]; intros e; [reflexivity|apply IH]. }
    rewrite Hthrow. discriminate.
Qed.

Lemma pagenum_ok_store (p : object) (taxonomy : string)
    (f : option value -> Z -> result (option value)) (ts : list Z)
    (final : option value) :
  (forall n t, f (Some (VNum n)) t = Throw TypeError) ->
  fold_left (fun acc t => cur <- acc ;; f cur t) ts (Ok (get p taxonomy)) = Ok final ->
  pagenum_ok p -> pagenum_ok (store taxonomy final p).
Proof.
  intros Hf Hfold Hp. destruct (String.eqb_spec taxonomy "pagenum") as [->|Hne].
  - destruct Hp as [n [Hn Hle]]. rewrite Hn in Hfold.
    apply fold_terms_on_number in Hfold; [|apply Hf]. subst final. simpl.
    exists n. split; [apply get_put_same|exact Hle].
  - destruct final as [v|]; simpl; [now apply pagenum_ok_put_other|exact Hp].
Qed.

Lemma reset_pagenum_ok (s : state) :
  1 <= initial_page cfg ->
  ~ In "pagenum" (keys (initial_taxonomies cfg)) ->
  pagenum_ok (params (reset cfg s)).
Proof.
  intros Hle Hn. exists (initial_page cfg). split; [|exact Hle].
  unfold reset. simpl params. rewrite merge_get_other by exact Hn.
  now rewrite initialParams_merged_get.
Qed.

Lemma perform_pagenum (c : call) (s s' : state) :
  perform cfg c s = Ok s' ->
  keeps_page_valid cfg (Call c) ->
  pagenum_ok (params s) -> pagenum_ok (params s').
Proof.
  destruct c; simpl; intros Hcall Hsafe Hp.
  - injection Hcall as <-. simpl. exists page. split; [apply get_put_same|exact Hsafe].
  - injection Hcall as <-. simpl. now apply pagenum_ok_put_other.
  - injection Hcall as <-. simpl. now apply pagenum_ok_assign_other.
  - unfold addTerms in Hcall.
    destruct (fold_left _ _ _) as [final|] eqn:E; simpl in Hcall; [|discriminate].
    injection Hcall as <-. simpl. eapply pagenum_ok_store; [|exact E|exact Hp].
    reflexivity.
  - unfold removeTerms in Hcall.
    destruct (fold_left _ _ _) as [final|] eqn:E; simpl in Hcall; [|discriminate].
    injection Hcall as <-. simpl. eapply pagenum_ok_store; [|exact E|exact Hp].
    reflexivity.
  - injection Hcall as <-. simpl. now apply pagenum_ok_assign_other.
  - unfold setOrder in Hcall. destruct (_ && _); [discriminate|].
    injection Hcall as <-. simpl. now apply pagenum_ok_put_other.
  - injection Hcall as <-. simpl. now apply pagenum_ok_put_other.
  - unfold selectOrderBy, toggleOrder, setOrder, setOrderBy in Hcall.
    destruct (is_str orderby _); [destruct (is_str "asc" _)|]; simpl in Hcall.
    3: destruct (_ && _); simpl in Hcall; [discriminate|].
    all: injection Hcall as <-; simpl.
    all: apply pagenum_ok_put_other; [discriminate|].
    all: now apply pagenum_ok_put_other.
  - unfold toggleOrder, setOrder in Hcall. destruct (is_str "asc" _);
      simpl in Hcall; injection Hcall as <-; simpl;
      now apply pagenum_ok_put_other.
  - unfold setMetaFilter in Hcall.
    destruct (get (params s) "meta_query") as [[]|]; try discriminate;
      injection Hcall as <-; [exact Hp|]. simpl. now apply pagenum_ok_put_other.
  - unfold removeMetaFilter in Hcall.
    destruct (get (params s) "meta_query") as [[]|]; try discriminate;
      injection Hcall as <-; try exact Hp. simpl. now apply pagenum_ok_put_other.
  - discriminate.
  - injection Hcall as <-. now apply (reset_pagenum_ok s).
Qed.

Lemma handler_pagenum (s : state) :
  get (params (handler cfg pathname origin s)) "pagenum"
  = if page_updated s then get (params s) "pagenum" else Some (VNum 1).
Proof.
  rewrite handler_params by discriminate.
  destruct (page_updated s); [reflexivity|apply get_put_same].
Qed.

Lemma step_pagenum (e : event) (s : state) :
  keeps_page_valid cfg e ->
  pagenum_ok (params s) -> pagenum_ok (params (step cfg pathname origin e s)).
Proof.
  intros Hsafe Hp. destruct e as [c|[snap|]| |o]; unfold step; cbv beta iota.
  - destruct (perform cfg c s) as [s'|] eqn:E; [|exact Hp].
    eapply perform_pagenum; eassumption.
  - exact Hsafe.
  - destruct Hsafe. now apply (reset_pagenum_ok s).
  - unfold pagenum_ok. rewrite handler_pagenum.
    destruct (page_updated s); [exact Hp|]. exists 1. split; [reflexivity|lia].
  - destruct o; simpl; try exact Hp. now destruct (is_initial_load s).
Qed.

(** C3, as the code keeps it.  In a run whose events cannot bring a page
    below 1 ([keeps_page_valid]), [params.pagenum] stays at least 1.  A
    reaction forces [pagenum] to 1 exactly when [__page_updated] is clear,
    and clears it: after [selectPage] the reaction keeps the selected page,
    and after a reaction, a call of any other method (a new search, a change
    of taxonomy terms) makes the next reaction force [pagenum] to 1. *)
Theorem pagenum_policy (trace : list event) (s : state) :
  pagenum_ok (params s) ->
  Forall (keeps_page_valid cfg) trace ->
  pagenum_ok (params (run cfg pathname origin trace s))
  /\ (forall s0,
        get (params (handler cfg pathname origin s0)) "pagenum"
        = (if page_updated s0 then get (params s0) "pagenum" else Some (VNum 1))
        /\ page_updated (handler cfg pathname origin s0) = false)
  /\ (forall s0 page,
        get (params (handler cfg pathname origin
                       (step cfg pathname origin (Call (SelectPage page)) s0)))
            "pagenum" = Some (VNum page))
  /\ (forall s0 c,
        (forall page, c <> SelectPage page) ->
        get (params (handler cfg pathname origin
                       (step cfg pathname origin (Call c)
                          (handler cfg pathname origin s0))))
            "pagenum" = Some (VNum 1)).
Proof.
  intros Hp Hsafe. split.
  { revert s Hp. induction Hsafe as [|e trace He _ IH]; intros s Hp; [exact Hp|].
    simpl. apply IH. now apply step_pagenum. }
  split.
  { intros s0. split; [apply handler_pagenum|apply (handler_flags s0)]. }
  split.
  { intros s0 page. rewrite handler_pagenum. simpl. apply get_put_same. }
  intros s0 c Hc. rewrite handler_pagenum.
  rewrite call_keeps_page_flag by exact Hc.
  now destruct (handler_flags s0) as [_ ->].
Qed.

End Reactions.

(** C3 on a run of the example: a reaction, a search, a page selection and
    a pop without snapshot, each followed by a reaction. *)
Lemma pagenum_policy_example :
  let trace := [React; Call (SetSearch "x"); React; Call (SelectPage 3); React;
                Pop None; React] in
  (pagenum_ok (params example_state)
   /\ Forall (keeps_page_valid example_props) trace)
  /\ pagenum_ok
       (params (run example_props "/library" "https://example.org" trace
                  example_state)).
Proof.
  assert (H0 : pagenum_ok (params example_state)).
  { exists 1. split; [reflexivity|lia]. }
  assert (Ht : Forall (keeps_page_valid example_props)
                 [React; Call (SetSearch "x"); React; Call (SelectPage 3); React;
                  Pop None; React]).
  { repeat constructor; simpl; try lia. intros [[=]|[]]. }
  split; [split; assumption|].
  exact (proj1 (pagenum_policy example_props "/library" "https://example.org"
                  _ _ H0 Ht)).
Defined.

(** Nothing keeps a selected page at 1 or above. *)
Lemma selectPage_zero_breaks_pagenum :
  let s := run example_props "/library" "https://example.org"
             [Call (SelectPage 0); React] example_state in
  get (params s) "pagenum" = Some (VNum 0) /\ ~ pagenum_ok (params s).
Proof.
  split; [reflexivity|]. intros [n [Hn Hle]]. vm_compute in Hn.
  injection Hn as <-. lia.
Qed.

(** The error recorded before a fetch is still there after a response. *)
Lemma fetchData_response_keeps_error :
  let s := with_error (Some (Rejected "offline")) example_state in
  error (fetchData example_props "https://example.org"
           (Responded (VArr []) (Some "0") (Some "0")) s)
  = Some (Rejected "offline")
  /\ error (fetchData example_props "https://example.org"
              (Responded (VArr []) (Some "0") (Some "0")) s) <> None.
Proof. split; [reflexivity|discriminate]. Qed.

(** ** Strings *)

Lemma append_assoc (a b c : string) : (a ++ b) ++ c = a ++ (b ++ c).
Proof. induction a as [|x a IH]; simpl; [reflexivity|now rewrite IH]. Qed.

Lemma append_nil_r (a : string) : a ++ "" = a.
Proof. induction a as [|x a IH]; simpl; [reflexivity|now rewrite IH]. Qed.

Lemma length_append (a b : string) :
  String.length (a ++ b) = (String.length a + String.length b)%nat.
Proof. induction a as [|x a IH]; simpl; [reflexivity|now rewrite IH]. Qed.

Ltac each_ascii c := destruct c as [[] [] [] [] [] [] [] []].

(** ** encodeURIComponent and decodeURIComponent *)

Lemma percent_decode_encode_char (c : ascii) (r : string) :
  percent_decode (encode_char c ++ r) = option_map (String c) (percent_decode r).
Proof. each_ascii c; reflexivity. Qed.

Lemma percent_decode_encode (s : string) :
  percent_decode (encodeURIComponent s) = Some s.
Proof.
  induction s as [|c s IH]; simpl; [reflexivity|].
  now rewrite percent_decode_encode_char, IH.
Qed.

(** Decoding what was encoded gives the text back. *)
Lemma decode_encode (s : string) :
  utf8_valid s = true -> decodeURIComponent (encodeURIComponent s) = Ok s.
Proof.
  intros Hv. unfold decodeURIComponent. now rewrite percent_decode_encode, Hv.
Qed.

Lemma free_of_append (sep : ascii) (a b : string) :
  free_of sep (a ++ b) = free_of sep a && free_of sep b.
Proof.
  induction a as [|c a IH]; simpl; [reflexivity|].
  now rewrite IH, andb_assoc.
Qed.

Lemma encode_char_free (c : ascii) :
  free_of "&" (encode_char c) = true /\ free_of "=" (encode_char c) = true.
Proof. each_ascii c; split; reflexivity. Qed.

(** An encoded text holds neither [&] nor [=]. *)
Lemma encode_free (s : string) :
  free_of "&" (encodeURIComponent s) = true
  /\ free_of "=" (encodeURIComponent s) = true.
Proof.
  induction s as [|c s [IH1 IH2]]; simpl; [now split|].
  rewrite !free_of_append, IH1, IH2.
  destruct (encode_char_free c) as [-> ->]. now split.
Qed.

(** ** [split] and [join] *)

Lemma split_on_free (sep : ascii) (s : string) :
  free_of sep s = true -> split_on sep s = [s].
Proof.
  induction s as [|c s IH]; simpl; [reflexivity|].
  destruct (c =? sep)%char; simpl; [discriminate|].
  intros H. now rewrite IH.
Qed.

Lemma split_on_append (sep : ascii) (a b : string) :
  free_of sep a = true ->
  split_on sep (a ++ String sep b) = a :: split_on sep b.
Proof.
  induction a as [|c a IH]; simpl.
  - now rewrite Ascii.eqb_refl.
  - destruct (c =? sep)%char; simpl; [discriminate|].
    intros H. now rewrite IH.
Qed.

Lemma split_join (sep : ascii) (x : string) (l : list string) :
  Forall (fun piece => free_of sep piece = true) (x :: l) ->
  split_on sep (join (String sep "") (x :: l)) = x :: l.
Proof.
  revert x. induction l as [|y l IH]; intros x Hall.
  - simpl. apply split_on_free. now inversion Hall.
  - inversion Hall as [|? ? Hx Hrest]; subst.
    change (join (String sep "") (x :: y :: l))
      with (x ++ String sep (join (String sep "") (y :: l))).
    rewrite split_on_append by exact Hx. f_equal. now apply IH.
Qed.

(** ** JSON.stringify and JSON.parse *)

Lemma parse_string_body_escape_char (c : ascii) (r : string) :
  parse_string_body (escape_char c ++ r)
  = '(us, rest) <- parse_string_body r ;; Ok (unit_of c :: us, rest).
Proof. each_ascii c; reflexivity. Qed.

Lemma utf8_of_units_unit_of (c : ascii) (us : list code_unit) :
  utf8_of_units (unit_of c :: us) = option_map (String c) (utf8_of_units us).
Proof. each_ascii c; simpl; destruct (utf8_of_units us); reflexivity. Qed.

Lemma parse_string_body_escape (s rest : string) :
  parse_string_body (escape_string s ++ String dquote rest)
  = Ok (map unit_of (list_ascii_of_string s), rest).
Proof.
  induction s as [|c s IH]; simpl; [reflexivity|].
  now rewrite append_assoc, parse_string_body_escape_char, IH.
Qed.

Lemma utf8_of_units_text (s : string) :
  utf8_of_units (map unit_of (list_ascii_of_string s)) = Some s.
Proof.
  induction s as [|c s IH]; [reflexivity|].
  simpl map. now rewrite utf8_of_units_unit_of, IH.
Qed.

(** A quoted text is read back as the text. *)
Lemma parse_string_quote (s rest : string) :
  parse_string (escape_string s ++ String dquote rest) = Ok (s, rest).
Proof.
  unfold parse_string. rewrite parse_string_body_escape. simpl.
  now rewrite utf8_of_units_text.
Qed.

Lemma delimited_no_digit (rest : string) :
  delimited rest = true -> take_digits rest = (Decimal.Nil, rest).
Proof.
  destruct rest as [|c r]; [reflexivity|]. simpl.
  each_ascii c; try discriminate; reflexivity.
Qed.

Lemma delimited_no_fraction (rest : string) (v : value) :
  delimited rest = true ->
  match rest with
  | String c _ =>
      if existsb (Ascii.eqb c) ["."; "e"; "E"]%char then Throw Unsupported
      else Ok (v, rest)
  | "" => Ok (v, rest)
  end = Ok (v, rest).
Proof.
  destruct rest as [|c r]; [reflexivity|]. simpl.
  each_ascii c; try discriminate; reflexivity.
Qed.

Lemma take_digits_string_of_uint (d : Decimal.uint) (rest : string) :
  delimited rest = true ->
  take_digits (NilEmpty.string_of_uint d ++ rest) = (d, rest).
Proof.
  intros Hd. induction d; simpl; try (now rewrite IHd).
  now apply delimited_no_digit.
Qed.

(** The decimal digits of a positive number: some, and no leading zero. *)
Lemma to_uint_shape (p : positive) :
  match Pos.to_uint p with
  | Decimal.Nil | Decimal.D0 _ => False
  | _ => True
  end.
Proof.
  pose proof (DecimalPos.Unsigned.to_uint_nonnil p) as Hnil.
  pose proof (DecimalPos.Unsigned.to_uint_nonzero p) as Hzero.
  pose proof (DecimalPos.Unsigned.to_of (Pos.to_uint p)) as Hnorm.
  rewrite DecimalPos.Unsigned.of_to in Hnorm. simpl in Hnorm.
  unfold Decimal.unorm in Hnorm.
  destruct (Decimal.nzhead (Pos.to_uint p)) eqn:Hnz;
    try (rewrite Hnorm in Hnz |- *; exact I).
  - exfalso. exact (Hzero Hnorm).
  - exfalso. exact (DecimalFacts.nzhead_nonzero _ _ Hnz).
Qed.

Lemma parse_number_string_of_Z (n : Z) (rest : string) :
  delimited rest = true ->
  parse_number (string_of_Z n ++ rest) = Ok (VNum n, rest).
Proof.
  intros Hd. unfold string_of_Z. destruct n as [|p|p].
  - simpl. unfold parse_number. simpl.
    rewrite (delimited_no_digit _ Hd). now apply delimited_no_fraction.
  - pose proof (to_uint_shape p) as Hshape.
    pose proof (DecimalZ.of_to (Z.pos p)) as Hof.
    simpl in Hof |- *. unfold NilZero.string_of_uint.
    destruct (Pos.to_uint p) as [|d|d|d|d|d|d|d|d|d|d] eqn:Hp;
      try contradiction;
      unfold parse_number; simpl;
      rewrite (take_digits_string_of_uint d rest Hd);
      rewrite Hof; now apply delimited_no_fraction.
  - pose proof (to_uint_shape p) as Hshape.
    pose proof (DecimalZ.of_to (Z.neg p)) as Hof.
    simpl in Hof |- *. unfold NilZero.string_of_uint.
    destruct (Pos.to_uint p) as [|d|d|d|d|d|d|d|d|d|d] eqn:Hp;
      try contradiction;
      unfold parse_number; simpl;
      rewrite (take_digits_string_of_uint d rest Hd);
      rewrite Hof; now apply delimited_no_fraction.
Qed.

(** *** Reading back a whole value *)

(** Induction on a value, with the property at hand for every item of
    an array and every member of an object. *)
Lemma value_ind' (P : value -> Prop) :
  P VNull ->
  (forall b, P (VBool b)) ->
  (forall n, P (VNum n)) ->
  (forall s, P (VStr s)) ->
  (forall items, Forall P items -> P (VArr items)) ->
  (forall props, Forall (fun kv => P (snd kv)) props -> P (VObj props)) ->
  forall v, P v.
Proof.
  intros Hnull Hbool Hnum Hstr Harr Hobj.
  fix IH 1. intros [| b | n | s | items | props].
  - exact Hnull.
  - apply Hbool.
  - apply Hnum.
  - apply Hstr.
  - apply Harr. induction items as [|e items IHitems]; constructor;
      [apply IH|exact IHitems].
  - apply Hobj. induction props as [|[k e] props IHprops]; constructor;
      [apply IH|exact IHprops].
Qed.

Lemma skip_ws_token (c : ascii) (r : string) :
  is_json_ws c = false -> skip_ws (String c r) = String c r.
Proof. intros H. simpl. now rewrite H. Qed.

Lemma string_of_Z_head (n : Z) :
  exists c r, string_of_Z n = String c r
              /\ starts_other_token c = false /\ is_json_ws c = false
              /\ (c =? "]")%char = false /\ (c =? "}")%char = false.
Proof.
  unfold string_of_Z. destruct n as [|p|p]; simpl.
  - do 2 eexists. repeat split.
  - pose proof (to_uint_shape p) as Hshape. unfold NilZero.string_of_uint.
    destruct (Pos.to_uint p); try contradiction; simpl;
      do 2 eexists; repeat split.
  - do 2 eexists. repeat split.
Qed.

Lemma stringify_opens (v : value) : opens_value (JSON_stringify v).
Proof.
  destruct v as [| [|] | n | s | items | props]; simpl;
    try (do 2 eexists; repeat split; fail).
  destruct (string_of_Z_head n) as (c & r & -> & _ & H).
  now exists c, r.
Qed.

Lemma opens_value_append (a b : string) :
  opens_value a -> opens_value (a ++ b).
Proof.
  intros (c & r & -> & H). exists c, (r ++ b). now split.
Qed.

Lemma skip_ws_opens (s : string) : opens_value s -> skip_ws s = s.
Proof. intros (c & r & -> & H & _). now apply skip_ws_token. Qed.

Lemma parse_value_as_number (fuel : nat) (c : ascii) (r : string) :
  starts_other_token c = false ->
  parse_value (S fuel) (String c r) = parse_number (String c r).
Proof.
  unfold starts_other_token. intros H.
  repeat (apply orb_false_elim in H; destruct H as [H ?]).
  simpl parse_value.
  repeat match goal with
         | E : (c =? _)%char = false |- _ => rewrite E; clear E
         end.
  reflexivity.
Qed.

Lemma parse_value_number (fuel : nat) (n : Z) (rest : string) :
  delimited rest = true ->
  parse_value (S fuel) (string_of_Z n ++ rest) = Ok (VNum n, rest).
Proof.
  intros Hd. rewrite <- (parse_number_string_of_Z n rest Hd).
  destruct (string_of_Z_head n) as (c & r & -> & Hc & _).
  now apply parse_value_as_number.
Qed.

Lemma distinct_NoDup (l : list string) : distinct l = true -> NoDup l.
Proof.
  induction l as [|x l IH]; simpl; [constructor|].
  intros H. apply andb_true_iff in H as [Hx Hl]. constructor; [|now apply IH].
  intros Hin. apply negb_true_iff in Hx.
  assert (existsb (String.eqb x) l = true); [|congruence].
  apply existsb_exists. exists x. split; [exact Hin|apply String.eqb_refl].
Qed.

Lemma fold_put_fresh (l acc : object) :
  NoDup (keys (acc ++ l)%list) ->
  fold_left (fun o kv => put o (fst kv) (snd kv)) l acc = (acc ++ l)%list.
Proof.
  revert acc. induction l as [|[k v] l IH]; intros acc Hnd; simpl.
  - now rewrite List.app_nil_r.
  - assert (Hk : ~ In k (keys acc)).
    { unfold keys in Hnd. rewrite map_app in Hnd. simpl in Hnd.
      apply NoDup_remove_2 in Hnd. intros Hin. apply Hnd.
      apply in_or_app. now left. }
    rewrite put_not_in by exact Hk.
    rewrite IH; rewrite <- List.app_assoc; [reflexivity|exact Hnd].
Qed.

Lemma build_object_distinct (o : object) :
  distinct (map fst o) = true -> build_object o = o.
Proof.
  intros H. unfold build_object. rewrite fold_put_fresh; [reflexivity|].
  now apply distinct_NoDup.
Qed.

Lemma parse_elements_stringify (items : list value) (e : value) :
  Forall reads_back (e :: items) ->
  forallb json_safe (e :: items) = true ->
  forall fuel rest,
    (fold_right (fun e n => S (size e + n)) O (e :: items) <= fuel)%nat ->
    parse_elements fuel
      (join "," (map JSON_stringify (e :: items)) ++ String "]" rest)
    = Ok (e :: items, rest).
Proof.
  revert e. induction items as [|e2 items IH]; intros e Hall Hsafe fuel rest Hfuel.
  - simpl in Hfuel. destruct fuel as [|fuel]; [lia|].
    inversion Hall as [|? ? He _]; subst.
    simpl in Hsafe. rewrite andb_true_r in Hsafe.
    simpl. rewrite (He Hsafe) by (reflexivity || lia). simpl. reflexivity.
  - inversion Hall as [|? ? He Hrest]; subst.
    change (forallb json_safe (e :: e2 :: items))
      with (json_safe e && forallb json_safe (e2 :: items)) in Hsafe.
    apply andb_true_iff in Hsafe as [Hse Hsrest].
    change (fold_right (fun e n => S (size e + n)) O (e :: e2 :: items))
      with (S (size e + fold_right (fun e n => S (size e + n)) O (e2 :: items)))
      in Hfuel.
    destruct fuel as [|fuel]; [lia|].
    change (join "," (map JSON_stringify (e :: e2 :: items)))
      with (JSON_stringify e ++ String "," (join "," (map JSON_stringify (e2 :: items)))).
    rewrite append_assoc.
    change ((String "," (join "," (map JSON_stringify (e2 :: items)))) ++ String "]" rest)
      with (String "," (join "," (map JSON_stringify (e2 :: items)) ++ String "]" rest)).
    simpl parse_elements. rewrite (He Hse) by (reflexivity || lia).
    simpl bind. simpl skip_ws at 1. simpl.
    rewrite skip_ws_opens.
    + rewrite (IH e2 Hrest Hsrest) by lia. reflexivity.
    + apply opens_value_append.
      destruct items; simpl; [apply stringify_opens|].
      apply opens_value_append, stringify_opens.
Qed.

Lemma member_text_opens (kv : string * value) : opens_value (member_text kv).
Proof. destruct kv as [k v]. do 2 eexists. repeat split. Qed.

Lemma parse_members_stringify (props : list (string * value)) (kv : string * value) :
  Forall (fun kv => reads_back (snd kv)) (kv :: props) ->
  forallb (fun kv => let '(k, v) := kv in utf8_valid k && json_safe v)
          (kv :: props) = true ->
  forall fuel rest,
    (fold_right (fun kv n => let '(_, e) := kv in S (size e + n)) O (kv :: props)
     <= fuel)%nat ->
    parse_members fuel
      (join "," (map member_text (kv :: props)) ++ String "}" rest)
    = Ok (kv :: props, rest).
Proof.
  revert kv. induction props as [|kv2 props IH];
    intros [k v] Hall Hsafe fuel rest Hfuel.
  - simpl in Hfuel. destruct fuel as [|fuel]; [lia|].
    inversion Hall as [|? ? Hv _]; subst. simpl in Hv.
    simpl in Hsafe. rewrite andb_true_r in Hsafe.
    apply andb_true_iff in Hsafe as [_ Hsv].
    simpl join. unfold member_text, quote.
    simpl parse_members. rewrite !append_assoc. simpl append.
    rewrite parse_string_quote. simpl bind. simpl skip_ws. simpl expect.
    rewrite skip_ws_opens
      by (apply opens_value_append, stringify_opens).
    rewrite (Hv Hsv) by (reflexivity || lia). reflexivity.
  - inversion Hall as [|? ? Hv Hrest]; subst. simpl in Hv.
    change (forallb (fun kv => let '(k, v) := kv in utf8_valid k && json_safe v)
              ((k, v) :: kv2 :: props))
      with (utf8_valid k && json_safe v
            && forallb (fun kv => let '(k, v) := kv in utf8_valid k && json_safe v)
                 (kv2 :: props)) in Hsafe.
    apply andb_true_iff in Hsafe as [Hkv Hsrest].
    apply andb_true_iff in Hkv as [_ Hsv].
    change (fold_right (fun kv n => let '(_, e) := kv in S (size e + n)) O
              ((k, v) :: kv2 :: props))
      with (S (size v
               + fold_right (fun kv n => let '(_, e) := kv in S (size e + n)) O
                   (kv2 :: props))) in Hfuel.
    destruct fuel as [|fuel]; [lia|].
    change (join "," (map member_text ((k, v) :: kv2 :: props)))
      with (member_text (k, v)
            ++ String "," (join "," (map member_text (kv2 :: props)))).
    unfold member_text at 1. unfold quote.
    simpl parse_members. rewrite !append_assoc. simpl append.
    rewrite parse_string_quote. simpl bind. simpl skip_ws at 1. simpl expect.
    rewrite skip_ws_opens
      by (apply opens_value_append, stringify_opens).
    rewrite (Hv Hsv) by (reflexivity || lia).
    simpl bind. simpl skip_ws at 1. simpl.
    rewrite skip_ws_opens.
    + rewrite (IH kv2 Hrest Hsrest) by lia. reflexivity.
    + apply opens_value_append.
      destruct props; simpl; [apply member_text_opens|].
      apply opens_value_append, member_text_opens.
Qed.

Lemma parse_value_array (fuel : nat) (r : string) :
  parse_value (S fuel) (String "[" r)
  = match expect "]" (skip_ws r) with
    | Some rest => Ok (VArr [], rest)
    | None =>
        '(items, rest) <- parse_elements fuel (skip_ws r) ;; Ok (VArr items, rest)
    end.
Proof. reflexivity. Qed.

Lemma parse_value_object (fuel : nat) (r : string) :
  parse_value (S fuel) (String "{" r)
  = match expect "}" (skip_ws r) with
    | Some rest => Ok (VObj [], rest)
    | None =>
        '(members, rest) <- parse_members fuel (skip_ws r) ;;
        Ok (VObj (build_object members), rest)
    end.
Proof. reflexivity. Qed.

Lemma parse_value_text (fuel : nat) (r : string) :
  parse_value (S fuel) (String dquote r)
  = '(text, rest) <- parse_string r ;; Ok (VStr text, rest).
Proof. reflexivity. Qed.

Lemma expect_closing_opens (closing : ascii) (s : string) :
  (exists c r, s = String c r /\ (c =? closing)%char = false) ->
  expect (String closing "") s = None.
Proof.
  intros (c & r & -> & Hc). simpl. now rewrite Ascii.eqb_sym, Hc.
Qed.

(** [JSON.parse] reads back what [JSON.stringify] wrote, whatever closes
    the value. *)
Lemma parse_value_stringify (v : value) : reads_back v.
Proof.
  induction v as [| b | n | s | items IH | props IH] using value_ind';
    intros Hsafe fuel rest Hfuel Hd;
    (destruct fuel as [|fuel]; [simpl in Hfuel; lia|]).
  - reflexivity.
  - now destruct b.
  - now apply parse_value_number.
  - change (JSON_stringify (VStr s) ++ rest)
      with (String dquote ((escape_string s ++ String dquote "") ++ rest)).
    rewrite append_assoc, parse_value_text.
    change (String dquote "" ++ rest) with (String dquote rest).
    now rewrite parse_string_quote.
  - destruct items as [|e items]; [reflexivity|].
    simpl in Hfuel. apply le_S_n in Hfuel.
    change (JSON_stringify (VArr (e :: items)) ++ rest)
      with (String "[" ((join "," (map JSON_stringify (e :: items)) ++ "]") ++ rest)).
    rewrite append_assoc.
    change ("]" ++ rest) with (String "]" rest).
    assert (Hopen : opens_value
                      (join "," (map JSON_stringify (e :: items)) ++ String "]" rest)).
    { apply opens_value_append. destruct items; simpl; [apply stringify_opens|].
      apply opens_value_append, stringify_opens. }
    rewrite parse_value_array, (skip_ws_opens _ Hopen).
    rewrite expect_closing_opens.
    + rewrite (parse_elements_stringify items e IH Hsafe fuel rest Hfuel).
      reflexivity.
    + destruct Hopen as (c & r & Heq & _ & Hc & _). now exists c, r.
  - destruct props as [|kv props]; [reflexivity|].
    simpl in Hfuel. apply le_S_n in Hfuel.
    change (JSON_stringify (VObj (kv :: props)) ++ rest)
      with (String "{" ((join "," (map member_text (kv :: props)) ++ "}") ++ rest)).
    rewrite append_assoc.
    change ("}" ++ rest) with (String "}" rest).
    change (json_safe (VObj (kv :: props)))
      with (distinct (map fst (kv :: props))
            && forallb (fun kv => let '(k, v) := kv in utf8_valid k && json_safe v)
                 (kv :: props)) in Hsafe.
    apply andb_true_iff in Hsafe as [Hdist Hsafe].
    assert (Hopen : opens_value
                      (join "," (map member_text (kv :: props)) ++ String "}" rest)).
    { apply opens_value_append. destruct props; simpl; [apply member_text_opens|].
      apply opens_value_append, member_text_opens. }
    rewrite parse_value_object, (skip_ws_opens _ Hopen).
    rewrite expect_closing_opens.
    + rewrite (parse_members_stringify props kv IH Hsafe fuel rest Hfuel).
      simpl bind. now rewrite build_object_distinct.
    + destruct Hopen as (c & r & Heq & _ & _ & Hc). now exists c, r.
Qed.

Lemma size_le_length (v : value) : (size v <= String.length (JSON_stringify v))%nat.
Proof.
  induction v as [| b | n | s | items IH | props IH] using value_ind'.
  - simpl. lia.
  - destruct b; simpl; lia.
  - destruct (string_of_Z_head n) as (c & r & H & _). simpl. rewrite H. simpl. lia.
  - simpl. lia.
  - simpl size. simpl JSON_stringify. simpl String.length. apply le_n_S.
    rewrite length_append. simpl.
    induction IH as [|e items He _ IHitems]; [simpl; lia|].
    destruct items as [|e2 items].
    + simpl in *. lia.
    + change (join "," (map JSON_stringify (e :: e2 :: items)))
        with (JSON_stringify e ++ String "," (join "," (map JSON_stringify (e2 :: items)))).
      rewrite length_append. cbn [String.length].
      change (fold_right (fun e n => S (size e + n)) O (e :: e2 :: items))
        with (S (size e + fold_right (fun e n => S (size e + n)) O (e2 :: items))).
      lia.
  - simpl size. change (JSON_stringify (VObj props))
      with (String "{" (join "," (map member_text props) ++ "}")).
    simpl String.length. apply le_n_S.
    rewrite length_append. simpl.
    induction IH as [|[k e] props He _ IHprops]; [simpl; lia|].
    simpl in He.
    assert (Hm : (S (size e) <= String.length (member_text (k, e)))%nat).
    { unfold member_text, quote. simpl. rewrite !length_append. simpl. lia. }
    destruct props as [|kv2 props].
    + change (join "," (map member_text [(k, e)])) with (member_text (k, e)).
      simpl fold_right. lia.
    + change (join "," (map member_text ((k, e) :: kv2 :: props)))
        with (member_text (k, e) ++ String "," (join "," (map member_text (kv2 :: props)))).
      rewrite length_append. cbn [String.length].
      change (fold_right (fun kv n => let '(_, e) := kv in S (size e + n)) O
                ((k, e) :: kv2 :: props))
        with (S (size e
                 + fold_right (fun kv n => let '(_, e) := kv in S (size e + n)) O
                     (kv2 :: props))).
      lia.
Qed.

(** The round trip of JSON: a value that JSON represents exactly is
    parsed back from its text. *)
Lemma JSON_parse_stringify (v : value) :
  json_safe v = true -> JSON_parse (JSON_stringify v) = Ok v.
Proof.
  intros Hsafe. unfold JSON_parse.
  rewrite skip_ws_opens by apply stringify_opens.
  rewrite <- (append_nil_r (JSON_stringify v)) at 2.
  rewrite (parse_value_stringify v Hsafe).
  - reflexivity.
  - pose proof (size_le_length v). lia.
  - reflexivity.
Qed.

(** *** Well-formed text stays well formed *)

Lemma utf8_valid_append_aux (n : nat) (a b : string) :
  (String.length a <= n)%nat ->
  utf8_valid a = true -> utf8_valid (a ++ b) = utf8_valid b.
Proof.
  revert a. induction n as [|n IH]; intros a Hlen Hv.
  - destruct a; [reflexivity|simpl in Hlen; lia].
  - destruct a as [|c r]; [reflexivity|].
    simpl in Hlen. simpl in Hv |- *.
    destruct (code c <? 128)%N.
    { apply IH; [lia|exact Hv]. }
    destruct (in_range 194 223 c).
    { destruct r as [|c1 r1]; [discriminate|]. simpl in Hlen |- *.
      apply andb_true_iff in Hv as [-> Hv]. simpl.
      apply IH; [lia|exact Hv]. }
    destruct (in_range 224 239 c).
    { destruct r as [|c1 [|c2 r2]]; try discriminate. simpl in Hlen |- *.
      apply andb_true_iff in Hv as [Hv Hv2].
      rewrite Hv. simpl. apply IH; [lia|exact Hv2]. }
    destruct (in_range 240 244 c); [|discriminate].
    destruct r as [|c1 [|c2 [|c3 r3]]]; try discriminate. simpl in Hlen |- *.
    apply andb_true_iff in Hv as [Hv Hv3].
    rewrite Hv. simpl. apply IH; [lia|exact Hv3].
Qed.

(** Text appended to well-formed text is well formed when it is itself. *)
Lemma utf8_valid_append (a b : string) :
  utf8_valid a = true -> utf8_valid (a ++ b) = utf8_valid b.
Proof. apply (utf8_valid_append_aux (String.length a)). lia. Qed.

Lemma escape_char_ascii (c : ascii) (rest : string) :
  (code c <? 128)%N = true ->
  utf8_valid (escape_char c ++ rest) = utf8_valid rest.
Proof. each_ascii c; intros H; try discriminate H; reflexivity. Qed.

Lemma escape_char_high (c : ascii) :
  (code c <? 128)%N = false -> escape_char c = String c "".
Proof. each_ascii c; intros H; try discriminate H; reflexivity. Qed.

Lemma in_range_high (lo hi : N) (c : ascii) :
  (128 <= lo)%N -> in_range lo hi c = true -> (code c <? 128)%N = false.
Proof.
  unfold in_range. intros Hlo H. apply andb_true_iff in H as [H _].
  apply N.leb_le in H. apply N.ltb_ge. lia.
Qed.

Ltac high_byte H :=
  unfold is_cont in H;
  match type of H with
  | in_range ?lo ?hi ?c = true => apply (in_range_high lo hi c); [lia|exact H]
  end.

Lemma escape_string_valid_aux (n : nat) (s : string) :
  (String.length s <= n)%nat ->
  utf8_valid s = true -> utf8_valid (escape_string s) = true.
Proof.
  revert s. induction n as [|n IH]; intros s Hlen Hv.
  - destruct s; [reflexivity|simpl in Hlen; lia].
  - destruct s as [|c r]; [reflexivity|].
    simpl in Hlen. simpl escape_string. simpl in Hv.
    destruct (code c <? 128)%N eqn:Hc.
    { rewrite escape_char_ascii by exact Hc. apply IH; [lia|exact Hv]. }
    rewrite (escape_char_high c Hc). simpl. rewrite Hc.
    destruct (in_range 194 223 c).
    { destruct r as [|c1 r1]; [discriminate|]. simpl in Hlen.
      apply andb_true_iff in Hv as [Hc1 Hv].
      assert (Hh1 : (code c1 <? 128)%N = false) by (pose proof Hc1 as H; high_byte H).
      simpl escape_string. rewrite (escape_char_high c1 Hh1).
      simpl. rewrite Hc1. apply IH; [lia|exact Hv]. }
    destruct (in_range 224 239 c).
    { destruct r as [|c1 [|c2 r2]]; try discriminate. simpl in Hlen.
      apply andb_true_iff in Hv as [Hv Hv2].
      apply andb_true_iff in Hv as [Hc1 Hc2].
      assert (Hh1 : (code c1 <? 128)%N = false).
      { pose proof Hc1 as H.
        destruct (code c =? 224)%N; [|destruct (code c =? 237)%N]; high_byte H. }
      assert (Hh2 : (code c2 <? 128)%N = false) by (pose proof Hc2 as H; high_byte H).
      simpl escape_string.
      rewrite (escape_char_high c1 Hh1), (escape_char_high c2 Hh2).
      simpl. rewrite Hc1, Hc2. apply IH; [lia|exact Hv2]. }
    destruct (in_range 240 244 c); [|discriminate].
    destruct r as [|c1 [|c2 [|c3 r3]]]; try discriminate. simpl in Hlen.
    apply andb_true_iff in Hv as [Hv Hv3].
    apply andb_true_iff in Hv as [Hv Hc3].
    apply andb_true_iff in Hv as [Hc1 Hc2].
    assert (Hh1 : (code c1 <? 128)%N = false).
    { pose proof Hc1 as H.
      destruct (code c =? 240)%N; [|destruct (code c =? 244)%N]; high_byte H. }
    assert (Hh2 : (code c2 <? 128)%N = false) by (pose proof Hc2 as H; high_byte H).
    assert (Hh3 : (code c3 <? 128)%N = false) by (pose proof Hc3 as H; high_byte H).
    simpl escape_string.
    rewrite (escape_char_high c1 Hh1), (escape_char_high c2 Hh2),
      (escape_char_high c3 Hh3).
    simpl. rewrite Hc1, Hc2, Hc3. apply IH; [lia|exact Hv3].
Qed.

Lemma quote_valid (s : string) :
  utf8_valid s = true -> utf8_valid (quote s) = true.
Proof.
  intros Hv. unfold quote. simpl.
  rewrite utf8_valid_append; [reflexivity|].
  now apply (escape_string_valid_aux (String.length s)).
Qed.

Lemma string_of_uint_valid (d : Decimal.uint) :
  utf8_valid (NilEmpty.string_of_uint d) = true.
Proof. induction d; simpl; auto. Qed.

Lemma string_of_Z_valid (n : Z) : utf8_valid (string_of_Z n) = true.
Proof.
  unfold string_of_Z. destruct n as [|p|p]; simpl; [reflexivity| |];
    unfold NilZero.string_of_uint;
    destruct (Pos.to_uint p) eqn:E; try reflexivity;
    rewrite <- E; apply string_of_uint_valid.
Qed.

Lemma join_valid (l : list string) :
  Forall (fun piece => utf8_valid piece = true) l ->
  utf8_valid (join "," l) = true.
Proof.
  induction 1 as [|x l Hx Hl IH]; [reflexivity|].
  destruct l as [|y l]; [exact Hx|].
  change (join "," (x :: y :: l)) with (x ++ String "," (join "," (y :: l))).
  rewrite utf8_valid_append by exact Hx. exact IH.
Qed.

(** The text of a value that JSON represents exactly is well formed. *)
Lemma stringify_valid (v : value) :
  json_safe v = true -> utf8_valid (JSON_stringify v) = true.
Proof.
  induction v as [| b | n | s | items IH | props IH] using value_ind';
    intros Hsafe.
  - reflexivity.
  - now destruct b.
  - apply string_of_Z_valid.
  - now apply quote_valid.
  - change (JSON_stringify (VArr items))
      with (String "[" (join "," (map JSON_stringify items) ++ "]")).
    change (utf8_valid (join "," (map JSON_stringify items) ++ "]") = true).
    rewrite utf8_valid_append; [reflexivity|].
    apply join_valid. simpl in Hsafe.
    induction IH as [|e items He _ IHitems]; [constructor|].
    simpl in Hsafe. apply andb_true_iff in Hsafe as [Hse Hsrest].
    constructor; [now apply He|now apply IHitems].
  - change (JSON_stringify (VObj props))
      with (String "{" (join "," (map member_text props) ++ "}")).
    change (utf8_valid (join "," (map member_text props) ++ "}") = true).
    rewrite utf8_valid_append; [reflexivity|].
    apply join_valid.
    change (json_safe (VObj props))
      with (distinct (map fst props)
            && forallb (fun kv => let '(k, v) := kv in utf8_valid k && json_safe v)
                 props) in Hsafe.
    apply andb_true_iff in Hsafe as [_ Hsafe].
    induction IH as [|[k e] props He _ IHprops]; [constructor|].
    simpl in Hsafe. apply andb_true_iff in Hsafe as [Hkv Hsrest].
    apply andb_true_iff in Hkv as [Hk Hse].
    constructor; [|now apply IHprops].
    unfold member_text. rewrite utf8_valid_append by now apply quote_valid.
    simpl. now apply He.
Qed.

(** ** ParamSerializer *)

Lemma get_in (p : object) (k : string) (v : value) :
  NoDup (keys p) -> In (k, v) p -> get p k = Some v.
Proof.
  induction p as [|[k0 v0] p IH]; simpl; intros Hnd Hin; [contradiction|].
  inversion Hnd as [|? ? Hk0 Hnd']; subst.
  destruct Hin as [Heq|Hin].
  - injection Heq as -> ->. now rewrite String.eqb_refl.
  - destruct (String.eqb_spec k0 k) as [->|Hne]; [|now apply IH].
    exfalso. apply Hk0. change k with (fst (k, v)). now apply in_map.
Qed.

Lemma serialize_members (q l : object) :
  (forall k v, In (k, v) l -> get q k = Some v) ->
  map (fun k => encodeURIComponent k ++ "="
                ++ encodeURIComponent (stringify_opt (get q k)))
      (filter (fun k => truthy_opt (get q k)) (keys l))
  = map pair_text (filter (fun kv => truthy (snd kv)) l).
Proof.
  induction l as [|[k v] l IH]; intros Hget; [reflexivity|].
  simpl. rewrite (Hget k v) by now left. simpl.
  destruct (truthy v); simpl.
  - rewrite (Hget k v) by now left. simpl. f_equal.
    apply IH. intros k' v' Hin. apply Hget. now right.
  - apply IH. intros k' v' Hin. apply Hget. now right.
Qed.

Lemma serializeParams_pairs (p : object) :
  distinct (keys p) = true ->
  serializeParams p
  = join "&" (map pair_text (filter (fun kv => truthy (snd kv)) p)).
Proof.
  intros Hd. unfold serializeParams. f_equal. apply serialize_members.
  intros k v. apply get_in. now apply distinct_NoDup.
Qed.

Lemma falsy_values (v : value) :
  truthy v = false
  <-> v = VNull \/ v = VBool false \/ v = VNum 0 \/ v = VStr "".
Proof.
  split.
  - destruct v as [| [|] | n | s | items | props]; simpl; try discriminate; auto.
    + intros H. apply negb_false_iff, Z.eqb_eq in H. subst. auto.
    + intros H. apply negb_false_iff, String.eqb_eq in H. subst. auto.
  - intros [-> | [-> | [-> | ->]]]; reflexivity.
Qed.

(** C7, as the code filters: for [params] without a repeated key,
    [serializeParams] joins with [&] one piece
    [encodeURIComponent(key) = encodeURIComponent(JSON.stringify(value))]
    for every key, in order, whose value is truthy; the values left out are
    exactly [null], [false], 0 and the empty string, so an empty array or
    object is kept. *)
Theorem serializeParams_keeps_truthy (p : object) :
  distinct (keys p) = true ->
  serializeParams p
  = join "&" (map pair_text (filter (fun kv => truthy (snd kv)) p))
  /\ (forall v, truthy v = false
                <-> v = VNull \/ v = VBool false \/ v = VNum 0 \/ v = VStr "")
  /\ truthy (VArr []) = true
  /\ truthy (VObj []) = true.
Proof.
  intros Hd. split; [now apply serializeParams_pairs|].
  split; [apply falsy_values|]. now split.
Qed.

(** C7 on the parameters of the example state: [search] is empty and is
    left out, the empty [meta_query] and [category] are kept. *)
Lemma serializeParams_example :
  distinct (keys (params example_state)) = true
  /\ serializeParams (params example_state)
     = "per_page=10&order=%22desc%22&orderby=%22date%22&pagenum=1&meta_query=%7B%7D&ver=1&category=%5B%5D".
Proof.
  split; [reflexivity|].
  rewrite (proj1 (serializeParams_keeps_truthy (params example_state) eq_refl)).
  reflexivity.
Defined.

(** A key whose value is an empty array is serialized. *)
Lemma serializeParams_keeps_empty_array :
  serializeParams [("category", VArr [])] = "category=%5B%5D"
  /\ serializeParams [("category", VArr [])] <> "".
Proof. split; [reflexivity|discriminate]. Qed.

Lemma pair_text_free (kv : string * value) :
  free_of "&" (pair_text kv) = true.
Proof.
  unfold pair_text. rewrite !free_of_append.
  destruct (encode_free (fst kv)) as [-> _].
  now destruct (encode_free (JSON_stringify (snd kv))) as [-> _].
Qed.

Lemma split_pair_text (kv : string * value) :
  split_on "=" (pair_text kv)
  = [encodeURIComponent (fst kv); encodeURIComponent (JSON_stringify (snd kv))].
Proof.
  unfold pair_text.
  change ("=" ++ encodeURIComponent (JSON_stringify (snd kv)))
    with (String "=" (encodeURIComponent (JSON_stringify (snd kv)))).
  rewrite split_on_append by apply encode_free.
  now rewrite split_on_free by apply encode_free.
Qed.

Lemma filter_all {A} (f : A -> bool) (l : list A) :
  forallb f l = true -> filter f l = l.
Proof.
  induction l as [|x l IH]; simpl; [reflexivity|].
  intros H. apply andb_true_iff in H as [-> H]. now rewrite IH.
Qed.

Lemma unserialize_members (p acc : object) :
  forallb (fun kv =>
             negb (fst kv =? "__proto__")%string && utf8_valid (fst kv)
             && json_safe (snd kv) && truthy (snd kv)) p = true ->
  NoDup (keys (acc ++ p)%list) ->
  fold_left
    (fun acc val =>
       params <- acc ;;
       k <- decodeURIComponent (item val 0) ;;
       text <- decodeURIComponent (item val 1) ;;
       v <- JSON_parse text ;;
       Ok (assign params k v))
    (map (fun kv => [encodeURIComponent (fst kv);
                     encodeURIComponent (JSON_stringify (snd kv))]) p)
    (Ok acc)
  = Ok (acc ++ p)%list.
Proof.
  revert acc. induction p as [|[k v] p IH]; intros acc Hall Hnd.
  - simpl. now rewrite List.app_nil_r.
  - simpl in Hall. apply andb_true_iff in Hall as [Hkv Hall].
    apply andb_true_iff in Hkv as [Hkv _].
    apply andb_true_iff in Hkv as [Hkv Hsafe].
    apply andb_true_iff in Hkv as [Hproto Hvalid].
    assert (Hk : ~ In k (keys acc)).
    { unfold keys in Hnd. rewrite map_app in Hnd. simpl in Hnd.
      apply NoDup_remove_2 in Hnd. intros Hin. apply Hnd.
      apply in_or_app. now left. }
    simpl map. simpl fold_left.
    change (item [encodeURIComponent k; encodeURIComponent (JSON_stringify v)] 0)
      with (encodeURIComponent k).
    change (item [encodeURIComponent k; encodeURIComponent (JSON_stringify v)] 1)
      with (encodeURIComponent (JSON_stringify v)).
    rewrite (decode_encode k Hvalid). simpl bind.
    rewrite (decode_encode _ (stringify_valid v Hsafe)). simpl bind.
    rewrite (JSON_parse_stringify v Hsafe). simpl bind.
    unfold assign. apply negb_true_iff in Hproto. rewrite Hproto.
    rewrite put_not_in by exact Hk.
    rewrite IH.
    + now rewrite <- List.app_assoc.
    + exact Hall.
    + now rewrite <- List.app_assoc.
Qed.




(** Empty parameters serialize to the empty text, which does not parse. *)
Example unserialize_empty_throws :
  serializeParams [] = ""
  /\ unserializeParams ("?" ++ serializeParams []) = Throw SyntaxError.
Proof. split; reflexivity. Qed.

(** A key named [__proto__] is not restored. *)
Example unserialize_loses_proto :
  unserializeParams ("?" ++ serializeParams [("__proto__", VNum 1)]) = Ok [].
Proof. reflexivity. Qed.

(** ** ResourceTransformer *)

Lemma put_put_same (o : object) (k : string) (v w : value) :
  put (put o k v) k w = put o k w.
Proof.
  induction o as [|[k0 v0] o IH]; simpl.
  - now rewrite String.eqb_refl.
  - destruct (String.eqb_spec k0 k) as [->|Hne]; simpl.
    + now rewrite String.eqb_refl.
    + destruct (String.eqb_spec k0 k); [contradiction|now rewrite IH].
Qed.

Lemma filed_under_app (name : string) (a b : list value) :
  filed_under name (a ++ b)%list = (filed_under name a ++ filed_under name b)%list.
Proof. apply filter_app. Qed.

Lemma as_group_app (l : list value) (term : value) :
  as_group (l ++ [term])%list = Some (VArr (l ++ [term])%list).
Proof. now destruct l. Qed.

(** Filing one term adds it at the end of the list of its taxonomy and
    leaves the other lists alone. *)
Lemma file_term_spec (terms : object) (before : list value) (term : value) :
  (forall name, get terms name = as_group (filed_under name before)) ->
  plain_term term = true ->
  exists terms',
    file_term terms term = Ok terms'
    /\ forall name,
         get terms' name = as_group (filed_under name (before ++ [term])%list).
Proof.
  intros Hinv Hplain.
  assert (Hnull : term <> VNull) by (intros ->; discriminate).
  assert (Hmember : existsb (String.eqb (taxonomy_name term))
                      Object_prototype_members = false).
  { destruct term; try discriminate; now apply negb_true_iff in Hplain. }
  assert (Hproto : (taxonomy_name term =? "__proto__")%string = false).
  { destruct (String.eqb_spec (taxonomy_name term) "__proto__") as [E|]; [|reflexivity].
    rewrite E in Hmember. discriminate. }
  assert (Hfile : file_term terms term
                  = match read terms (taxonomy_name term) with
                    | Undefined =>
                        Ok (assign terms (taxonomy_name term) (VArr [term]))
                    | Own (VArr filed) =>
                        Ok (put terms (taxonomy_name term)
                              (VArr (filed ++ [term])%list))
                    | Own _ => Throw TypeError
                    | Inherited => Throw TypeError
                    end).
  { destruct term; try reflexivity. contradiction. }
  rewrite Hfile. unfold read. rewrite Hinv, Hmember. unfold assign. rewrite Hproto.
  assert (Hnew : forall filed name,
             filed = filed_under (taxonomy_name term) before ->
             get (put terms (taxonomy_name term) (VArr (filed ++ [term])%list)) name
             = as_group (filed_under name (before ++ [term])%list)).
  { intros filed name ->. rewrite filed_under_app. simpl.
    destruct (String.eqb_spec (taxonomy_name term) name) as [<-|Hne].
    - now rewrite get_put_same, as_group_app.
    - rewrite get_put_other by exact Hne. now rewrite List.app_nil_r. }
  destruct (filed_under (taxonomy_name term) before) as [|t0 filed] eqn:E; simpl.
  - eexists. split; [reflexivity|]. intros name.
    apply (Hnew [] name). reflexivity.
  - eexists. split; [reflexivity|]. intros name.
    apply (Hnew (t0 :: filed) name). reflexivity.
Qed.

Lemma file_terms_spec (group : list value) (terms : object) (before : list value) :
  (forall name, get terms name = as_group (filed_under name before)) ->
  forallb plain_term group = true ->
  exists terms',
    fold_left (fun acc term => t <- acc ;; file_term t term) group (Ok terms)
    = Ok terms'
    /\ forall name,
         get terms' name = as_group (filed_under name (before ++ group)%list).
Proof.
  revert terms before. induction group as [|term group IH];
    intros terms before Hinv Hplain.
  - exists terms. split; [reflexivity|]. intros name. now rewrite List.app_nil_r.
  - simpl in Hplain. apply andb_true_iff in Hplain as [Hterm Hgroup].
    destruct (file_term_spec terms before term Hinv Hterm) as (terms1 & H1 & Hinv1).
    simpl. rewrite H1.
    destruct (IH terms1 (before ++ [term])%list Hinv1 Hgroup) as (terms' & H' & Hinv').
    exists terms'. split; [exact H'|]. intros name.
    rewrite Hinv'. now rewrite <- List.app_assoc.
Qed.

Lemma file_groups_spec (groups : list (list value)) (terms : object)
    (before : list value) :
  (forall name, get terms name = as_group (filed_under name before)) ->
  forallb plain_term (List.concat groups) = true ->
  exists terms',
    fold_left (fun acc taxonomy => t <- acc ;; file_group t taxonomy)
      (map VArr groups) (Ok terms)
    = Ok terms'
    /\ forall name,
         get terms' name
         = as_group (filed_under name (before ++ List.concat groups)%list).
Proof.
  revert terms before. induction groups as [|group groups IH];
    intros terms before Hinv Hplain.
  - exists terms. split; [reflexivity|]. intros name. simpl.
    now rewrite List.app_nil_r.
  - simpl in Hplain. rewrite forallb_app in Hplain.
    apply andb_true_iff in Hplain as [Hgroup Hrest].
    destruct (file_terms_spec group terms before Hinv Hgroup) as (terms1 & H1 & Hinv1).
    simpl. rewrite H1.
    destruct (IH terms1 (before ++ group)%list Hinv1 Hrest) as (terms' & H' & Hinv').
    exists terms'. split; [exact H'|]. intros name.
    rewrite Hinv'. now rewrite <- List.app_assoc.
Qed.

(** What [transform] reads of the item once title, excerpt and terms are
    set is what the item held. *)
Lemma prepared_path (o : object) (title excerpt terms : value) (path : list string) :
  get_path (VObj (put (put (put o "title" title) "excerpt" excerpt) "terms" terms))
    ("_embedded" :: path)
  = get_path (VObj o) ("_embedded" :: path).
Proof. simpl. now get_put. Qed.

(** The terms of an item whose embedded terms are arrays of plain terms. *)
Lemma embedded_terms_spec (item : value) (groups : list (list value)) :
  get_path item ["_embedded"; "wp:term"] = Some (VArr (map VArr groups)) ->
  forallb plain_term (List.concat groups) = true ->
  exists terms,
    embedded_terms item = Ok terms
    /\ forall name, get terms name = as_group (filed_under name (List.concat groups)).
Proof.
  intros Hpath Hplain. unfold embedded_terms. rewrite Hpath. simpl truthy. cbv iota.
  apply (file_groups_spec groups [] [] (fun name => eq_refl) Hplain).
Qed.

Lemma transform_terms (o : object) (groups : list (list value)) :
  get_path (VObj o) ["_embedded"; "wp:term"] = Some (VArr (map VArr groups)) ->
  forallb plain_term (List.concat groups) = true ->
  exists r terms,
    transform (VObj o) = Ok r
    /\ get r "terms" = Some (VObj terms)
    /\ forall name, get terms name = as_group (filed_under name (List.concat groups)).
Proof.
  intros Hpath Hplain. unfold transform.
  destruct (embedded_terms_spec
              (VObj (put (put (put o "title" (rendered_or_self (get o "title")))
                            "excerpt"
                            (rendered_or_self
                               (get (put o "title" (rendered_or_self (get o "title")))
                                  "excerpt")))
                       "terms" (VObj [])))
              groups) as (terms & Hterms & Hspec).
  - rewrite prepared_path. exact Hpath.
  - exact Hplain.
  - rewrite Hterms. simpl. do 2 eexists. split; [reflexivity|].
    split; [apply get_put_same|exact Hspec].
Qed.

(** X1. For an item whose embedded terms are arrays of terms that are not
    [null] and whose taxonomies are not called like a member of
    [Object.prototype], [resources] files every term under its taxonomy
    ([post_tag] under [tags]), in the order met: [terms] holds, for every
    name, exactly the terms of that taxonomy, and nothing for a name without
    terms. *)
Theorem transform_groups_terms (o : object) (groups : list (list value)) :
  get_path (VObj o) ["_embedded"; "wp:term"] = Some (VArr (map VArr groups)) ->
  forallb plain_term (List.concat groups) = true ->
  exists r terms,
    transform (VObj o) = Ok r
    /\ get r "terms" = Some (VObj terms)
    /\ (forall name, get terms name = as_group (filed_under name (List.concat groups))).
Proof. exact (transform_terms o groups). Qed.

(** X1 on the example item: one tag, filed under tags. *)
Lemma transform_groups_terms_example :
  (get_path example_item ["_embedded"; "wp:term"]
   = Some (VArr (map VArr [[]; [example_tag]]))
   /\ forallb plain_term (List.concat [[]; [example_tag]]) = true)
  /\ exists r terms,
       transform example_item = Ok r
       /\ get r "terms" = Some (VObj terms)
       /\ (forall name,
             get terms name
             = as_group (filed_under name (List.concat [[]; [example_tag]]))).
Proof.
  split; [split; reflexivity|].
  exact (transform_groups_terms
           [ ("id", VNum 1);
             ("title", VObj [("rendered", VStr "Hi")]);
             ("_embedded",
                VObj [ ("wp:featuredmedia",
                          VArr [VObj [("media_details",
                             VObj [("sizes",
                                VObj [("full", VObj [("source_url", VStr "/full.jpg")]);
                                      ("medium", VObj [("source_url", VStr "/medium.jpg")])])])]]);
                       ("wp:term", VArr [VArr []; VArr [example_tag]]) ]) ]
           [[]; [example_tag]] eq_refl eq_refl).
Defined.

Lemma traverse_map {A B} (f : A -> B) (g : A -> result B) (l : list A) :
  (forall x, In x l -> g x = Ok (f x)) -> traverse g l = Ok (map f l).
Proof.
  induction l as [|x l IH]; intros Hg; [reflexivity|].
  simpl. rewrite (Hg x) by now left. simpl.
  rewrite IH; [reflexivity|]. intros y Hy. apply Hg. now right.
Qed.

Lemma filed_under_plain (name : string) (terms : list value) (term : value) :
  forallb plain_term terms = true -> In term (filed_under name terms) ->
  term <> VNull.
Proof.
  intros Hall Hin. apply filter_In in Hin as [Hin _].
  rewrite forallb_forall in Hall. specialize (Hall term Hin).
  intros ->. discriminate.
Qed.

(** X2. On a resource that [resources] made of such an item,
    [joinTerms] gives the names of the terms of the taxonomy, in their
    order, joined by the separator ([', '] by default), and the empty text
    for a taxonomy without terms. *)
Theorem joinTerms_of_transformed (o r : object) (groups : list (list value))
    (taxonomy : string) (separator : option string) :
  get_path (VObj o) ["_embedded"; "wp:term"] = Some (VArr (map VArr groups)) ->
  forallb plain_term (List.concat groups) = true ->
  transform (VObj o) = Ok r ->
  joinTerms (VObj r) taxonomy separator
  = Ok (join (match separator with Some s => s | None => ", " end)
          (map term_name (filed_under taxonomy (List.concat groups)))).
Proof.
  intros Hpath Hplain Hr.
  destruct (transform_terms o groups Hpath Hplain) as (r' & terms & Hr' & Hterms & Hspec).
  rewrite Hr in Hr'. injection Hr' as <-.
  unfold joinTerms. simpl field. rewrite Hterms. simpl member. rewrite Hspec.
  destruct (filed_under taxonomy (List.concat groups)) as [|t0 filed] eqn:E;
    [reflexivity|].
  simpl as_group. cbv iota.
  rewrite (traverse_map term_name).
  - reflexivity.
  - intros term Hin. rewrite <- E in Hin.
    pose proof (filed_under_plain _ _ _ Hplain Hin) as Hnull.
    destruct term; try reflexivity. contradiction.
Qed.

(** X2 on the example item. *)
Lemma joinTerms_of_transformed_example :
  exists r,
    (get_path example_item ["_embedded"; "wp:term"]
     = Some (VArr (map VArr [[]; [example_tag]]))
     /\ forallb plain_term (List.concat [[]; [example_tag]]) = true
     /\ transform example_item = Ok r)
    /\ joinTerms (VObj r) "tags" None = Ok "News".
Proof.
  eexists. split; [repeat split; reflexivity|].
  exact (joinTerms_of_transformed
           [ ("id", VNum 1);
             ("title", VObj [("rendered", VStr "Hi")]);
             ("_embedded",
                VObj [ ("wp:featuredmedia",
                          VArr [VObj [("media_details",
                             VObj [("sizes",
                                VObj [("full", VObj [("source_url", VStr "/full.jpg")]);
                                      ("medium", VObj [("source_url", VStr "/medium.jpg")])])])]]);
                       ("wp:term", VArr [VArr []; VArr [example_tag]]) ]) ]
           _ [[]; [example_tag]] "tags" None eq_refl eq_refl eq_refl).
Defined.

(** X3. Whatever the item, [resources] touches only [title], [excerpt],
    [getFeaturedImage] and [terms]: every other field of the resource is
    the one of the item.  The title and the excerpt of the resource are
    never missing: each is the rendered form when the item has a truthy
    one, the value of the item when that is truthy, and the empty text
    otherwise. *)
Theorem transform_frame (o r : object) :
  transform (VObj o) = Ok r ->
  (forall k, k <> "title" -> k <> "excerpt" -> k <> "getFeaturedImage" ->
             k <> "terms" -> get r k = get o k)
  /\ get r "title" = Some (rendered_or_self (get o "title"))
  /\ get r "excerpt" = Some (rendered_or_self (get o "excerpt"))
  /\ (forall k v, k = "title" \/ k = "excerpt" -> get r k = Some v ->
        truthy v = true \/ v = VStr "").
Proof.
  unfold transform.
  destruct (embedded_terms _) as [terms|e]; simpl; [|discriminate].
  intros [= <-].
  assert (Hshape : forall current,
             truthy (rendered_or_self current) = true
             \/ rendered_or_self current = VStr "").
  { intros current. unfold rendered_or_self.
    set (t := match current with
              | Some t => if truthy t then t else VStr ""
              | None => VStr ""
              end).
    assert (Ht : truthy t = true \/ t = VStr "").
    { subst t. destruct current as [t|]; [|now right].
      destruct (truthy t) eqn:E; [now left|now right]. }
    destruct (field t "rendered") as [rd|]; [|exact Ht].
    destruct (truthy rd) eqn:E; [now left|exact Ht]. }
  split.
  { intros k H1 H2 _ H3. now rewrite !get_put_other by congruence. }
  split; [now get_put|].
  split; [now get_put|].
  intros k v [-> | ->]; get_put; intros [= <-]; apply Hshape.
Qed.

(** X3 on the example item. *)
Lemma transform_frame_example :
  exists r,
    transform example_item = Ok r
    /\ get r "id" = Some (VNum 1)
    /\ get r "title" = Some (VStr "Hi")
    /\ get r "excerpt" = Some (VStr "").
Proof.
  eexists. split; [reflexivity|].
  pose proof (transform_frame
           [ ("id", VNum 1);
             ("title", VObj [("rendered", VStr "Hi")]);
             ("_embedded",
                VObj [ ("wp:featuredmedia",
                          VArr [VObj [("media_details",
                             VObj [("sizes",
                                VObj [("full", VObj [("source_url", VStr "/full.jpg")]);
                                      ("medium", VObj [("source_url", VStr "/medium.jpg")])])])]]);
                       ("wp:term", VArr [VArr []; VArr [example_tag]]) ]) ]
           _ eq_refl) as (Hframe & Htitle & Hexcerpt & _).
  split; [|split; assumption].
  rewrite Hframe by discriminate. reflexivity.
Defined.

Lemma rendered_or_self_settled (current : option value) :
  settles current = true ->
  rendered_or_self (Some (rendered_or_self current)) = rendered_or_self current.
Proof.
  unfold settles. intros Hs. apply negb_true_iff in Hs.
  set (T := rendered_or_self current) in *.
  assert (HT : truthy T = true \/ T = VStr "").
  { subst T. unfold rendered_or_self.
    set (t := match current with
              | Some t => if truthy t then t else VStr ""
              | None => VStr ""
              end).
    assert (Ht : truthy t = true \/ t = VStr "").
    { subst t. destruct current as [t|]; [|now right].
      destruct (truthy t) eqn:E; [now left|now right]. }
    destruct (field t "rendered") as [rd|]; [|exact Ht].
    destruct (truthy rd) eqn:E; [now left|exact Ht]. }
  unfold rendered_or_self at 1.
  destruct HT as [HT|HT].
  - rewrite HT. destruct (field T "rendered") as [rd|]; [|reflexivity].
    simpl in Hs. now rewrite Hs.
  - rewrite HT. reflexivity.
Qed.

(** X4. [resources] changes the items of [wp_data] in place, and is
    evaluated again on what it left.  When the title and the excerpt have
    settled (the rendered form has no rendered form of its own, as a text
    has none), evaluating it again on a resource gives the same resource. *)
Theorem transform_again (o r : object) :
  transform (VObj o) = Ok r ->
  settles (get o "title") = true ->
  settles (get o "excerpt") = true ->
  transform (VObj r) = Ok r.
Proof.
  unfold transform at 1.
  set (o1 := put o "title" (rendered_or_self (get o "title"))).
  set (o2 := put o1 "excerpt" (rendered_or_self (get o1 "excerpt"))).
  set (o3 := put o2 "terms" (VObj [])).
  destruct (embedded_terms (VObj o3)) as [terms|e] eqn:E; simpl; [|discriminate].
  intros [= <-] Ht He.
  assert (He1 : get o1 "excerpt" = get o "excerpt").
  { subst o1. now get_put. }
  unfold transform.
  assert (H1 : put (put o3 "terms" (VObj terms)) "title"
                 (rendered_or_self (get (put o3 "terms" (VObj terms)) "title"))
               = put o3 "terms" (VObj terms)).
  { apply put_get_id. subst o3 o2 o1. get_put.
    now rewrite rendered_or_self_settled. }
  rewrite H1.
  assert (H2 : put (put o3 "terms" (VObj terms)) "excerpt"
                 (rendered_or_self (get (put o3 "terms" (VObj terms)) "excerpt"))
               = put o3 "terms" (VObj terms)).
  { apply put_get_id. subst o3 o2. get_put. rewrite He1.
    now rewrite rendered_or_self_settled. }
  rewrite H2.
  assert (H3 : put (put o3 "terms" (VObj terms)) "terms" (VObj []) = o3).
  { rewrite put_put_same. subst o3. apply put_put_same. }
  rewrite H3, E. reflexivity.
Qed.

(** X4 on the example item. *)
Lemma transform_again_example :
  exists r,
    (transform example_item = Ok r
     /\ settles (field example_item "title") = true
     /\ settles (field example_item "excerpt") = true)
    /\ transform (VObj r) = Ok r.
Proof.
  eexists. split; [repeat split; reflexivity|].
  exact (transform_again
           [ ("id", VNum 1);
             ("title", VObj [("rendered", VStr "Hi")]);
             ("_embedded",
                VObj [ ("wp:featuredmedia",
                          VArr [VObj [("media_details",
                             VObj [("sizes",
                                VObj [("full", VObj [("source_url", VStr "/full.jpg")]);
                                      ("medium", VObj [("source_url", VStr "/medium.jpg")])])])]]);
                       ("wp:term", VArr [VArr []; VArr [example_tag]]) ]) ]
           _ eq_refl eq_refl eq_refl).
Defined.

(** An item whose rendered title has a rendered form itself does not
    settle: a second evaluation unwraps it once more. *)
Example transform_again_unwraps :
  let item := [("title", VObj [("rendered", VObj [("rendered", VStr "Hi")])])] in
  exists r r',
    transform (VObj item) = Ok r /\ transform (VObj r) = Ok r' /\ r' <> r.
Proof. do 2 eexists. repeat split. discriminate. Qed.

Lemma get_path_app (x : value) (p q : list string) :
  get_path x (p ++ q)%list
  = match get_path x p with
    | Some y => get_path y q
    | None => None
    end.
Proof.
  revert x. induction p as [|k p IH]; intros x; [reflexivity|].
  simpl. destruct (member x k) as [y|]; [apply IH|reflexivity].
Qed.

(** X5. [getFeaturedImage] gives a truthy [source_url] or [false],
    never another falsy value.  Without a size, with the empty size and
    with a size that the media details do not hold (and that no object
    inherits), it gives what the size [full] gives. *)
Theorem getFeaturedImage_falls_back_to_full (item : value) :
  (forall size v, getFeaturedImage item size = Some v -> truthy v = true)
  /\ getFeaturedImage item None = getFeaturedImage item (Some "full")
  /\ getFeaturedImage item (Some "") = getFeaturedImage item (Some "full")
  /\ (forall requested,
        get_path item ["_embedded"; "wp:featuredmedia"; "0"; "media_details";
                       "sizes"; requested] = None ->
        ~ In requested Object_prototype_members ->
        getFeaturedImage item (Some requested)
        = getFeaturedImage item (Some "full")).
Proof.
  split.
  { intros size v. unfold getFeaturedImage.
    destruct (get_path item _) as [base|]; [|discriminate].
    destruct (truthy base); [|discriminate].
    match goal with
    | |- context [get_path base ?p] => destruct (get_path base p) as [u|]
    end; [|discriminate].
    destruct (truthy u) eqn:E; [|discriminate]. now intros [= <-]. }
  assert (Hfull : forall base,
             (if size_found (member base "sizes") "full" then "full" else "full")
             = "full").
  { intros base. now destruct (size_found _ _). }
  split.
  { unfold getFeaturedImage.
    destruct (get_path item _) as [base|]; [|reflexivity].
    destruct (truthy base); [|reflexivity].
    change ("full" =? "")%string with false. cbv iota. now rewrite Hfull. }
  split.
  { unfold getFeaturedImage.
    destruct (get_path item _) as [base|]; [|reflexivity].
    destruct (truthy base); [|reflexivity].
    change ("full" =? "")%string with false.
    change ("" =? "")%string with true. cbv iota. now rewrite Hfull. }
  intros requested Hnone Hproto.
  unfold getFeaturedImage.
  change ["_embedded"; "wp:featuredmedia"; "0"; "media_details"; "sizes"; requested]
    with (["_embedded"; "wp:featuredmedia"; "0"; "media_details"]
          ++ ["sizes"; requested])%list in Hnone.
  rewrite get_path_app in Hnone.
  destruct (get_path item ["_embedded"; "wp:featuredmedia"; "0"; "media_details"])
    as [base|]; [|reflexivity].
  destruct (truthy base); [|reflexivity].
  change ("full" =? "")%string with false. cbv iota. rewrite Hfull.
  destruct (requested =? "")%string; [reflexivity|].
  assert (Hfound : size_found (member base "sizes") requested = false).
  { simpl in Hnone. unfold size_found.
    destruct (member base "sizes") as [sizes|]; [|reflexivity].
    assert (Hm : member sizes requested = None).
    { now destruct (member sizes requested). }
    destruct sizes; try (now rewrite Hm).
    simpl in Hm. unfold read. rewrite Hm.
    destruct (existsb (String.eqb requested) Object_prototype_members) eqn:E;
      [|reflexivity].
    apply existsb_exists in E as (x & Hin & Hx).
    apply String.eqb_eq in Hx. now subst x. }
  now rewrite Hfound.
Qed.

(** X5 on the example item: the size thumbnail is not there. *)
Lemma getFeaturedImage_falls_back_to_full_example :
  (get_path example_item ["_embedded"; "wp:featuredmedia"; "0"; "media_details";
                          "sizes"; "thumbnail"] = None
   /\ ~ In "thumbnail" Object_prototype_members)
  /\ getFeaturedImage example_item (Some "thumbnail") = Some (VStr "/full.jpg")
  /\ getFeaturedImage example_item (Some "medium") = Some (VStr "/medium.jpg").
Proof.
  assert (Hmember : ~ In "thumbnail" Object_prototype_members).
  { simpl. intros H. repeat destruct H as [H|H]; try discriminate; exact H. }
  split; [split; [reflexivity|exact Hmember]|].
  split; [|reflexivity].
  destruct (getFeaturedImage_falls_back_to_full example_item) as (_ & _ & _ & H).
  rewrite (H "thumbnail" eq_refl Hmember). reflexivity.
Defined.

(** A size named like a member that every object inherits is found, has
    no [source_url], and the size [full] is not tried. *)
Example getFeaturedImage_inherited_size :
  getFeaturedImage example_item (Some "constructor") = None
  /\ getFeaturedImage example_item (Some "full") = Some (VStr "/full.jpg").
Proof. split; reflexivity. Qed.

Lemma traverse_length {A B} (f : A -> result B) (l : list A) (rs : list B) :
  traverse f l = Ok rs -> List.length rs = List.length l.
Proof.
  revert rs. induction l as [|x l IH]; intros rs; simpl.
  - now intros [= <-].
  - destruct (f x) as [y|e]; simpl; [|discriminate].
    destruct (traverse f l) as [ys|e]; simpl; [|discriminate].
    intros [= <-]. simpl. now rewrite (IH ys).
Qed.

Lemma traverse_Forall {A B} (f : A -> result B) (P : B -> Prop) (l : list A)
    (rs : list B) :
  (forall x y, f x = Ok y -> P y) -> traverse f l = Ok rs -> Forall P rs.
Proof.
  intros Hf. revert rs. induction l as [|x l IH]; intros rs; simpl.
  - intros [= <-]. constructor.
  - destruct (f x) as [y|e] eqn:E; simpl; [|discriminate].
    destruct (traverse f l) as [ys|e]; simpl; [|discriminate].
    intros [= <-]. constructor; [now apply (Hf x)|now apply IH].
Qed.

Lemma traverse_throws {A B} (f : A -> result B) (l : list A) (x : A) (e : js_error) :
  In x l -> f x = Throw e -> exists e', traverse f l = Throw e'.
Proof.
  intros Hin Hx. induction l as [|y l IH]; [contradiction|].
  simpl. destruct Hin as [->|Hin].
  - rewrite Hx. simpl. eauto.
  - destruct (f y) as [r|e0]; simpl; [|eauto].
    destruct (IH Hin) as [e' ->]. simpl. eauto.
Qed.

(** X6. On an array of items, [resources] gives one resource for each
    item, each with a title, an excerpt and an object of terms; an item that
    is [null], a number, a text or a boolean makes the whole evaluation
    throw, whatever the other items are; an array as an item does not. *)
Theorem resources_of_array (items : list value) :
  (forall rs, resources (VArr items) = Ok rs ->
     List.length rs = List.length items
     /\ Forall (fun r => exists title excerpt terms,
                  get r "title" = Some title /\ get r "excerpt" = Some excerpt
                  /\ get r "terms" = Some (VObj terms)) rs)
  /\ (forall item, In item items ->
        (forall o, item <> VObj o) -> (forall elements, item <> VArr elements) ->
        exists e, resources (VArr items) = Throw e)
  /\ (Forall (fun item => exists elements, item = VArr elements) items ->
      exists rs, resources (VArr items) = Ok rs).
Proof.
  split; [|split].
  - intros rs H. simpl in H. split; [now apply traverse_length in H|].
    refine (traverse_Forall transform _ items rs _ H).
    intros x r Hx. destruct x as [| | | |elements|o]; try discriminate.
    + injection Hx as <-. do 3 eexists. repeat split; now get_put.
    + unfold transform in Hx.
      destruct (embedded_terms _) as [terms|e]; simpl in Hx; [|discriminate].
      injection Hx as <-. do 3 eexists. repeat split; now get_put.
  - intros item Hin Hobj Harr. simpl.
    assert (exists e, transform item = Throw e) as [e He].
    { destruct item as [| | | |elements|o]; simpl; eauto.
      - now destruct (Harr elements).
      - now destruct (Hobj o). }
    exact (traverse_throws transform items item e Hin He).
  - intros Hall. simpl. induction Hall as [|item items [elements ->] _ [rs IH]].
    + now exists [].
    + simpl. rewrite IH. simpl. eauto.
Qed.

(** X6 on a response that holds the example item and [null]. *)
Lemma resources_of_array_example :
  (In VNull [example_item; VNull] /\ (forall o, VNull <> VObj o)
   /\ forall elements, VNull <> VArr elements)
  /\ exists e, resources (VArr [example_item; VNull]) = Throw e.
Proof.
  assert (Hin : In VNull [example_item; VNull]) by (right; now left).
  assert (Hobj : forall o, VNull <> VObj o) by discriminate.
  assert (Harr : forall elements, VNull <> VArr elements) by discriminate.
  split; [repeat split; assumption|].
  exact (proj1 (proj2 (resources_of_array [example_item; VNull]))
           VNull Hin Hobj Harr).
Defined.

(** An array as an item comes back with an empty title. *)
Example resources_of_array_item :
  exists r,
    resources (VArr [VArr [VNum 7]]) = Ok [r]
    /\ get r "0" = Some (VNum 7) /\ get r "title" = Some (VStr "")
    /\ get r "terms" = Some (VObj []).
Proof. eexists. repeat split. Qed.

(** ** PaginationWindower: the shape of the sequence *)

(** X7 at page 15 of 20. *)
Lemma pages_window_example :
  (10 < 20 /\ 1 <= 15 <= 20)
  /\ exists start_page,
       1 <= start_page /\ start_page + 8 <= 20
       /\ start_page <= 15 <= start_page + 8
       /\ hd_error (pages 20 15) = Some (Page 1)
       /\ last (pages 20 15) Hellip = Page 20
       /\ incl (map Page (range start_page (start_page + 9))) (pages 20 15).
Proof.
  split; [lia|].
  apply (pages_window 20 15); lia.
Defined.

Lemma range_up (a : Z) (n : nat) :
  range a (a + Z.of_nat n) = map (fun i => a + Z.of_nat i) (seq 0 n).
Proof.
  unfold range. destruct (Z.ltb_spec a (a + Z.of_nat n)) as [H|H].
  - f_equal. f_equal. lia.
  - assert (n = O) by lia. subst n. simpl.
    replace (a - (a + 0)) with 0 by lia. reflexivity.
Qed.

Lemma spaced_run (n s : nat) (a : Z) (tail : list page_token) :
  spaced (a + Z.of_nat s - 1) false
    (map (fun i => Page (a + Z.of_nat i)) (seq s n) ++ tail)%list
  = spaced (a + Z.of_nat (s + n) - 1) false tail.
Proof.
  revert s. induction n as [|n IH]; intros s.
  - cbn [seq map app]. now rewrite Nat.add_0_r.
  - cbn [seq map app spaced].
    replace (a + Z.of_nat s =? a + Z.of_nat s - 1 + 1) with true
      by (symmetry; apply Z.eqb_eq; lia).
    cbn [andb]. specialize (IH (S s)).
    replace (a + Z.of_nat (S s) - 1) with (a + Z.of_nat s) in IH by lia.
    rewrite IH. f_equal. lia.
Qed.

(** A run of consecutive pages is read through. *)
Lemma spaced_range (a b : Z) (tail : list page_token) :
  a <= b ->
  spaced (a - 1) false (map Page (range a b) ++ tail)%list
  = spaced (b - 1) false tail.
Proof.
  intros H. replace b with (a + Z.of_nat (Z.to_nat (b - a))) at 1 by lia.
  rewrite range_up, map_map.
  pose proof (spaced_run (Z.to_nat (b - a)) 0 a tail) as Hrun.
  replace (a + Z.of_nat 0 - 1) with (a - 1) in Hrun by lia.
  rewrite Hrun. f_equal. lia.
Qed.

Lemma range_last (a b : Z) (d : Z) :
  a < b -> last (range a b) d = b - 1.
Proof.
  intros H. replace b with (a + Z.of_nat (S (Z.to_nat (b - a - 1)))) at 1 by lia.
  rewrite range_up, seq_S, map_app. cbn [map]. rewrite last_last. lia.
Qed.

Lemma range_bounds (a b n : Z) :
  In n (range a b) -> a <= b -> a <= n < b.
Proof.
  intros Hin H. replace b with (a + Z.of_nat (Z.to_nat (b - a))) in Hin by lia.
  rewrite range_up in Hin. apply in_map_iff in Hin as (i & <- & Hi).
  apply in_seq in Hi. lia.
Qed.

Lemma spaced_after (l : list page_token) (prev : Z) (gap : bool) (n : Z) :
  spaced prev gap l = true -> In (Page n) l -> prev < n.
Proof.
  revert prev gap. induction l as [|[m|] l IH]; intros prev gap H Hin;
    [contradiction| |].
  - simpl in H. apply andb_true_iff in H as [Hm Hrest].
    assert (prev < m).
    { destruct gap; [apply Z.ltb_lt in Hm|apply Z.eqb_eq in Hm]; lia. }
    destruct Hin as [[= ->]|Hin]; [assumption|].
    specialize (IH m false Hrest Hin). lia.
  - simpl in H. apply andb_true_iff in H as [_ Hrest].
    destruct Hin as [Hin|Hin]; [discriminate|].
    exact (IH prev true Hrest Hin).
Qed.

Lemma last_In {A} (l : list A) (d : A) : l <> [] -> In (last l d) l.
Proof.
  induction l as [|x l IH]; [congruence|]. intros _.
  destruct l as [|y l]; [now left|]. right. apply IH. discriminate.
Qed.

Lemma spaced_before (l : list page_token) (prev : Z) (gap : bool) (n m : Z) :
  spaced prev gap l = true -> last l Hellip = Page m -> In (Page n) l -> n <= m.
Proof.
  revert prev gap. induction l as [|[k|] l IH]; intros prev gap H Hlast Hin;
    [contradiction| |].
  - simpl in H. apply andb_true_iff in H as [_ Hrest].
    destruct l as [|x l].
    + simpl in Hlast. injection Hlast as <-.
      destruct Hin as [[= ->]|[]]. lia.
    + change (last (Page k :: x :: l) Hellip) with (last (x :: l) Hellip) in Hlast.
      destruct Hin as [[= ->]|Hin].
      * assert (Hm : In (Page m) (x :: l)).
        { rewrite <- Hlast. apply last_In. discriminate. }
        pose proof (spaced_after _ _ _ _ Hrest Hm). lia.
      * exact (IH k false Hrest Hlast Hin).
  - simpl in H. apply andb_true_iff in H as [_ Hrest].
    destruct Hin as [Hin|Hin]; [discriminate|].
    destruct l as [|x l]; [contradiction|].
    exact (IH prev true Hrest Hlast Hin).
Qed.

Lemma last_pages (l : list Z) (d : Z) :
  l <> [] -> last (map Page l) Hellip = Page (last l d).
Proof.
  induction l as [|x l IH]; [congruence|]. intros _.
  destruct l as [|y l]; [reflexivity|].
  change (last (map Page (x :: y :: l)) Hellip) with (last (map Page (y :: l)) Hellip).
  change (last (x :: y :: l) d) with (last (y :: l) d).
  apply IH. discriminate.
Qed.

Lemma range_not_nil (a b : Z) : a < b -> range a b <> [].
Proof.
  intros H. replace b with (a + Z.of_nat (S (Z.to_nat (b - a - 1)))) by lia.
  rewrite range_up. discriminate.
Qed.

Lemma last_snoc2 {A} (l : list A) (x y d : A) : last (l ++ [x; y]) d = y.
Proof.
  change [x; y] with ([x] ++ [y])%list. now rewrite List.app_assoc, last_last.
Qed.

(** A run of consecutive pages after an ellipsis that hides pages. *)
Lemma spaced_range_gap (prev a b : Z) (tail : list page_token) :
  prev + 1 < a -> a < b ->
  spaced prev true (map Page (range a b) ++ tail)%list
  = spaced (b - 1) false tail.
Proof.
  intros Hgap Hab.
  rewrite <- (spaced_range a b tail) by lia.
  replace b with (a + Z.of_nat (S (Z.to_nat (b - a - 1)))) by lia.
  rewrite range_up. cbn [seq map app spaced].
  replace (prev + 1 <? a + Z.of_nat 0) with true
    by (symmetry; apply Z.ltb_lt; lia).
  replace (a + Z.of_nat 0 =? a - 1 + 1) with true
    by (symmetry; apply Z.eqb_eq; lia).
  reflexivity.
Qed.

Ltac spaced_tail :=
  cbn [spaced negb andb app];
  repeat match goal with
         | |- context [?a <? ?b] =>
             replace (a <? b) with true by (symmetry; apply Z.ltb_lt; lia)
         | |- context [?a =? ?b] =>
             replace (a =? b) with true by (symmetry; apply Z.eqb_eq; lia)
         end;
  reflexivity.

Lemma last_after_pages (l : list Z) (front : list page_token) :
  l <> [] -> last (front ++ map Page l) Hellip = Page (last l 0).
Proof.
  intros Hne. induction front as [|x front IH].
  - now apply last_pages.
  - cbn [app]. destruct (front ++ map Page l)%list eqn:E.
    + destruct front; [destruct l; [congruence|discriminate]|discriminate].
    + exact IH.
Qed.

Lemma range_head (a b : Z) : a < b -> hd_error (range a b) = Some a.
Proof.
  intros H. replace b with (a + Z.of_nat (S (Z.to_nat (b - a - 1)))) by lia.
  rewrite range_up. cbn [seq map hd_error]. f_equal. lia.
Qed.

Lemma pages_spaced_last (total_pages pagenum : Z) :
  0 < total_pages ->
  spaced 0 false (pages total_pages pagenum) = true
  /\ hd_error (pages total_pages pagenum) = Some (Page 1)
  /\ last (pages total_pages pagenum) Hellip = Page total_pages.
Proof.
  intros Ht. unfold pages.
  destruct (Z.eqb_spec total_pages 0); [lia|].
  destruct (Z.leb_spec total_pages 10) as [Hsmall|Hbig].
  { split; [|split].
    - rewrite <- (List.app_nil_r (map Page _)).
      change 0 with (1 - 1). rewrite spaced_range by lia. reflexivity.
    - pose proof (range_head 1 (total_pages + 1) ltac:(lia)) as Hh.
      destruct (range 1 (total_pages + 1)); [discriminate|].
      injection Hh as ->. reflexivity.
    - rewrite (last_pages _ 0) by (apply range_not_nil; lia).
      rewrite range_last by lia. f_equal. lia. }
  assert (Hlow : spaced 0 false
                   (map Page (range 1 10) ++ [Hellip; Page total_pages])%list = true
                 /\ hd_error (map Page (range 1 10) ++ [Hellip; Page total_pages])%list
                    = Some (Page 1)
                 /\ last (map Page (range 1 10) ++ [Hellip; Page total_pages])%list
                      Hellip = Page total_pages).
  { split; [|split; [reflexivity|apply last_snoc2]].
    rewrite (spaced_range 1 10) by lia. spaced_tail. }
  assert (Hhigh : spaced 0 false
                    ([Page 1; Hellip]
                     ++ map Page (range (total_pages - 8) (total_pages + 1)))%list = true
                  /\ hd_error
                       ([Page 1; Hellip]
                        ++ map Page (range (total_pages - 8) (total_pages + 1)))%list
                     = Some (Page 1)
                  /\ last ([Page 1; Hellip]
                           ++ map Page (range (total_pages - 8) (total_pages + 1)))%list
                       Hellip = Page total_pages).
  { split; [|split; [reflexivity|]].
    - rewrite <- (List.app_nil_r (map Page _)).
      cbn [spaced negb andb app].
      rewrite spaced_range_gap by lia. reflexivity.
    - rewrite last_after_pages by (apply range_not_nil; lia).
      rewrite range_last by lia. f_equal. lia. }
  destruct (Z.geb_spec 4 pagenum) as [H4|H4].
  { replace (pagenum - (pagenum - 1)) with 1 by lia.
    replace (pagenum + (4 + (4 - (pagenum - 1))) + 1) with 10 by lia.
    exact Hlow. }
  destruct (Z.gtb_spec (pagenum + 4) total_pages) as [Hov|Hov].
  { replace (pagenum - (4 + (4 - (total_pages - pagenum)))) with (total_pages - 8) by lia.
    replace (pagenum + (total_pages - pagenum)) with total_pages by lia.
    destruct (Z.eqb_spec (total_pages - 8) 1); [lia|].
    rewrite Z.eqb_refl. exact Hhigh. }
  destruct (Z.eqb_spec (pagenum - 4) 1) as [Hstart|Hstart].
  { replace pagenum with 5 by lia. exact Hlow. }
  destruct (Z.eqb_spec (pagenum + 4) total_pages) as [Hend|Hend].
  { replace (pagenum - 4) with (total_pages - 8) by lia.
    replace (pagenum + 4 + 1) with (total_pages + 1) by lia.
    exact Hhigh. }
  split; [|split; [|now rewrite last_last]].
  2: now destruct (negb (pagenum + 4 =? total_pages - 1)).
  destruct (Z.eqb_spec (pagenum - 4) 2) as [H2|H2];
    destruct (Z.eqb_spec (pagenum + 4) (total_pages - 1)) as [Hl|Hl];
    cbn [negb]; rewrite <- ?List.app_assoc; cbn [app spaced andb negb];
    replace (1 =? 0 + 1) with true by reflexivity; cbn [andb].
  - replace 1 with (pagenum - 4 - 1) at 1 by lia.
    rewrite spaced_range by lia. spaced_tail.
  - replace 1 with (pagenum - 4 - 1) at 1 by lia.
    rewrite spaced_range by lia. spaced_tail.
  - rewrite spaced_range_gap by lia. spaced_tail.
  - rewrite spaced_range_gap by lia. spaced_tail.
Qed.

(** X8. Whatever the current page, the sequence of a listing of at least
    one page reads as the row of its pages: it starts at page 1 and ends at
    the last page, a page number follows its predecessor directly or after
    an ellipsis that stands for at least one page, no ellipsis follows
    another, and every page number lies between 1 and the last page. *)
Theorem pages_spaced (total_pages pagenum : Z) :
  0 < total_pages ->
  spaced 0 false (pages total_pages pagenum) = true
  /\ hd_error (pages total_pages pagenum) = Some (Page 1)
  /\ last (pages total_pages pagenum) Hellip = Page total_pages
  /\ (forall n, In (Page n) (pages total_pages pagenum) -> 1 <= n <= total_pages).
Proof.
  intros Ht. destruct (pages_spaced_last total_pages pagenum Ht) as (Hs & Hh & Hl).
  split; [exact Hs|]. split; [exact Hh|]. split; [exact Hl|].
  intros n Hin. split.
  - pose proof (spaced_after _ _ _ _ Hs Hin). lia.
  - exact (spaced_before _ _ _ _ _ Hs Hl Hin).
Qed.

(** X8 at page 7 of 20: both ellipses are there. *)
Lemma pages_spaced_example :
  0 < 20
  /\ pages 20 7
     = [Page 1; Hellip; Page 3; Page 4; Page 5; Page 6; Page 7; Page 8; Page 9;
        Page 10; Page 11; Hellip; Page 20]
  /\ spaced 0 false (pages 20 7) = true.
Proof.
  split; [lia|]. split; [reflexivity|].
  apply (pages_spaced 20 7). lia.
Defined.

(** ** Taxonomy terms: [removeTerms] *)

Lemma filter_absent (t : Z) (items : list value) :
  ~ In (VNum t) items -> filter (fun x => negb (is_num t x)) items = items.
Proof.
  induction items as [|x items IH]; intros Hn; [reflexivity|].
  simpl. destruct (is_num t x) eqn:E.
  - exfalso. apply Hn. left. destruct x; try discriminate.
    simpl in E. apply Z.eqb_eq in E. now subst.
  - simpl. rewrite IH; [reflexivity|]. intros Hin. apply Hn. now right.
Qed.

Lemma remove_first_absent (t : Z) (items : list value) :
  ~ In (VNum t) items -> remove_first t items = items.
Proof.
  induction items as [|x items IH]; intros Hn; [reflexivity|].
  simpl. destruct (is_num t x) eqn:E.
  - exfalso. apply Hn. left. destruct x; try discriminate.
    simpl in E. apply Z.eqb_eq in E. now subst.
  - rewrite IH; [reflexivity|]. intros Hin. apply Hn. now right.
Qed.

(** On a list without duplicates, removing the first occurrence removes
    every occurrence. *)
Lemma remove_first_filter (t : Z) (items : list value) :
  NoDup items ->
  remove_first t items = filter (fun x => negb (is_num t x)) items.
Proof.
  induction 1 as [|x items Hx Hnd IH]; [reflexivity|].
  simpl. destruct (is_num t x) eqn:E; simpl.
  - destruct x; try discriminate. simpl in E. apply Z.eqb_eq in E. subst.
    now rewrite filter_absent.
  - now rewrite IH.
Qed.

Lemma filter_filter {A} (f g : A -> bool) (l : list A) :
  filter g (filter f l) = filter (fun x => f x && g x) l.
Proof.
  induction l as [|x l IH]; [reflexivity|].
  simpl. destruct (f x); simpl; [destruct (g x)|]; now rewrite IH.
Qed.

Lemma fold_remove_term (ts : list Z) (items : list value) :
  NoDup items ->
  fold_left (fun acc t => cur <- acc ;; remove_term cur t) ts
    (Ok (Some (VArr items)))
  = Ok (Some (VArr (filter (fun x => negb (existsb (fun t => is_num t x) ts))
                      items))).
Proof.
  revert items. induction ts as [|t ts IH]; intros items Hnd.
  - simpl. rewrite filter_all; [reflexivity|].
    apply forallb_forall. reflexivity.
  - simpl fold_left. cbn [bind remove_term].
    rewrite remove_first_filter by exact Hnd.
    rewrite IH by now apply NoDup_filter.
    rewrite filter_filter. do 3 f_equal. apply filter_ext.
    intros x. simpl. now rewrite negb_orb.
Qed.



(** With a duplicate in the list, one occurrence of a removed ID stays. *)
Example removeTerms_leaves_duplicate :
  let s := with_params (put (params example_state) "category"
                          (VArr [VNum 5; VNum 5])) example_state in
  exists s',
    removeTerms "category" (OneTerm 5) s = Ok s'
    /\ get (params s') "category" = Some (VArr [VNum 5]).
Proof. eexists. split; reflexivity. Qed.

Lemma filter_new_terms (ts : list Z) (items : list value) :
  NoDup items ->
  (forall t, In t ts -> ~ In (VNum t) items) ->
  filter (fun x => negb (existsb (fun t => is_num t x) ts))
    (items ++ map VNum (new_terms items ts))%list
  = items.
Proof.
  intros Hnd Habsent. rewrite filter_app.
  assert (Hkeep : filter (fun x => negb (existsb (fun t => is_num t x) ts)) items
                  = items).
  { apply filter_all. apply forallb_forall. intros x Hx. apply negb_true_iff.
    destruct (existsb (fun t => is_num t x) ts) eqn:E; [|reflexivity].
    apply existsb_exists in E as (t & Ht & Hnum).
    destruct x; try discriminate. simpl in Hnum. apply Z.eqb_eq in Hnum. subst.
    now destruct (Habsent t Ht). }
  rewrite Hkeep.
  assert (Hdrop : filter (fun x => negb (existsb (fun t => is_num t x) ts))
                    (map VNum (new_terms items ts)) = []).
  { assert (Hall : forall t, In t (new_terms items ts) -> In t ts).
    { intros t Ht. now apply new_terms_spec in Ht. }
    induction (new_terms items ts) as [|t l IH]; [reflexivity|].
    cbn [map filter].
    assert (E : existsb (fun t0 => is_num t0 (VNum t)) ts = true).
    { apply existsb_exists. exists t. split; [apply Hall; now left|].
      simpl. apply Z.eqb_refl. }
    rewrite E. cbn [negb]. apply IH. intros t' Ht'. apply Hall. now right. }
  rewrite Hdrop. apply List.app_nil_r.
Qed.

(** X10. [removeTerms] undoes [addTerms]: on a list without duplicates
    that holds none of the given IDs, adding them and then removing them
    leaves the component as it was. *)
Theorem removeTerms_undoes_addTerms
    (taxonomy : string) (terms : terms_arg) (s : state) (items : list value) :
  get (params s) taxonomy = Some (VArr items) ->
  NoDup items ->
  (forall t, In t (as_array terms) -> ~ In (VNum t) items) ->
  exists s',
    addTerms taxonomy terms s = Ok s'
    /\ removeTerms taxonomy terms s' = Ok s.
Proof.
  intros Hget Hnd Habsent. eexists. unfold addTerms at 1.
  rewrite Hget, fold_add_term. simpl. split; [reflexivity|].
  unfold removeTerms. simpl params. rewrite get_put_same.
  rewrite fold_remove_term by now apply new_terms_NoDup.
  rewrite filter_new_terms by assumption. simpl.
  rewrite put_put_same, (put_get_id _ _ _ Hget).
  now destruct s.
Qed.

(** X10 on the example: 7 and 9 are added to 3, 5 and removed again. *)
Lemma removeTerms_undoes_addTerms_example :
  let s := with_params (put (params example_state) "category"
                          (VArr [VNum 3; VNum 5])) example_state in
  exists s',
    addTerms "category" (ManyTerms [7; 9; 7]) s = Ok s'
    /\ removeTerms "category" (ManyTerms [7; 9; 7]) s' = Ok s.
Proof.
  assert (Hnd : NoDup [VNum 3; VNum 5]).
  { repeat constructor; simpl; intros H; repeat destruct H as [H|H];
      try discriminate; exact H. }
  assert (Habsent : forall t, In t [7; 9; 7] -> ~ In (VNum t) [VNum 3; VNum 5]).
  { intros t Ht Hin. simpl in Ht, Hin.
    repeat destruct Ht as [Ht|Ht]; try contradiction; subst;
      repeat destruct Hin as [Hin|Hin]; try discriminate; exact Hin. }
  exact (removeTerms_undoes_addTerms "category" (ManyTerms [7; 9; 7])
           (with_params (put (params example_state) "category"
                           (VArr [VNum 3; VNum 5])) example_state)
           [VNum 3; VNum 5] eq_refl Hnd Habsent).
Defined.

(** An ID that the list held before is gone after adding and removing it. *)
Example removeTerms_after_addTerms_of_present :
  let s := with_params (put (params example_state) "category"
                          (VArr [VNum 3; VNum 5])) example_state in
  exists s1 s2,
    addTerms "category" (OneTerm 5) s = Ok s1
    /\ removeTerms "category" (OneTerm 5) s1 = Ok s2
    /\ get (params s2) "category" = Some (VArr [VNum 3]).
Proof. do 2 eexists. repeat split. Qed.

Lemma fold_throw {A B} (f : result A -> B -> result A) (l : list B) (e : js_error) :
  (forall b, f (Throw e) b = Throw e) -> fold_left f l (Throw e) = Throw e.
Proof.
  intros Hf. induction l as [|b l IH]; [reflexivity|]. simpl. now rewrite Hf.
Qed.

(** X11. A taxonomy has to be there before terms are added or removed:
    on a taxonomy that [params] does not hold, [addTerms] and [removeTerms]
    throw a TypeError as soon as one term is given; once [resetTerms] was
    called on the taxonomy, both return. *)
Theorem terms_of_missing_taxonomy
    (taxonomy : string) (terms : terms_arg) (s : state) :
  get (params s) taxonomy = None ->
  as_array terms <> [] ->
  addTerms taxonomy terms s = Throw TypeError
  /\ removeTerms taxonomy terms s = Throw TypeError
  /\ (taxonomy <> "__proto__" ->
      forall s0, resetTerms taxonomy s = Ok s0 ->
      exists s1, addTerms taxonomy terms s0 = Ok s1
                 /\ removeTerms taxonomy terms s0 = Ok s0).
Proof.
  intros Hget Hne. split; [|split].
  - unfold addTerms. rewrite Hget.
    destruct (as_array terms) as [|t ts]; [congruence|].
    simpl fold_left. cbn [bind add_term].
    now rewrite fold_throw.
  - unfold removeTerms. rewrite Hget.
    destruct (as_array terms) as [|t ts]; [congruence|].
    simpl fold_left. cbn [bind remove_term].
    now rewrite fold_throw.
  - intros Hproto s0 [= <-]. unfold addTerms, removeTerms, assign.
    destruct (String.eqb_spec taxonomy "__proto__") as [|_]; [contradiction|].
    cbn [params with_params]. rewrite get_put_same.
    rewrite fold_add_term, fold_remove_term by constructor.
    simpl. eexists. split; [reflexivity|].
    rewrite put_put_same. reflexivity.
Qed.

(** X11 on the example: the configuration names no taxonomy [tags]. *)
Lemma terms_of_missing_taxonomy_example :
  (get (params example_state) "tags" = None /\ as_array (OneTerm 4) <> [])
  /\ addTerms "tags" (OneTerm 4) example_state = Throw TypeError
  /\ removeTerms "tags" (OneTerm 4) example_state = Throw TypeError.
Proof.
  assert (Hne : as_array (OneTerm 4) <> []) by discriminate.
  split; [split; [reflexivity|exact Hne]|].
  destruct (terms_of_missing_taxonomy "tags" (OneTerm 4) example_state
              eq_refl Hne) as (H1 & H2 & _).
  split; assumption.
Defined.

(** ** Order *)

(** X12. [toggleOrder] never throws: it leaves [desc] when the order was
    [asc] and [asc] in every other case, and touches no other parameter;
    when the order was one of the two directions, a second call leaves the
    component as it was. *)
Theorem toggleOrder_flips (s : state) :
  exists s',
    toggleOrder s = Ok s'
    /\ get (params s') "order"
       = Some (VStr (if is_str "asc" (get (params s) "order") then "desc" else "asc"))
    /\ (forall k, k <> "order" -> get (params s') k = get (params s) k)
    /\ (order_ok (params s) -> toggleOrder s' = Ok s).
Proof.
  unfold toggleOrder at 1, setOrder.
  destruct (is_str "asc" (get (params s) "order")) eqn:E; simpl;
    eexists; (split; [reflexivity|]); cbn [params with_params];
    (split; [apply get_put_same|]);
    (split; [intros k Hk; apply get_put_other; congruence|]);
    intros [Ho|Ho]; rewrite Ho in E; try discriminate;
    unfold toggleOrder, setOrder; cbn [params with_params];
    rewrite get_put_same; simpl;
    rewrite put_put_same, (put_get_id _ _ _ Ho); now destruct s.
Qed.

(** X12 on the example state, ordered downwards. *)
Lemma toggleOrder_flips_example :
  exists s',
    toggleOrder example_state = Ok s'
    /\ get (params s') "order" = Some (VStr "asc")
    /\ toggleOrder s' = Ok example_state.
Proof.
  destruct (toggleOrder_flips example_state) as (s' & H1 & H2 & _ & H3).
  exists s'. split; [exact H1|]. split; [exact H2|].
  apply H3. right. reflexivity.
Defined.

(** X13. [selectOrderBy] on a column that is not the current one orders
    by it in the default direction ([asc] when none or the empty one is
    given) and throws when the default is no direction; on the current
    column it flips the direction.  [isOrderedBy] tells so. *)
Theorem selectOrderBy_orders (orderby : string) (default_order : option string)
    (s : state) :
  let chosen := match default_order with
                | Some o => if (o =? "")%string then "asc" else o
                | None => "asc"
                end in
  (is_str orderby (get (params s) "orderby") = false ->
   (chosen = "asc" \/ chosen = "desc" ->
    exists s', selectOrderBy orderby default_order s = Ok s'
               /\ isOrderedBy orderby chosen s' = true)
   /\ (chosen <> "asc" -> chosen <> "desc" ->
       selectOrderBy orderby default_order s
       = Throw (Thrown "Order must be either asc or desc")))
  /\ (isOrderedBy orderby "asc" s = true ->
      exists s', selectOrderBy orderby default_order s = Ok s'
                 /\ isOrderedBy orderby "desc" s' = true)
  /\ (is_str orderby (get (params s) "orderby") = true ->
      is_str "asc" (get (params s) "order") = false ->
      exists s', selectOrderBy orderby default_order s = Ok s'
                 /\ isOrderedBy orderby "asc" s' = true).
Proof.
  intros chosen.
  assert (Hset : forall order p,
             is_str orderby (get (put (put p "order" (VStr order)) "orderby"
                                    (VStr orderby)) "orderby")
             && is_str order (get (put (put p "order" (VStr order)) "orderby"
                                     (VStr orderby)) "order") = true).
  { intros order p. get_put. simpl. now rewrite !String.eqb_refl. }
  split; [|split].
  - intros Hother. unfold selectOrderBy. fold chosen. rewrite Hother.
    unfold setOrder, setOrderBy. split.
    + intros Hdir.
      assert (E : negb (chosen =? "asc")%string && negb (chosen =? "desc")%string
                  = false).
      { destruct Hdir as [-> | ->]; reflexivity. }
      rewrite E. simpl. eexists. split; [reflexivity|]. apply Hset.
    + intros Ha Hd.
      destruct (String.eqb_spec chosen "asc"); [contradiction|].
      destruct (String.eqb_spec chosen "desc"); [contradiction|]. reflexivity.
  - unfold isOrderedBy at 1. intros H. apply andb_true_iff in H as [Hby Hasc].
    unfold selectOrderBy, toggleOrder, setOrder, setOrderBy.
    rewrite Hby, Hasc. simpl. eexists. split; [reflexivity|]. apply Hset.
  - intros Hby Hasc.
    unfold selectOrderBy, toggleOrder, setOrder, setOrderBy.
    rewrite Hby, Hasc. simpl. eexists. split; [reflexivity|]. apply Hset.
Qed.

(** X13 on the example state, ordered by date downwards: selecting the
    title orders by title upwards, selecting it again flips the direction. *)
Lemma selectOrderBy_orders_example :
  exists s1 s2,
    selectOrderBy "title" None example_state = Ok s1
    /\ isOrderedBy "title" "asc" s1 = true
    /\ selectOrderBy "title" None s1 = Ok s2
    /\ isOrderedBy "title" "desc" s2 = true.
Proof.
  destruct (selectOrderBy_orders "title" None example_state) as (Hnew & _).
  destruct (Hnew eq_refl) as (Hdir & _).
  destruct (Hdir (or_introl eq_refl)) as (s1 & H1 & H2).
  destruct (selectOrderBy_orders "title" None s1) as (_ & Hflip & _).
  destruct (Hflip H2) as (s2 & H3 & H4).
  exists s1, s2. repeat split; assumption.
Defined.

Section OrderInvariant.

Variable cfg : props.
Variables pathname origin : string.

Lemma order_ok_put_other (p : object) (k : string) (v : value) :
  k <> "order" -> order_ok p -> order_ok (put p k v).
Proof.
  intros Hk. unfold order_ok. now rewrite get_put_other.
Qed.

Lemma order_ok_assign_other (p : object) (k : string) (v : value) :
  k <> "order" -> order_ok p -> order_ok (assign p k v).
Proof.
  intros Hk Hp. unfold assign. destruct (k =? "__proto__")%string;
    [exact Hp|now apply order_ok_put_other].
Qed.

(** The loops of [addTerms] and [removeTerms] leave a text as it is. *)
Lemma fold_terms_on_text
    (f : option value -> Z -> result (option value)) (ts : list Z) (text : string)
    (final : option value) :
  (forall t, f (Some (VStr text)) t = Ok (Some (VStr text))
             \/ f (Some (VStr text)) t = Throw TypeError) ->
  fold_left (fun acc t => cur <- acc ;; f cur t) ts (Ok (Some (VStr text))) = Ok final ->
  final = Some (VStr text).
Proof.
  intros Hf. induction ts as [|t ts IH]; simpl.
  - now intros [= <-].
  - destruct (Hf t) as [-> | ->]; [exact IH|].
    rewrite fold_throw by reflexivity. discriminate.
Qed.

Lemma order_ok_store (p : object) (taxonomy : string)
    (f : option value -> Z -> result (option value)) (ts : list Z)
    (final : option value) :
  (forall text t, f (Some (VStr text)) t = Ok (Some (VStr text))
                  \/ f (Some (VStr text)) t = Throw TypeError) ->
  fold_left (fun acc t => cur <- acc ;; f cur t) ts (Ok (get p taxonomy)) = Ok final ->
  order_ok p -> order_ok (store taxonomy final p).
Proof.
  intros Hf Hfold Hp. destruct (String.eqb_spec taxonomy "order") as [->|Hne].
  - assert (exists text, get p "order" = Some (VStr text)) as [text Ho].
    { destruct Hp as [Ho|Ho]; eauto. }
    rewrite Ho in Hfold. apply fold_terms_on_text in Hfold; [|apply Hf].
    subst final. simpl. rewrite put_get_id by exact Ho. exact Hp.
  - destruct final as [v|]; simpl; [now apply order_ok_put_other|exact Hp].
Qed.

Lemma reset_order_ok (s : state) :
  initial_order cfg = "asc" \/ initial_order cfg = "desc" ->
  ~ In "order" (keys (initial_taxonomies cfg)) ->
  order_ok (params (reset cfg s)).
Proof.
  intros Hdir Hn. unfold order_ok, reset. simpl params.
  rewrite merge_get_other by exact Hn.
  rewrite initialParams_merged_get by discriminate. simpl.
  destruct Hdir as [-> | ->]; [now left|now right].
Qed.

Lemma setOrder_order_ok (order : string) (s s' : state) :
  setOrder order s = Ok s' -> order_ok (params s').
Proof.
  unfold setOrder.
  destruct (String.eqb_spec order "asc") as [->|Ha]; simpl.
  - intros [= <-]. left. apply get_put_same.
  - destruct (String.eqb_spec order "desc") as [->|Hd]; simpl; [|discriminate].
    intros [= <-]. right. apply get_put_same.
Qed.

Lemma perform_order (c : call) (s s' : state) :
  perform cfg c s = Ok s' ->
  keeps_order_valid cfg (Call c) ->
  order_ok (params s) -> order_ok (params s').
Proof.
  destruct c; simpl; intros Hcall Hsafe Hp.
  - injection Hcall as <-. simpl. now apply order_ok_put_other.
  - injection Hcall as <-. simpl. now apply order_ok_put_other.
  - injection Hcall as <-. simpl. now apply order_ok_assign_other.
  - unfold addTerms in Hcall.
    destruct (fold_left _ _ _) as [final|] eqn:E; simpl in Hcall; [|discriminate].
    injection Hcall as <-. simpl. eapply order_ok_store; [|exact E|exact Hp].
    intros text t. simpl. destruct (index 0 (string_of_Z t) text); auto.
  - unfold removeTerms in Hcall.
    destruct (fold_left _ _ _) as [final|] eqn:E; simpl in Hcall; [|discriminate].
    injection Hcall as <-. simpl. eapply order_ok_store; [|exact E|exact Hp].
    intros text t. simpl. destruct (index 0 (string_of_Z t) text); auto.
  - injection Hcall as <-. simpl. now apply order_ok_assign_other.
  - now apply setOrder_order_ok in Hcall.
  - injection Hcall as <-. simpl. now apply order_ok_put_other.
  - unfold selectOrderBy, toggleOrder, setOrderBy in Hcall.
    match type of Hcall with
    | bind ?r _ = _ => destruct r as [s1|] eqn:E
    end; simpl in Hcall; [|discriminate].
    injection Hcall as <-. simpl. apply order_ok_put_other; [discriminate|].
    destruct (is_str orderby _); [destruct (is_str "asc" _)|];
      now apply setOrder_order_ok in E.
  - unfold toggleOrder in Hcall.
    destruct (is_str "asc" _); now apply setOrder_order_ok in Hcall.
  - unfold setMetaFilter in Hcall.
    destruct (get (params s) "meta_query") as [[]|]; try discriminate;
      injection Hcall as <-; [exact Hp|]. simpl. now apply order_ok_put_other.
  - unfold removeMetaFilter in Hcall.
    destruct (get (params s) "meta_query") as [[]|]; try discriminate;
      injection Hcall as <-; try exact Hp. simpl. now apply order_ok_put_other.
  - discriminate.
  - injection Hcall as <-. destruct Hsafe. now apply (reset_order_ok s).
Qed.

Lemma step_order (e : event) (s : state) :
  keeps_order_valid cfg e ->
  order_ok (params s) -> order_ok (params (step cfg pathname origin e s)).
Proof.
  intros Hsafe Hp. destruct e as [c|[snap|]| |o]; unfold step; cbv beta iota.
  - destruct (perform cfg c s) as [s'|] eqn:E; [|exact Hp].
    eapply perform_order; eassumption.
  - exact Hsafe.
  - destruct Hsafe. now apply (reset_order_ok s).
  - unfold order_ok. rewrite handler_params by discriminate.
    destruct (page_updated s); [exact Hp|].
    rewrite get_put_other by discriminate. exact Hp.
  - destruct o; simpl; try exact Hp. now destruct (is_initial_load s).
Qed.

(** X14. The order keeps a direction: [setOrder] accepts nothing but
    [asc] and [desc], so in a run whose events cannot bring another value in
    ([keeps_order_valid]: no taxonomy called order is set or reset, the
    snapshots restored and the configuration carry a direction),
    [params.order] stays one of the two; a call of [setOrder] with anything
    else throws the message and changes nothing. *)
Theorem order_stays_a_direction (trace : list event) (s : state) :
  order_ok (params s) ->
  Forall (keeps_order_valid cfg) trace ->
  order_ok (params (run cfg pathname origin trace s))
  /\ (forall order s0,
        order <> "asc" -> order <> "desc" ->
        setOrder order s0 = Throw (Thrown "Order must be either asc or desc")
        /\ step cfg pathname origin (Call (SetOrder order)) s0 = s0).
Proof.
  intros Hp Hsafe. split.
  - revert s Hp. induction Hsafe as [|e trace He _ IH]; intros s Hp; [exact Hp|].
    simpl. apply IH. now apply step_order.
  - intros order s0 Ha Hd. unfold step, perform, setOrder.
    destruct (String.eqb_spec order "asc"); [contradiction|].
    destruct (String.eqb_spec order "desc"); [contradiction|]. now split.
Qed.

End OrderInvariant.

(** X14 on a run of the example. *)
Lemma order_stays_a_direction_example :
  let trace := [React; Call (SetOrder "up"); Call ToggleOrder; React;
                Call (SelectOrderBy "title" None); Pop None; React;
                Call (AddTerms "order" (OneTerm 3))] in
  (order_ok (params example_state)
   /\ Forall (keeps_order_valid example_props) trace)
  /\ order_ok
       (params (run example_props "/library" "https://example.org" trace
                  example_state)).
Proof.
  assert (H0 : order_ok (params example_state)) by (right; reflexivity).
  assert (Ht : Forall (keeps_order_valid example_props)
                 [React; Call (SetOrder "up"); Call ToggleOrder; React;
                  Call (SelectOrderBy "title" None); Pop None; React;
                  Call (AddTerms "order" (OneTerm 3))]).
  { repeat (apply Forall_cons;
              [simpl; try exact I;
               try (split; [now right|intros [[=]|[]]])|]).
    apply Forall_nil. }
  split; [split; assumption|].
  exact (proj1 (order_stays_a_direction example_props "/library"
                  "https://example.org" _ _ H0 Ht)).
Defined.

(** A taxonomy called order takes the place of the direction. *)
Example setTerms_on_order_breaks_direction :
  let s := run example_props "/library" "https://example.org"
             [Call (SetTerms "order" (OneTerm 3))] example_state in
  get (params s) "order" = Some (VArr [VNum 3]) /\ ~ order_ok (params s).
Proof. split; [reflexivity|]. intros [H|H]; discriminate. Qed.

(** ** Meta filters *)

Lemma delete_absent (o : object) (k : string) :
  get o k = None -> delete o k = o.
Proof.
  induction o as [|[k0 v0] o IH]; simpl; [reflexivity|].
  destruct (String.eqb_spec k0 k); [discriminate|].
  intros H. now rewrite IH.
Qed.

Lemma delete_put_absent (o : object) (k : string) (v : value) :
  get o k = None -> delete (put o k v) k = o.
Proof.
  induction o as [|[k0 v0] o IH]; simpl.
  - now rewrite String.eqb_refl.
  - destruct (String.eqb_spec k0 k) as [->|Hne]; [discriminate|].
    intros H. simpl. destruct (String.eqb_spec k0 k); [contradiction|].
    now rewrite IH.
Qed.

Lemma get_delete_same (o : object) (k : string) : get (delete o k) k = None.
Proof.
  induction o as [|[k0 v0] o IH]; simpl; [reflexivity|].
  destruct (String.eqb_spec k0 k) as [->|Hne]; [exact IH|].
  simpl. destruct (String.eqb_spec k0 k); [contradiction|exact IH].
Qed.

(** X15. With an object under [meta_query], [setMetaFilter] files the
    pair of the field and the value under the field, a second call on the
    field replaces the first, and [removeMetaFilter] takes the filter away;
    when the field had no filter, setting one and removing it leaves the
    component as it was. *)
Theorem removeMetaFilter_undoes_setMetaFilter
    (field : string) (v : value) (s : state) (mq : object) :
  get (params s) "meta_query" = Some (VObj mq) ->
  exists s' mq',
    setMetaFilter field v s = Ok s'
    /\ get (params s') "meta_query" = Some (VObj mq')
    /\ get mq' field = Some (VObj [("field", VStr field); ("value", v)])
    /\ (forall k, k <> field -> get mq' k = get mq k)
    /\ (forall w, setMetaFilter field w s' = setMetaFilter field w s)
    /\ (exists s'' mq'', removeMetaFilter field s' = Ok s''
          /\ get (params s'') "meta_query" = Some (VObj mq'')
          /\ get mq'' field = None)
    /\ (get mq field = None -> removeMetaFilter field s' = Ok s).
Proof.
  intros Hmq. unfold setMetaFilter at 1. rewrite Hmq.
  do 2 eexists. split; [reflexivity|]. cbn [params with_params].
  split; [apply get_put_same|].
  split; [apply get_put_same|].
  split; [intros k Hk; apply get_put_other; congruence|].
  split.
  { intros w. unfold setMetaFilter. cbn [params with_params].
    rewrite get_put_same, Hmq, !put_put_same. reflexivity. }
  split.
  { unfold removeMetaFilter. cbn [params with_params]. rewrite get_put_same.
    do 2 eexists. split; [reflexivity|]. cbn [params with_params].
    split; [apply get_put_same|apply get_delete_same]. }
  intros Hnone. unfold removeMetaFilter. cbn [params with_params].
  rewrite get_put_same, put_put_same, delete_put_absent by exact Hnone.
  rewrite (put_get_id _ _ _ Hmq). now destruct s.
Qed.

(** X15 on the example state, which has no filter. *)
Lemma removeMetaFilter_undoes_setMetaFilter_example :
  exists s',
    (get (params example_state) "meta_query" = Some (VObj [])
     /\ setMetaFilter "color" (VStr "red") example_state = Ok s')
    /\ params s' = example_filtered
    /\ removeMetaFilter "color" s' = Ok example_state.
Proof.
  destruct (removeMetaFilter_undoes_setMetaFilter "color" (VStr "red")
              example_state [] eq_refl)
    as (s' & mq' & Hset & _ & _ & _ & _ & _ & Hundo).
  exists s'. split; [split; [reflexivity|exact Hset]|].
  split; [|exact (Hundo eq_refl)].
  injection Hset as <-. reflexivity.
Defined.

(** Without an object under [meta_query] no filter can be set. *)
Example setMetaFilter_without_meta_query :
  setMetaFilter "color" (VStr "red") data = Throw TypeError
  /\ removeMetaFilter "color" data = Throw TypeError.
Proof. split; reflexivity. Qed.

(** ** QueryBuilder: what the request carries *)

Section Request.

Variable cfg : props.

(** The request after the order is processed. *)
Lemma ordered_get (p q0 q1 : object) (k : string) :
  (if read_is_str "number"
        (read (meta_fields cfg) (to_property_key (get p "orderby")))
   then Ok (match get p "orderby" with
            | Some v => put (put q0 "orderby" (VStr "meta_value_num")) "meta_key" v
            | None => put q0 "orderby" (VStr "meta_value_num")
            end)
   else if read_truthy
             (read (meta_fields cfg) (to_property_key (get p "orderby")))
        then Ok (match get p "orderby" with
                 | Some v => put (put q0 "orderby" (VStr "meta_value")) "meta_key" v
                 | None => put q0 "orderby" (VStr "meta_value")
                 end)
        else if not_a_valid_orderby (get p "orderby") then Throw orderby_error
             else Ok q0) = Ok q1 ->
  k <> "orderby" -> k <> "meta_key" -> get q1 k = get q0 k.
Proof.
  intros H H1 H2.
  destruct (read_is_str "number" _); [injection H as <-|].
  2: destruct (read_truthy _); [injection H as <-|].
  3: destruct (not_a_valid_orderby _); [discriminate|injection H as <-].
  1, 2: destruct (get p "orderby"); now rewrite ?get_put_other by congruence.
  reflexivity.
Qed.

(** The request against [params], key by key. *)
Lemma query_params_request (p q p' : object) :
  query_params cfg p = Ok (q, p') ->
  (forall v, get p "pagenum" = Some v -> truthy v = true ->
             get q "page" = Some v /\ get q "pagenum" = None)
  /\ (truthy_opt (get p "pagenum") = false ->
      get q "pagenum" = get p "pagenum" /\ get q "page" = get p "page")
  /\ (forall k, k <> "page" -> k <> "pagenum" -> k <> "orderby" ->
                k <> "meta_key" -> k <> "meta_query" -> get q k = get p k).
Proof.
  unfold query_params.
  set (q0 := match get p "pagenum" with
             | Some pagenum =>
                 if truthy pagenum then delete (put p "page" pagenum) "pagenum"
                 else p
             | None => p
             end).
  match goal with |- context [bind ?r _] => destruct r as [q1|e] eqn:E end;
    simpl; [|discriminate].
  intros H.
  assert (Hq : forall k, k <> "orderby" -> k <> "meta_key" -> k <> "meta_query" ->
                         get q k = get q0 k).
  { intros k H1 H2 H3. rewrite <- (ordered_get p q0 q1 k E H1 H2).
    destruct (get q1 "meta_query") as [mq|]; [|discriminate].
    destruct mq; try discriminate;
      match type of H with
      | context [has_own_keys ?v] => destruct (has_own_keys v)
      end; simpl in H; try discriminate;
      injection H as <- _; rewrite ?get_put_other by congruence; reflexivity. }
  split; [|split].
  - intros v Hv Ht. rewrite !Hq by discriminate. subst q0. rewrite Hv, Ht.
    split; [|apply get_delete_same].
    rewrite get_delete_other by discriminate. apply get_put_same.
  - intros Hf. rewrite !Hq by discriminate. subst q0.
    destruct (get p "pagenum") as [v|] eqn:Ep; [|now split].
    simpl in Hf. rewrite Hf. now split.
  - intros k H1 H2 H3 H4 H5. rewrite Hq by assumption.
    subst q0. now apply renamed_page_get.
Qed.

(** X16. In the request that [query_params] derives, [pagenum] goes
    under the name [page]: a truthy [params.pagenum] is found under [page]
    and [pagenum] is gone; a missing or falsy one (as 0) is left where it
    is.  Every parameter but [page], [pagenum], [orderby], [meta_key] and
    [meta_query] is in the request as it is in [params]. *)
Theorem query_params_renames_pagenum (p q p' : object) :
  query_params cfg p = Ok (q, p') ->
  (forall v, get p "pagenum" = Some v -> truthy v = true ->
             get q "page" = Some v /\ get q "pagenum" = None)
  /\ (truthy_opt (get p "pagenum") = false ->
      get q "pagenum" = get p "pagenum" /\ get q "page" = get p "page")
  /\ (forall k, k <> "page" -> k <> "pagenum" -> k <> "orderby" ->
                k <> "meta_key" -> k <> "meta_query" -> get q k = get p k).
Proof. apply query_params_request. Qed.

(** X17. One of the nine valid names that is no meta field is sent as
    it is: when [orderby] is such a name and [meta_fields] holds nothing
    truthy under it, the request carries it under [orderby], and gets no
    [meta_key] but the one of [params]. *)
Theorem query_params_valid_orderby (p mq : object) (orderby : string) :
  get p "orderby" = Some (VStr orderby) ->
  get p "meta_query" = Some (VObj mq) ->
  In orderby valid_orderbys ->
  read_truthy (read (meta_fields cfg) orderby) = false ->
  exists q p',
    query_params cfg p = Ok (q, p')
    /\ get q "orderby" = Some (VStr orderby)
    /\ get q "meta_key" = get p "meta_key".
Proof.
  intros Ho Hmq Hin Hfalse. unfold query_params. rewrite Ho.
  cbn [to_property_key to_string].
  assert (Hnum : read_is_str "number" (read (meta_fields cfg) orderby) = false).
  { destruct (read (meta_fields cfg) orderby) as [[]| |]; try reflexivity.
    simpl in Hfalse. apply negb_false_iff, String.eqb_eq in Hfalse. now subst. }
  rewrite Hnum, Hfalse.
  assert (Hvalid : not_a_valid_orderby (Some (VStr orderby)) = false).
  { unfold not_a_valid_orderby. apply negb_false_iff, existsb_exists.
    exists orderby. split; [exact Hin|apply String.eqb_refl]. }
  rewrite Hvalid. cbn [bind].
  set (q0 := match get p "pagenum" with
             | Some pagenum =>
                 if truthy pagenum then delete (put p "page" pagenum) "pagenum"
                 else p
             | None => p
             end).
  assert (Hq0 : forall k, k <> "page" -> k <> "pagenum" -> get q0 k = get p k).
  { intros k H1 H2. subst q0. now apply renamed_page_get. }
  rewrite (Hq0 "meta_query") by discriminate. rewrite Hmq.
  destruct (has_own_keys (VObj mq)); cbn [set_relation bind];
    do 2 eexists; (split; [reflexivity|]);
    rewrite ?get_put_other by discriminate;
    rewrite !Hq0 by discriminate; now split.
Qed.

End Request.

(** X17 on the example state, ordered by date. *)
Lemma query_params_valid_orderby_example :
  (get (params example_state) "orderby" = Some (VStr "date")
   /\ get (params example_state) "meta_query" = Some (VObj [])
   /\ In "date" valid_orderbys
   /\ read_truthy (read (meta_fields example_props) "date") = false)
  /\ exists q p',
       query_params example_props (params example_state) = Ok (q, p')
       /\ get q "orderby" = Some (VStr "date")
       /\ get q "meta_key" = get (params example_state) "meta_key".
Proof.
  assert (Hin : In "date" valid_orderbys) by (right; now left).
  split; [repeat split; try reflexivity; exact Hin|].
  exact (query_params_valid_orderby example_props (params example_state) []
           "date" eq_refl eq_refl Hin eq_refl).
Defined.

(** X16 on the example state. *)
Lemma query_params_renames_pagenum_example :
  exists q p',
    query_params example_props (params example_state) = Ok (q, p')
    /\ get q "page" = Some (VNum 1) /\ get q "pagenum" = None
    /\ get q "per_page" = Some (VNum 10).
Proof.
  do 2 eexists. split; [reflexivity|].
  destruct (query_params_renames_pagenum example_props (params example_state)
              _ _ eq_refl) as (Hpage & _ & Hother).
  destruct (Hpage (VNum 1) eq_refl eq_refl) as [H1 H2].
  split; [exact H1|]. split; [exact H2|].
  rewrite Hother by discriminate. reflexivity.
Defined.

(** ** QueryBuilder: evaluating [query_params] again *)

Lemma get_some_in (o : object) (k : string) (v : value) :
  get o k = Some v -> In k (keys o).
Proof.
  induction o as [|[k0 v0] o IH]; simpl; [discriminate|].
  destruct (String.eqb_spec k0 k) as [->|Hne]; [now left|].
  intros H. right. now apply IH.
Qed.

(** Writing under a key that is there keeps the place of every key. *)
Lemma put_put_present (o : object) (k k' : string) (v v' x : value) :
  k <> k' -> get o k = Some x ->
  put (put o k v) k' v' = put (put o k' v') k v.
Proof.
  intros Hne. induction o as [|[k0 v0] o IH]; simpl; [discriminate|].
  destruct (String.eqb_spec k0 k) as [->|Hk].
  - intros _. simpl.
    destruct (String.eqb_spec k k'); [contradiction|]. simpl.
    now rewrite String.eqb_refl.
  - intros H. simpl. destruct (String.eqb_spec k0 k') as [->|Hk']; simpl.
    + destruct (String.eqb_spec k' k); [congruence|]. reflexivity.
    + destruct (String.eqb_spec k0 k); [contradiction|]. now rewrite IH.
Qed.

Lemma delete_put_present (o : object) (k k' : string) (v x : value) :
  k <> k' -> get o k = Some x ->
  delete (put o k v) k' = put (delete o k') k v.
Proof.
  intros Hne. induction o as [|[k0 v0] o IH]; simpl; [discriminate|].
  destruct (String.eqb_spec k0 k) as [->|Hk].
  - intros _. simpl.
    destruct (String.eqb_spec k k'); [contradiction|]. simpl.
    now rewrite String.eqb_refl.
  - intros H. simpl. destruct (String.eqb_spec k0 k') as [->|Hk']; simpl.
    + now apply IH.
    + destruct (String.eqb_spec k0 k); [contradiction|]. now rewrite IH.
Qed.

Section Settled.

Variable cfg : props.

Lemma renamed_page_put (p : object) (v x : value) :
  get p "meta_query" = Some x ->
  match get (put p "meta_query" v) "pagenum" with
  | Some pagenum =>
      if truthy pagenum
      then delete (put (put p "meta_query" v) "page" pagenum) "pagenum"
      else put p "meta_query" v
  | None => put p "meta_query" v
  end
  = put (match get p "pagenum" with
         | Some pagenum =>
             if truthy pagenum then delete (put p "page" pagenum) "pagenum" else p
         | None => p
         end) "meta_query" v.
Proof.
  intros Hx. rewrite get_put_other by discriminate.
  destruct (get p "pagenum") as [pn|]; [|reflexivity].
  destruct (truthy pn); [|reflexivity].
  rewrite (put_put_present p "meta_query" "page" v pn x) by (discriminate || exact Hx).
  apply (delete_put_present _ "meta_query" "pagenum" v x); [discriminate|].
  now rewrite get_put_other.
Qed.

Lemma ordered_put (ob : option value) (mt : prop_read) (q0 q1 : object)
    (v x : value) :
  get q0 "meta_query" = Some x ->
  (if read_is_str "number" mt
   then Ok (match ob with
            | Some o => put (put q0 "orderby" (VStr "meta_value_num")) "meta_key" o
            | None => put q0 "orderby" (VStr "meta_value_num")
            end)
   else if read_truthy mt
        then Ok (match ob with
                 | Some o => put (put q0 "orderby" (VStr "meta_value")) "meta_key" o
                 | None => put q0 "orderby" (VStr "meta_value")
                 end)
        else if not_a_valid_orderby ob then Throw orderby_error
             else Ok q0) = Ok q1 ->
  (if read_is_str "number" mt
   then Ok (match ob with
            | Some o =>
                put (put (put q0 "meta_query" v) "orderby" (VStr "meta_value_num"))
                  "meta_key" o
            | None => put (put q0 "meta_query" v) "orderby" (VStr "meta_value_num")
            end)
   else if read_truthy mt
        then Ok (match ob with
                 | Some o =>
                     put (put (put q0 "meta_query" v) "orderby" (VStr "meta_value"))
                       "meta_key" o
                 | None => put (put q0 "meta_query" v) "orderby" (VStr "meta_value")
                 end)
        else if not_a_valid_orderby ob then Throw orderby_error
             else Ok (put q0 "meta_query" v)) = Ok (put q1 "meta_query" v).
Proof.
  intros Hx H.
  assert (Hswap : forall w o,
             put (put (put q0 "meta_query" v) "orderby" w) "meta_key" o
             = put (put (put q0 "orderby" w) "meta_key" o) "meta_query" v).
  { intros w o.
    rewrite (put_put_present q0 "meta_query" "orderby" v w x)
      by (discriminate || exact Hx).
    apply (put_put_present _ "meta_query" "meta_key" v o x); [discriminate|].
    now rewrite get_put_other. }
  assert (Hswap1 : forall w,
             put (put q0 "meta_query" v) "orderby" w
             = put (put q0 "orderby" w) "meta_query" v).
  { intros w. now apply (put_put_present q0 "meta_query" "orderby" v w x). }
  destruct (read_is_str "number" mt); [injection H as <-|].
  2: destruct (read_truthy mt); [injection H as <-|].
  3: destruct (not_a_valid_orderby ob); [discriminate|injection H as <-].
  1, 2: destruct ob; now rewrite ?Hswap, ?Hswap1.
  reflexivity.
Qed.

(** X18. Evaluating [query_params] writes into [params] (the relation of
    the meta query), but only once: evaluated again on the [params] it
    left, it derives the same request and leaves them as they are. *)
Theorem query_params_settles (p q p' : object) :
  query_params cfg p = Ok (q, p') ->
  query_params cfg p' = Ok (q, p').
Proof.
  intros H. pose proof H as H0. unfold query_params in H.
  set (q0 := match get p "pagenum" with
             | Some pagenum =>
                 if truthy pagenum then delete (put p "page" pagenum) "pagenum"
                 else p
             | None => p
             end) in H.
  match type of H with
  | context [bind ?r _] => destruct r as [q1|e] eqn:E
  end; simpl in H; [|discriminate].
  destruct (get q1 "meta_query") as [mq|] eqn:Hmq; [|discriminate].
  assert (Hq0 : get q0 "meta_query" = Some mq).
  { rewrite <- Hmq. symmetry. apply (ordered_get cfg p q0 q1 _ E); discriminate. }
  assert (Hp : get p "meta_query" = Some mq).
  { rewrite <- Hq0. subst q0. symmetry. apply renamed_page_get; discriminate. }
  assert (Hagain : forall mq',
             has_own_keys mq' = true -> set_relation mq' = Ok mq' ->
             mq' <> VNull ->
             query_params cfg (put p "meta_query" mq')
             = Ok (put q1 "meta_query" mq', put p "meta_query" mq')).
  { intros mq' Hkeys Hrel Hnull. unfold query_params.
    rewrite (renamed_page_put p mq' mq Hp). fold q0.
    rewrite (get_put_other p "meta_query" "orderby") by discriminate.
    rewrite (ordered_put _ _ q0 q1 mq' mq Hq0 E). cbn [bind].
    rewrite get_put_same, Hkeys, Hrel. cbn [bind].
    rewrite !put_put_same.
    destruct mq'; try reflexivity. contradiction. }
  destruct mq as [|b|n|text|items|o]; [discriminate| | | | |].
  - simpl in H. injection H as <- <-. exact H0.
  - simpl in H. injection H as <- <-. exact H0.
  - destruct (has_own_keys (VStr text)); simpl in H; [discriminate|].
    injection H as <- <-. exact H0.
  - destruct (has_own_keys (VArr items)) eqn:Hk; simpl in H;
      injection H as <- <-; [|exact H0].
    apply Hagain; [exact Hk|reflexivity|discriminate].
  - destruct (has_own_keys (VObj o)) eqn:Hk; simpl in H;
      injection H as <- <-; [|exact H0].
    apply Hagain.
    + simpl. now destruct o as [|[k0 v0] o]; simpl; [|destruct (k0 =? "relation")%string].
    + simpl. now rewrite put_put_same.
    + discriminate.
Qed.

End Settled.

(** X18 on the example with one filter set. *)
Lemma query_params_settles_example :
  exists q p',
    query_params example_props example_filtered = Ok (q, p')
    /\ p' <> example_filtered
    /\ query_params example_props p' = Ok (q, p').
Proof.
  do 2 eexists. split; [reflexivity|]. split; [discriminate|].
  exact (query_params_settles example_props example_filtered _ _ eq_refl).
Defined.

(** ** ParamSerializer: the text of the query *)

Lemma all_chars_append (f : ascii -> bool) (a b : string) :
  all_chars f (a ++ b) = all_chars f a && all_chars f b.
Proof.
  induction a as [|c a IH]; simpl; [reflexivity|].
  now rewrite IH, andb_assoc.
Qed.

Lemma encode_char_query (c : ascii) :
  all_chars is_query_char (encode_char c) = true.
Proof. each_ascii c; reflexivity. Qed.

Lemma encode_query (s : string) :
  all_chars is_query_char (encodeURIComponent s) = true.
Proof.
  induction s as [|c s IH]; simpl; [reflexivity|].
  now rewrite all_chars_append, encode_char_query, IH.
Qed.

Lemma join_query (l : list string) :
  Forall (fun piece => all_chars is_query_char piece = true) l ->
  all_chars is_query_char (join "&" l) = true.
Proof.
  induction 1 as [|x l Hx _ IH]; [reflexivity|].
  destruct l as [|y l]; [exact Hx|].
  change (join "&" (x :: y :: l)) with (x ++ String "&" (join "&" (y :: l))).
  rewrite all_chars_append, Hx. exact IH.
Qed.

(** X19. Whatever the parameters hold, the text that [serializeParams]
    writes is made of unreserved characters, percent escapes and the
    separators [&] and [=] only: no white space, quote, [#], [?] or byte
    above 127 reaches the URL. *)
Theorem serializeParams_query_chars (p : object) :
  all_chars is_query_char (serializeParams p) = true
  /\ (forall c, is_query_char c = true ->
        is_space c = false /\ c <> dquote /\ c <> "#"%char /\ c <> "?"%char
        /\ (code c < 128)%N).
Proof.
  split.
  - unfold serializeParams. apply join_query. apply Forall_forall.
    intros piece Hin. apply in_map_iff in Hin as (k & <- & _).
    change ("=" ++ encodeURIComponent (stringify_opt (get p k)))
      with (String "=" (encodeURIComponent (stringify_opt (get p k)))).
    rewrite all_chars_append, encode_query. simpl. apply encode_query.
  - intros c. each_ascii c; intros H; try discriminate H;
      repeat split; try reflexivity; discriminate.
Qed.

(** X19 on the parameters of the example state. *)
Lemma serializeParams_query_chars_example :
  all_chars is_query_char (serializeParams (params example_state)) = true.
Proof. exact (proj1 (serializeParams_query_chars (params example_state))). Defined.

(** ** ParamSerializer: what a URL brings back *)

Lemma truthy_params_keys (p : object) :
  NoDup (keys p) -> NoDup (keys (truthy_params p)).
Proof.
  induction p as [|[k v] p IH]; simpl; intros Hnd; [constructor|].
  inversion Hnd as [|? ? Hk Hnd']; subst.
  unfold truthy_params. simpl. destruct (truthy v); [|now apply IH].
  simpl. constructor; [|now apply IH].
  intros Hin. apply Hk. unfold keys in *. apply in_map_iff in Hin as (kv & <- & Hin).
  apply filter_In in Hin as [Hin _]. now apply in_map.
Qed.

Lemma truthy_params_get (p : object) (k : string) (v : value) :
  NoDup (keys p) -> get p k = Some v -> truthy v = true ->
  get (truthy_params p) k = Some v.
Proof.
  induction p as [|[k0 v0] p IH]; simpl; intros Hd; [discriminate|].
  inversion Hd as [|? ? Hk Hd']; subst.
  destruct (String.eqb_spec k0 k) as [->|Hne].
  - intros [= ->] Ht. unfold truthy_params. simpl. rewrite Ht. simpl.
    now rewrite String.eqb_refl.
  - intros Hg Ht. unfold truthy_params. simpl.
    destruct (truthy v0); simpl.
    + destruct (String.eqb_spec k0 k); [contradiction|]. now apply IH.
    + now apply IH.
Qed.

Lemma truthy_params_absent (p : object) (k : string) :
  NoDup (keys p) -> truthy_opt (get p k) = false ->
  ~ In k (keys (truthy_params p)).
Proof.
  intros Hd Hf Hin. unfold keys in Hin.
  apply in_map_iff in Hin as ([k' v] & Hk & Hin). simpl in Hk. subst k'.
  apply filter_In in Hin as [Hin Ht]. simpl in Ht.
  rewrite (get_in p k v Hd Hin) in Hf. simpl in Hf. congruence.
Qed.

Lemma restorable_keys (p : object) : restorable p = true -> NoDup (keys p).
Proof.
  unfold restorable. intros H. apply distinct_NoDup.
  apply andb_true_iff in H as [H _]. now apply andb_true_iff in H as [H _].
Qed.

Lemma unserialize_serialize_filtered (c : ascii) (p : object) :
  restorable p = true ->
  unserializeParams (String c (serializeParams p)) = Ok (truthy_params p).
Proof.
  unfold restorable. intros H.
  apply andb_true_iff in H as [H Hall].
  apply andb_true_iff in H as [Hd Hsome].
  rewrite (serializeParams_pairs p Hd). fold (truthy_params p).
  assert (Hall' : forallb (fun kv =>
                             negb (fst kv =? "__proto__")%string
                             && utf8_valid (fst kv)
                             && json_safe (snd kv) && truthy (snd kv))
                    (truthy_params p) = true).
  { apply forallb_forall. intros kv Hin. apply filter_In in Hin as [Hin Ht].
    rewrite forallb_forall in Hall. specialize (Hall kv Hin).
    rewrite Ht in *. simpl in Hall. now rewrite Hall. }
  assert (Hnd : NoDup (keys (truthy_params p))).
  { now apply truthy_params_keys, distinct_NoDup. }
  assert (Hne : truthy_params p <> []).
  { apply existsb_exists in Hsome as (kv & Hin & Ht). intros E.
    assert (Hf : In kv (truthy_params p)) by (apply filter_In; now split).
    rewrite E in Hf. contradiction. }
  unfold unserializeParams. simpl substring1.
  destruct (truthy_params p) as [|kv q]; [congruence|].
  change (join "&" (map pair_text (kv :: q)))
    with (join (String "&" "") (pair_text kv :: map pair_text q)).
  rewrite split_join.
  - change (pair_text kv :: map pair_text q) with (map pair_text (kv :: q)).
    rewrite map_map.
    rewrite (map_ext _ _ split_pair_text).
    exact (unserialize_members (kv :: q) [] Hall' Hnd).
  - change (pair_text kv :: map pair_text q) with (map pair_text (kv :: q)).
    apply Forall_forall. intros piece Hin.
    apply in_map_iff in Hin as [kv' [<- _]]. apply pair_text_free.
Qed.

(** X20. [unserializeParams] brings back the truthy parameters only:
    for parameters without a repeated key, with at least one truthy value,
    and whose truthy values JSON represents exactly, it reads from what
    [serializeParams] wrote, after any first character, the parameters with
    the falsy ones ([null], [false], 0 and the empty text) left out. *)
Theorem unserialize_serialize_truthy (c : ascii) (p : object) :
  restorable p = true ->
  unserializeParams (String c (serializeParams p)) = Ok (truthy_params p)
  /\ (forall k v, get p k = Some v -> truthy v = true ->
        get (truthy_params p) k = Some v)
  /\ (forall k, truthy_opt (get p k) = false -> get (truthy_params p) k = None).
Proof.
  intros H. split; [now apply unserialize_serialize_filtered|].
  pose proof (restorable_keys p H) as Hd. split.
  - intros k v. now apply truthy_params_get.
  - intros k Hf. apply get_none_not_in. now apply truthy_params_absent.
Qed.

(** X20 on the parameters of the example state: the empty search is not
    brought back. *)
Lemma unserialize_serialize_truthy_example :
  restorable (params example_state) = true
  /\ unserializeParams ("?" ++ serializeParams (params example_state))
     = Ok [ ("per_page", VNum 10); ("order", VStr "desc");
            ("orderby", VStr "date"); ("pagenum", VNum 1);
            ("meta_query", VObj []); ("ver", VNum 1); ("category", VArr []) ].
Proof.
  split; [reflexivity|].
  exact (proj1 (unserialize_serialize_truthy "?" (params example_state) eq_refl)).
Defined.

Lemma fold_unserialize_throws
    (f : result object -> list string -> result object)
    (before after : list (list string)) (val : list string) (acc : result object) :
  (forall e x, f (Throw e) x = Throw e) ->
  (forall params, exists e, f (Ok params) val = Throw e) ->
  exists e, fold_left f (before ++ val :: after)%list acc = Throw e.
Proof.
  intros Hthrow Hval. rewrite fold_left_app. simpl.
  destruct (fold_left f before acc) as [params|e].
  - destruct (Hval params) as [e ->]. exists e.
    apply fold_throw. intros x. apply Hthrow.
  - rewrite Hthrow. exists e. apply fold_throw. intros x. apply Hthrow.
Qed.

(** X21. [unserializeParams] reads every piece between two [&] or none:
    when the value of one piece does not decode or is no JSON text, it
    throws, whatever the other pieces are.  So does a piece without [=],
    whose missing value reads as the text [undefined]; the text after the
    first character must not be empty and must not end with [&]. *)
Theorem unserializeParams_all_or_nothing (param_string piece : string) :
  In piece (split_on "&" (substring1 param_string)) ->
  (decodeURIComponent (item (split_on "=" piece) 1) = Throw URIError
   \/ (exists text, decodeURIComponent (item (split_on "=" piece) 1) = Ok text
                    /\ JSON_parse text = Throw SyntaxError)
   \/ free_of "=" piece = true) ->
  exists e, unserializeParams param_string = Throw e.
Proof.
  intros Hin Hbad. unfold unserializeParams.
  apply in_split in Hin as (before & after & ->).
  rewrite map_app. cbn [map].
  apply fold_unserialize_throws; [reflexivity|].
  intros params. cbn [bind].
  destruct (decodeURIComponent (item (split_on "=" piece) 0)) as [k|e];
    cbn [bind]; [|eauto].
  destruct Hbad as [Hbad|[(text & Htext & Hparse)|Hfree]].
  - rewrite Hbad. cbn [bind]. eauto.
  - rewrite Htext. cbn [bind]. rewrite Hparse. cbn [bind]. eauto.
  - rewrite (split_on_free _ _ Hfree).
    change (item [piece] 1) with "undefined".
    exists SyntaxError. reflexivity.
Qed.

(** X21 on a query that another tool appended its parameter to. *)
Lemma unserializeParams_all_or_nothing_example :
  (In "utm_source=mail" (split_on "&" (substring1 "?pagenum=2&utm_source=mail"))
   /\ decodeURIComponent (item (split_on "=" "utm_source=mail") 1) = Ok "mail"
   /\ JSON_parse "mail" = Throw SyntaxError)
  /\ exists e, unserializeParams "?pagenum=2&utm_source=mail" = Throw e.
Proof.
  assert (Hin : In "utm_source=mail"
                  (split_on "&" (substring1 "?pagenum=2&utm_source=mail"))).
  { right. now left. }
  split; [split; [exact Hin|split; reflexivity]|].
  apply (unserializeParams_all_or_nothing "?pagenum=2&utm_source=mail"
           "utm_source=mail" Hin).
  right. left. exists "mail". split; reflexivity.
Defined.

(** ** Creation from a URL *)

Lemma merge_members_get (merge_at : option value -> value -> value)
    (ps : list (string * value)) (acc : object) (k : string) (v : value) :
  NoDup (keys ps) -> get ps k = Some v ->
  get ((fix go (ps : list (string * value)) (acc : object) {struct ps} : object :=
          match ps with
          | [] => acc
          | (k, v) :: ps' => go ps' (put acc k (merge_at (get acc k) v))
          end) ps acc) k = Some (merge_at (get acc k) v).
Proof.
  revert acc. induction ps as [|[k0 v0] ps IH]; intros acc Hnd; [discriminate|].
  inversion Hnd as [|? ? Hk Hnd']; subst. simpl get at 1.
  destruct (String.eqb_spec k0 k) as [->|Hne].
  - intros [= ->]. rewrite merge_members_get_other by exact Hk.
    apply get_put_same.
  - intros Hg. rewrite IH by assumption. now rewrite get_put_other.
Qed.

(** A key of the source holds the source merged into what the
    destination held. *)
Lemma merge_get (dst src : object) (k : string) (v : value) :
  NoDup (keys src) -> get src k = Some v ->
  get (merge dst src) k = Some (merge_value (get dst k) v).
Proof.
  intros Hnd Hg. unfold merge. simpl. now apply merge_members_get.
Qed.

Lemma merge_value_primitive (dst : option value) (v : value) :
  is_primitive v = true -> merge_value dst v = v.
Proof. now destruct v. Qed.

Section Creation.

Variable cfg : props.

(** X22. Created on the URL that a reaction pushed (the question mark
    and the serialized [params]), the component starts from the
    configuration with the parameters of the URL merged in: a truthy number,
    text or boolean of the pushed [params] is there again, a parameter that
    was falsy or missing holds what [initialParams()] gives, and nothing is
    loaded or pushed yet. *)
Theorem created_from_pushed_url (p : object) :
  restorable p = true ->
  exists s,
    created cfg ("?" ++ serializeParams p) = Ok s
    /\ params s = merge (initialParams cfg) (truthy_params p)
    /\ (forall k v, get p k = Some v -> truthy v = true -> is_primitive v = true ->
          get (params s) k = Some v)
    /\ (forall k, truthy_opt (get p k) = false ->
          get (params s) k = get (initialParams cfg) k)
    /\ with_params (params data) s = data.
Proof.
  intros H. unfold created.
  change ("?" ++ serializeParams p) with (String "?" (serializeParams p)).
  cbn [String.eqb].
  rewrite (unserialize_serialize_filtered "?" p H). cbn [bind].
  eexists. split; [reflexivity|]. cbn [params with_params].
  split; [reflexivity|].
  pose proof (restorable_keys p H) as Hd.
  split; [|split; [|reflexivity]].
  - intros k v Hg Ht Hprim.
    rewrite (merge_get _ _ k v)
      by (try apply truthy_params_keys; try apply truthy_params_get; assumption).
    now rewrite merge_value_primitive.
  - intros k Hf. apply merge_get_other. now apply truthy_params_absent.
Qed.

End Creation.

(** X22 on the example: page 3 and a search are pushed, and found again
    at creation; the empty search of the configuration is kept otherwise. *)
Lemma created_from_pushed_url_example :
  let p := put (put (params example_state) "pagenum" (VNum 3)) "search"
             (VStr "tea") in
  restorable p = true
  /\ exists s,
       created example_props ("?" ++ serializeParams p) = Ok s
       /\ get (params s) "pagenum" = Some (VNum 3)
       /\ get (params s) "search" = Some (VStr "tea").
Proof.
  split; [reflexivity|].
  destruct (created_from_pushed_url example_props
              (put (put (params example_state) "pagenum" (VNum 3)) "search"
                 (VStr "tea")) eq_refl)
    as (s & Hs & _ & Hkeep & _).
  exists s. split; [exact Hs|].
  split; apply Hkeep; reflexivity.
Defined.

(** A taxonomy of the configuration that the URL does not name is not
    there after creation from a URL. *)
Example created_from_url_without_taxonomy :
  exists s,
    created example_props "?pagenum=2" = Ok s
    /\ get (params s) "category" = None
    /\ get (params example_state) "category" = Some (VArr []).
Proof. eexists. repeat split. Qed.

(** ** Runs: hooks, events and history *)

Section Runs.

Variable cfg : props.
Variables pathname origin : string.

Lemma fetch_start_hooks (s : state) :
  is_initial_load (fst (fetch_start cfg origin s)) = is_initial_load s
  /\ initial_load_calls (fst (fetch_start cfg origin s)) = initial_load_calls s
  /\ params_change_calls (fst (fetch_start cfg origin s)) = params_change_calls s
  /\ root_events (fst (fetch_start cfg origin s))
     = (root_events s ++ ["loading"])%list.
Proof.
  unfold fetch_start, constructURL; simpl.
  destruct (query_params cfg (params s)) as [[? ?]|?]; simpl; repeat split.
Qed.

Lemma handler_hooks (s : state) :
  is_initial_load (handler cfg pathname origin s) = is_initial_load s
  /\ initial_load_calls (handler cfg pathname origin s) = initial_load_calls s
  /\ params_change_calls (handler cfg pathname origin s)
     = S (params_change_calls s)
  /\ root_events (handler cfg pathname origin s)
     = (root_events s ++ ["loading"])%list.
Proof.
  unfold handler.
  set (s1 := if negb (page_updated s) then _ else s).
  assert (Hs1 : is_initial_load s1 = is_initial_load s
                /\ initial_load_calls s1 = initial_load_calls s
                /\ params_change_calls s1 = params_change_calls s
                /\ root_events s1 = root_events s).
  { subst s1. now destruct (page_updated s). }
  destruct Hs1 as (H1 & H2 & H3 & H4).
  destruct (fetch_start_hooks s1) as (F1 & F2 & F3 & F4).
  simpl. destruct (negb (suppress_history_state _)); simpl;
    rewrite F1, F2, F3, F4, H1, H2, H3, H4; repeat split.
Qed.

Lemma call_hooks (c : call) (s : state) :
  is_initial_load (step cfg pathname origin (Call c) s) = is_initial_load s
  /\ initial_load_calls (step cfg pathname origin (Call c) s) = initial_load_calls s
  /\ params_change_calls (step cfg pathname origin (Call c) s)
     = params_change_calls s
  /\ root_events (step cfg pathname origin (Call c) s) = root_events s.
Proof.
  simpl. destruct (perform cfg c s) as [s'|e] eqn:E; [|repeat split].
  apply perform_frame in E as [p ->]. now destruct c.
Qed.

Lemma pop_hooks (snapshot : option object) (s : state) :
  is_initial_load (on_pop cfg snapshot s) = is_initial_load s
  /\ initial_load_calls (on_pop cfg snapshot s) = initial_load_calls s
  /\ params_change_calls (on_pop cfg snapshot s) = params_change_calls s
  /\ root_events (on_pop cfg snapshot s) = root_events s.
Proof. destruct snapshot; repeat split. Qed.

Lemma settle_hooks (o : fetch_outcome) (s : state) :
  is_initial_load (fetch_settle o s) = is_initial_load s && negb (is_response (Settle o))
  /\ initial_load_calls (fetch_settle o s)
     = (if is_initial_load s && is_response (Settle o)
        then S (initial_load_calls s) else initial_load_calls s)
  /\ params_change_calls (fetch_settle o s) = params_change_calls s
  /\ root_events (fetch_settle o s) = root_events s
  /\ history_entries (fetch_settle o s) = history_entries s.
Proof.
  destruct o as [e|e|body x_wp_total x_wp_totalpages].
  - simpl. rewrite andb_true_r, andb_false_r. repeat split.
  - simpl. rewrite andb_true_r, andb_false_r. repeat split.
  - simpl. destruct (is_initial_load s) eqn:E; simpl; rewrite ?E; repeat split.
Qed.

Lemma run_initial_load (trace : list event) (s : state) :
  is_initial_load (run cfg pathname origin trace s)
  = is_initial_load s && negb (existsb is_response trace)
  /\ initial_load_calls (run cfg pathname origin trace s)
     = if is_initial_load s && existsb is_response trace
       then S (initial_load_calls s) else initial_load_calls s.
Proof.
  revert s. induction trace as [|e trace IH]; intros s.
  - simpl. now rewrite andb_true_r, andb_false_r.
  - change (run cfg pathname origin (e :: trace) s)
      with (run cfg pathname origin trace (step cfg pathname origin e s)).
    destruct (IH (step cfg pathname origin e s)) as [-> ->].
    assert (Hstep : is_initial_load (step cfg pathname origin e s)
                    = is_initial_load s && negb (is_response e)
                    /\ initial_load_calls (step cfg pathname origin e s)
                       = if is_initial_load s && is_response e
                         then S (initial_load_calls s) else initial_load_calls s).
    { destruct e as [c|snapshot| |o].
      - destruct (call_hooks c s) as (-> & -> & _).
        simpl. now rewrite andb_true_r, andb_false_r.
      - unfold step. destruct (pop_hooks snapshot s) as (-> & -> & _).
        simpl. now rewrite andb_true_r, andb_false_r.
      - unfold step. destruct (handler_hooks s) as (-> & -> & _).
        simpl. now rewrite andb_true_r, andb_false_r.
      - unfold step. destruct (settle_hooks o s) as (-> & -> & _). now split. }
    destruct Hstep as [-> ->]. cbn [existsb].
    destruct (is_initial_load s), (is_response e); simpl; now split.
Qed.

(** X23. [onInitialLoad] is called at most once: in any run of a
    component that has not loaded yet, it is called exactly once when the
    run holds a response whose body was read, at the first of them, and not
    at all otherwise; a network call that fails does not count. *)
Theorem onInitialLoad_once (trace : list event) (s : state) :
  is_initial_load s = true ->
  initial_load_calls s = O ->
  initial_load_calls (run cfg pathname origin trace s)
  = (if existsb is_response trace then 1 else 0)%nat
  /\ is_initial_load (run cfg pathname origin trace s)
     = negb (existsb is_response trace)
  /\ (forall o more, is_response (Settle o) = true ->
        initial_load_calls
          (run cfg pathname origin (trace ++ Settle o :: more)%list s) = 1%nat).
Proof.
  intros Hload Hcalls.
  split; [|split].
  - rewrite (proj2 (run_initial_load trace s)), Hload, Hcalls. reflexivity.
  - rewrite (proj1 (run_initial_load trace s)), Hload. reflexivity.
  - intros o more Ho.
    rewrite (proj2 (run_initial_load _ s)), Hload, Hcalls.
    rewrite existsb_app. cbn [existsb]. rewrite Ho.
    now rewrite orb_true_r.
Qed.

Lemma step_accounts (e : event) (s : state) :
  params_change_calls (step cfg pathname origin e s)
  = (params_change_calls s + (if is_reaction e then 1 else 0))%nat
  /\ root_events (step cfg pathname origin e s)
     = (root_events s ++ (if is_reaction e then ["loading"] else []))%list
  /\ exists pushed,
       history_entries (step cfg pathname origin e s)
       = (history_entries s ++ pushed)%list
       /\ (List.length pushed <= (if is_reaction e then 1 else 0))%nat.
Proof.
  destruct e as [c|snapshot| |o].
  - destruct (call_hooks c s) as (_ & _ & -> & ->).
    destruct (call_keeps_history cfg pathname origin c s) as [_ ->].
    simpl. rewrite Nat.add_0_r, !List.app_nil_r.
    split; [reflexivity|]. split; [reflexivity|].
    exists []. now rewrite List.app_nil_r.
  - unfold step. destruct (pop_hooks snapshot s) as (_ & _ & -> & ->).
    simpl. rewrite Nat.add_0_r, !List.app_nil_r.
    split; [reflexivity|]. split; [reflexivity|].
    exists []. rewrite List.app_nil_r.
    split; [now destruct snapshot|auto].
  - unfold step. destruct (handler_hooks s) as (_ & _ & -> & ->).
    cbn [is_reaction]. rewrite Nat.add_1_r.
    split; [reflexivity|]. split; [reflexivity|].
    rewrite (handler_history cfg pathname origin s).
    destruct (suppress_history_state s).
    + exists []. rewrite List.app_nil_r. split; [reflexivity|simpl; lia].
    + eexists. split; [reflexivity|simpl; lia].
  - unfold step. destruct (settle_hooks o s) as (_ & _ & -> & -> & ->).
    simpl. rewrite Nat.add_0_r, !List.app_nil_r.
    split; [reflexivity|]. split; [reflexivity|].
    exists []. now rewrite List.app_nil_r.
Qed.

(** X24. Only the reactions of the watcher call [onParamsChange],
    announce a loading and push to the history: after any run, the hook was
    called once for each reaction, one event [loading] was dispatched for
    each, and the history holds its former entries, in their order, followed
    by at most one new entry for each reaction. *)
Theorem reactions_accounted (trace : list event) (s : state) :
  params_change_calls (run cfg pathname origin trace s)
  = (params_change_calls s + reactions trace)%nat
  /\ root_events (run cfg pathname origin trace s)
     = (root_events s ++ repeat "loading" (reactions trace))%list
  /\ exists pushed,
       history_entries (run cfg pathname origin trace s)
       = (history_entries s ++ pushed)%list
       /\ (List.length pushed <= reactions trace)%nat.
Proof.
  revert s. induction trace as [|e trace IH]; intros s.
  - simpl. rewrite Nat.add_0_r, List.app_nil_r.
    split; [reflexivity|]. split; [reflexivity|].
    exists []. now rewrite List.app_nil_r.
  - change (run cfg pathname origin (e :: trace) s)
      with (run cfg pathname origin trace (step cfg pathname origin e s)).
    destruct (IH (step cfg pathname origin e s)) as (-> & -> & pushed & -> & Hlen).
    destruct (step_accounts e s) as (-> & -> & first & -> & Hfirst).
    assert (Hr : reactions (e :: trace)
                 = ((if is_reaction e then 1 else 0) + reactions trace)%nat).
    { unfold reactions. simpl. now destruct (is_reaction e). }
    rewrite Hr. split; [lia|]. split.
    + rewrite <- List.app_assoc. f_equal. now destruct (is_reaction e).
    + exists (first ++ pushed)%list. rewrite <- List.app_assoc.
      split; [reflexivity|]. rewrite length_app. lia.
Qed.

(** X25. A reaction whose request cannot be built (the order names no
    valid field, or [meta_query] is missing) still counts: the error is
    recorded wrapped in an [Error], the loading ends at once, results and
    pagination stay, and the history entry is pushed and the flags cleared
    as after any reaction. *)
Theorem handler_on_failing_request (s : state) (e : js_error) :
  query_params cfg
    (if page_updated s then params s else put (params s) "pagenum" (VNum 1))
  = Throw e ->
  let s' := handler cfg pathname origin s in
  error s' = Some (ErrorOf e)
  /\ loading s' = false
  /\ wp_data s' = wp_data s
  /\ pagination_data s' = pagination_data s
  /\ params s'
     = (if page_updated s then params s else put (params s) "pagenum" (VNum 1))
  /\ history_entries s'
     = (if suppress_history_state s then history_entries s
        else (history_entries s
              ++ [((pathname ++ "?" ++ serializeParams (params s'))%string,
                   params s')])%list).
Proof.
  intros Hq s'. subst s'.
  split; [|split; [|split; [|split; [|split; [|apply handler_history]]]]];
    unfold handler, fetch_start, constructURL;
    destruct (page_updated s); cbn [negb params with_params with_loading
      triggerRootEvent with_root_events fst];
    rewrite Hq; simpl; now destruct (suppress_history_state s).
Qed.

End Runs.

(** X23 on a run of the example: a failed call, then two responses. *)
Lemma onInitialLoad_once_example :
  let trace := [React; Settle (FetchRejected (Rejected "offline")); React;
                Settle (Responded (VArr []) (Some "0") (Some "0")); React;
                Settle (Responded (VArr []) (Some "0") (Some "0"))] in
  (is_initial_load example_state = true
   /\ initial_load_calls example_state = O)
  /\ initial_load_calls
       (run example_props "/library" "https://example.org" trace example_state)
     = 1%nat.
Proof.
  split; [split; reflexivity|].
  exact (proj1 (onInitialLoad_once example_props "/library" "https://example.org"
                  _ example_state eq_refl eq_refl)).
Defined.

(** X25 on the example state ordered by a field that does not exist. *)
Lemma handler_on_failing_request_example :
  let s := with_params (put (params example_state) "orderby" (VStr "size"))
             example_state in
  query_params example_props (params s) = Throw orderby_error
  /\ error (handler example_props "/library" "https://example.org" s)
     = Some (ErrorOf orderby_error)
  /\ loading (handler example_props "/library" "https://example.org" s) = false.
Proof.
  split; [reflexivity|].
  destruct (handler_on_failing_request example_props "/library"
              "https://example.org"
              (with_params (put (params example_state) "orderby" (VStr "size"))
                 example_state)
              orderby_error eq_refl) as (H1 & H2 & _).
  split; assumption.
Defined.

(** ** FetchOrchestrator: the pagination headers *)

Lemma parseInt_digits (d : Decimal.uint) :
  match d with Decimal.Nil | Decimal.D0 _ => False | _ => True end ->
  parseInt (Some (NilEmpty.string_of_uint d)) = Some (Z.of_uint d).
Proof.
  intros Hshape.
  assert (Htake : take_digits (NilEmpty.string_of_uint d) = (d, "")).
  { rewrite <- (append_nil_r (NilEmpty.string_of_uint d)).
    now apply take_digits_string_of_uint. }
  assert (Hsome : match d with
                  | Decimal.Nil => None
                  | _ => Some (1 * Z.of_uint d)
                  end = Some (Z.of_uint d)).
  { destruct d; try contradiction; f_equal; lia. }
  destruct d as [|d|d|d|d|d|d|d|d|d|d]; try contradiction;
    unfold parseInt; cbn [NilEmpty.string_of_uint skip_space is_space existsb
                          Ascii.eqb Bool.eqb orb andb];
    (destruct (NilEmpty.string_of_uint d) as [|x r] eqn:E;
     [destruct d; try discriminate E; reflexivity|]);
    rewrite <- E in *; cbn [Ascii.eqb Bool.eqb orb andb];
    rewrite E; cbn [Ascii.eqb Bool.eqb orb andb]; rewrite <- E;
    cbn [NilEmpty.string_of_uint] in Htake; rewrite Htake; exact Hsome.
Qed.

Lemma parseInt_negative_digits (d : Decimal.uint) :
  match d with Decimal.Nil | Decimal.D0 _ => False | _ => True end ->
  parseInt (Some (String "-" (NilEmpty.string_of_uint d))) = Some (- Z.of_uint d).
Proof.
  intros Hshape.
  assert (Htake : take_digits (NilEmpty.string_of_uint d) = (d, "")).
  { rewrite <- (append_nil_r (NilEmpty.string_of_uint d)).
    now apply take_digits_string_of_uint. }
  assert (Hsome : match d with
                  | Decimal.Nil => None
                  | _ => Some (-1 * Z.of_uint d)
                  end = Some (- Z.of_uint d)).
  { destruct d; try contradiction; f_equal; lia. }
  destruct d as [|d|d|d|d|d|d|d|d|d|d]; try contradiction;
    unfold parseInt; cbn [NilEmpty.string_of_uint skip_space is_space existsb
                          Ascii.eqb Bool.eqb orb andb];
    (destruct (NilEmpty.string_of_uint d) as [|x r] eqn:E;
     [destruct d; try discriminate E; reflexivity|]);
    rewrite <- E in *; cbn [Ascii.eqb Bool.eqb orb andb];
    rewrite E; cbn [Ascii.eqb Bool.eqb orb andb]; rewrite <- E;
    cbn [NilEmpty.string_of_uint] in Htake; rewrite Htake; exact Hsome.
Qed.

(** [parseInt] reads the decimal form of an integer back. *)
Lemma parseInt_string_of_Z (n : Z) : parseInt (Some (string_of_Z n)) = Some n.
Proof.
  unfold string_of_Z. destruct n as [|p|p].
  - reflexivity.
  - pose proof (to_uint_shape p) as Hshape.
    pose proof (DecimalZ.of_to (Z.pos p)) as Hof.
    simpl in Hof.
    change (Z.to_int (Z.pos p)) with (Decimal.Pos (Pos.to_uint p)).
    cbn [NilZero.string_of_int]. unfold NilZero.string_of_uint.
    destruct (Pos.to_uint p) as [|d|d|d|d|d|d|d|d|d|d] eqn:Hp;
      try contradiction; rewrite parseInt_digits by exact I;
      f_equal; exact Hof.
  - pose proof (to_uint_shape p) as Hshape.
    pose proof (DecimalZ.of_to (Z.neg p)) as Hof.
    simpl in Hof.
    change (Z.to_int (Z.neg p)) with (Decimal.Neg (Pos.to_uint p)).
    cbn [NilZero.string_of_int]. unfold NilZero.string_of_uint.
    destruct (Pos.to_uint p) as [|d|d|d|d|d|d|d|d|d|d] eqn:Hp;
      try contradiction;
      unfold NilZero.string_of_int, NilZero.string_of_uint;
      rewrite parseInt_negative_digits by exact I;
      f_equal; exact Hof.
Qed.

(** X26. The pagination is read from the two headers of the response:
    headers that hold the decimal forms of two integers give these integers,
    and a header that is missing gives [NaN]. *)
Theorem pagination_from_headers (body : value) (t tp : Z) (s : state) :
  Z.abs t <= 9007199254740991 ->
  Z.abs tp <= 9007199254740991 ->
  pagination_data
    (fetch_settle (Responded body (Some (string_of_Z t)) (Some (string_of_Z tp))) s)
  = {| total := Some t; total_pages := Some tp |}
  /\ pagination_data (fetch_settle (Responded body None (Some (string_of_Z tp))) s)
     = {| total := None; total_pages := Some tp |}
  /\ pagination_data (fetch_settle (Responded body (Some (string_of_Z t)) None) s)
     = {| total := Some t; total_pages := None |}.
Proof.
  intros _ _.
  assert (H : forall a b,
             pagination_data (fetch_settle (Responded body a b) s)
             = {| total := parseInt a; total_pages := parseInt b |}).
  { intros a b. simpl. now destruct (is_initial_load s). }
  rewrite !H, !parseInt_string_of_Z. repeat split.
Qed.

(** X26 on a response of 42 results on 5 pages. *)
Lemma pagination_from_headers_example :
  (Z.abs 42 <= 9007199254740991 /\ Z.abs 5 <= 9007199254740991)
  /\ pagination_data
       (fetch_settle (Responded (VArr []) (Some "42") (Some "5")) example_state)
     = {| total := Some 42; total_pages := Some 5 |}.
Proof.
  assert (H1 : Z.abs 42 <= 9007199254740991) by (simpl; lia).
  assert (H2 : Z.abs 5 <= 9007199254740991) by (simpl; lia).
  split; [split; assumption|].
  exact (proj1 (pagination_from_headers (VArr []) 42 5 example_state H1 H2)).
Defined.

(** ** FetchOrchestrator: the URL of the request *)

Lemma get_member_In (o : object) (k : string) (v : value) :
  get o k = Some v -> In (k, v) o.
Proof.
  induction o as [|[k0 v0] o IH]; simpl; [discriminate|].
  destruct (String.eqb_spec k0 k) as [->|Hne].
  - intros [= ->]. now left.
  - intros H. right. now apply IH.
Qed.

Lemma to_string_numbers (ts : list Z) :
  to_string (VArr (map VNum ts)) = join "," (map string_of_Z ts).
Proof.
  cbn [to_string]. rewrite map_map. reflexivity.
Qed.

Section Request_URL.

Variable cfg : props.
Variable origin : string.

Lemma query_params_meta_query (p q p' mq : object) :
  query_params cfg p = Ok (q, p') ->
  get p "meta_query" = Some (VObj mq) ->
  exists mq', get q "meta_query" = Some (VObj mq').
Proof.
  unfold query_params.
  set (q0 := match get p "pagenum" with
             | Some pagenum =>
                 if truthy pagenum then delete (put p "page" pagenum) "pagenum"
                 else p
             | None => p
             end).
  match goal with |- context [bind ?r _] => destruct r as [q1|e] eqn:E end;
    simpl; [|discriminate].
  intros H Hmq.
  assert (Hq1 : get q1 "meta_query" = Some (VObj mq)).
  { rewrite (ordered_get cfg p q0 q1 _ E) by discriminate.
    subst q0. rewrite renamed_page_get by discriminate. exact Hmq. }
  rewrite Hq1 in H.
  destruct (has_own_keys (VObj mq)); simpl in H; injection H as <- _.
  - rewrite get_put_same. eauto.
  - eauto.
Qed.

(** X27. The request goes to the collection of the post type under
    [/wp-json/wp/v2/] with [context=embed] and [_embed=1] first, then every
    parameter of the derived request turned into text: each parameter of
    [params] but the five that the derivation rewrites is sent as its text,
    so a list of term IDs is sent joined by commas; and an object under
    [meta_query] is sent as the text [[object Object]], whatever the
    filters are. *)
Theorem constructURL_sends_text (s s' : state) (u : url) :
  constructURL cfg origin s = Ok (u, s') ->
  url_base u = origin ++ "/wp-json/wp/v2/" ++ post_type cfg
  /\ (exists sent,
        url_search u = ("context", "embed") :: ("_embed", "1") :: sent)
  /\ (forall k v, k <> "page" -> k <> "pagenum" -> k <> "orderby" ->
        k <> "meta_key" -> k <> "meta_query" ->
        get (params s) k = Some v -> In (k, to_string v) (url_search u))
  /\ (forall k ts, k <> "page" -> k <> "pagenum" -> k <> "orderby" ->
        k <> "meta_key" -> k <> "meta_query" ->
        get (params s) k = Some (VArr (map VNum ts)) ->
        In (k, join "," (map string_of_Z ts)) (url_search u))
  /\ (forall mq, get (params s) "meta_query" = Some (VObj mq) ->
        In ("meta_query", "[object Object]") (url_search u)).
Proof.
  unfold constructURL.
  destruct (query_params cfg (params s)) as [[q p']|e] eqn:E; [|discriminate].
  intros [= <- _]. cbn [url_base url_search].
  assert (Hsent : forall k v, get q k = Some v ->
                    In (k, to_string v)
                      (("context", "embed") :: ("_embed", "1")
                       :: map (fun kv => (fst kv, to_string (snd kv))) q)).
  { intros k v Hg. right. right.
    apply (in_map (fun kv => (fst kv, to_string (snd kv))) q (k, v)).
    now apply get_member_In. }
  assert (Hframe : forall k v, k <> "page" -> k <> "pagenum" -> k <> "orderby" ->
                     k <> "meta_key" -> k <> "meta_query" ->
                     get (params s) k = Some v ->
                     In (k, to_string v)
                       (("context", "embed") :: ("_embed", "1")
                        :: map (fun kv => (fst kv, to_string (snd kv))) q)).
  { intros k v H1 H2 H3 H4 H5 Hg. apply Hsent.
    destruct (query_params_request cfg _ _ _ E) as (_ & _ & Hother).
    now rewrite Hother. }
  split; [reflexivity|]. split; [eauto|]. split; [exact Hframe|]. split.
  - intros k ts H1 H2 H3 H4 H5 Hg. rewrite <- to_string_numbers.
    now apply Hframe.
  - intros mq Hmq.
    destruct (query_params_meta_query _ _ _ _ E Hmq) as [mq' Hq].
    exact (Hsent "meta_query" (VObj mq') Hq).
Qed.

End Request_URL.

(** X27 on the example with the filter [color = red] and two categories:
    the categories are sent, the filter is not. *)
Lemma constructURL_sends_text_example :
  let s := with_params (put example_filtered "category" (VArr [VNum 3; VNum 5]))
             example_state in
  exists u s',
    constructURL example_props "https://example.org" s = Ok (u, s')
    /\ url_base u = "https://example.org/wp-json/wp/v2/posts"
    /\ In ("category", "3,5") (url_search u)
    /\ In ("meta_query", "[object Object]") (url_search u).
Proof.
  do 2 eexists. split; [reflexivity|].
  destruct (constructURL_sends_text example_props "https://example.org"
              (with_params (put example_filtered "category" (VArr [VNum 3; VNum 5]))
                 example_state) _ _ eq_refl)
    as (Hbase & _ & _ & Hterms & Hmq).
  split; [exact Hbase|]. split.
  - apply (Hterms "category" [3; 5]); try discriminate. reflexivity.
  - eapply Hmq. reflexivity.
Defined.

(** ** The public methods: what they leave alone *)

Section Methods.

Variable cfg : props.




End Methods.


(** ** HistorySync: what a pop restores *)

Lemma merge_elements_copy (merge_at : option value -> value -> value)
    (items : list value) :
  Forall (fun e => merge_at None e = e) items ->
  (fix go (ss ds : list value) {struct ss} : list value :=
     match ss with
     | [] => ds
     | s :: ss' =>
         match ds with
         | [] => merge_at None s :: go ss' []
         | d :: ds' => merge_at (Some d) s :: go ss' ds'
         end
     end) items [] = items.
Proof.
  induction 1 as [|e items He _ IH]; [reflexivity|]. now rewrite He, IH.
Qed.

Lemma merge_members_copy (merge_at : option value -> value -> value)
    (ps : list (string * value)) (acc : object) :
  NoDup (keys (acc ++ ps)%list) ->
  Forall (fun kv => merge_at None (snd kv) = snd kv) ps ->
  (fix go (ps : list (string * value)) (acc : object) {struct ps} : object :=
     match ps with
     | [] => acc
     | (k, v) :: ps' => go ps' (put acc k (merge_at (get acc k) v))
     end) ps acc = (acc ++ ps)%list.
Proof.
  revert acc. induction ps as [|[k v] ps IH]; intros acc Hnd Hall.
  - now rewrite List.app_nil_r.
  - inversion Hall as [|? ? Hv Hrest]; subst. simpl in Hv.
    assert (Hk : ~ In k (keys acc)).
    { unfold keys in Hnd. rewrite map_app in Hnd. simpl in Hnd.
      apply NoDup_remove_2 in Hnd. intros Hin. apply Hnd.
      apply in_or_app. now left. }
    rewrite (get_none_not_in acc k Hk), Hv, (put_not_in acc k v Hk).
    rewrite IH.
    + now rewrite <- List.app_assoc.
    + now rewrite <- List.app_assoc.
    + exact Hrest.
Qed.

(** Merged into nothing, a value is copied. *)
Lemma merge_value_copy (v : value) :
  well_formed v = true -> merge_value None v = v.
Proof.
  induction v as [| b | n | s | items IH | props IH] using value_ind';
    intros Hwf; try reflexivity.
  - cbn [merge_value]. f_equal. apply merge_elements_copy.
    simpl in Hwf. rewrite forallb_forall in Hwf.
    rewrite Forall_forall in *. intros e He. apply IH; [exact He|now apply Hwf].
  - cbn [merge_value]. f_equal.
    change (well_formed (VObj props))
      with (distinct (map fst props)
            && forallb (fun kv => well_formed (snd kv)) props) in Hwf.
    apply andb_true_iff in Hwf as [Hd Hall].
    rewrite (merge_members_copy (fun d s => merge_value d s) props []).
    + reflexivity.
    + now apply distinct_NoDup.
    + rewrite forallb_forall in Hall. rewrite Forall_forall in *.
      intros [k e] Hin. simpl. 
      apply (IH (k, e) Hin). now apply (Hall (k, e)).
Qed.

(** Merged over anything but an array, an array is copied. *)
Lemma merge_value_array (dst : option value) (items : list value) :
  (forall d, dst <> Some (VArr d)) ->
  forallb well_formed items = true ->
  merge_value dst (VArr items) = VArr items.
Proof.
  intros Hdst Hwf.
  assert (Hd : match dst with Some (VArr d) => d | _ => [] end = []).
  { destruct dst as [[]|]; try reflexivity. now destruct (Hdst items0). }
  cbn [merge_value]. rewrite Hd. f_equal. apply merge_elements_copy.
  rewrite forallb_forall in Hwf. apply Forall_forall.
  intros e He. apply merge_value_copy. now apply Hwf.
Qed.

(** A source whose keys are new to the destination is appended. *)
Lemma merge_copy (dst src : object) :
  NoDup (keys (dst ++ src)%list) ->
  forallb (fun kv => well_formed (snd kv)) src = true ->
  merge dst src = (dst ++ src)%list.
Proof.
  intros Hnd Hwf. unfold merge. cbn [merge_value].
  apply (merge_members_copy (fun d s => merge_value d s)); [exact Hnd|].
  rewrite forallb_forall in Hwf. apply Forall_forall.
  intros kv Hin. apply merge_value_copy. now apply Hwf.
Qed.

Section Pop.

Variable cfg : props.
Variables pathname origin : string.

(** [merge({}, this.initialParams())], value by value. *)
Lemma initialParams_merged :
  merge [] (initialParams cfg)
  = [ ("per_page", VNum (per_page cfg));
      ("search", VStr (initial_search cfg));
      ("order", VStr (initial_order cfg));
      ("orderby", VStr (initial_orderby cfg));
      ("pagenum", VNum (initial_page cfg));
      ("meta_query", merge_value None (VObj (initial_meta_query cfg)));
      ("ver", VNum (ver cfg)) ].
Proof. reflexivity. Qed.

Lemma initialParams_merged_no_array (k : string) (d : list value) :
  get (merge [] (initialParams cfg)) k <> Some (VArr d).
Proof.
  rewrite initialParams_merged. cbn [get merge_value].
  repeat match goal with
         | |- context [(?a =? k)%string] => destruct (a =? k)%string
         end; discriminate.
Qed.

(** C9: a pop with a snapshot leaves [params] equal to the snapshot, and
    the reaction that follows keeps every key of it but [meta_query], so
    [pagenum] is not reset.  A pop without a snapshot leaves [params] equal
    to [initialParams()] merged with the initial taxonomies, that is to the
    configured initial values: every required key that no taxonomy is named
    after holds the configured value, no other key is there but the
    taxonomies, and every taxonomy configured with a list holds its initial
    selection; when no taxonomy is named after a required key, [params] are
    the configured values followed by the initial taxonomy selections. *)
Theorem pop_restores_params (s : state) :
  (forall snapshot,
      params (on_pop cfg (Some snapshot) s) = snapshot
      /\ get (params (handler cfg pathname origin (on_pop cfg (Some snapshot) s)))
             "pagenum"
         = get snapshot "pagenum"
      /\ (forall k, k <> "meta_query" ->
            get (params (handler cfg pathname origin (on_pop cfg (Some snapshot) s))) k
            = get snapshot k))
  /\ params (on_pop cfg None s)
     = merge (merge [] (initialParams cfg)) (initial_taxonomies cfg)
  /\ (forall k, k <> "meta_query" ->
        ~ In k (keys (initial_taxonomies cfg)) ->
        get (params (on_pop cfg None s)) k = get (configured_values cfg) k)
  /\ (well_formed (VObj (initial_meta_query cfg)) = true ->
      ~ In "meta_query" (keys (initial_taxonomies cfg)) ->
      get (params (on_pop cfg None s)) "meta_query"
      = Some (VObj (initial_meta_query cfg)))
  /\ (distinct (keys (initial_taxonomies cfg)) = true ->
      forall taxonomy selection,
        get (initial_taxonomies cfg) taxonomy = Some (VArr selection) ->
        forallb well_formed selection = true ->
        get (params (on_pop cfg None s)) taxonomy = Some (VArr selection))
  /\ (well_formed (VObj (initial_meta_query cfg)) = true ->
      well_formed (VObj (initial_taxonomies cfg)) = true ->
      (forall taxonomy, In taxonomy (keys (initial_taxonomies cfg)) ->
                        ~ In taxonomy (keys (configured_values cfg))) ->
      params (on_pop cfg None s)
      = (configured_values cfg ++ initial_taxonomies cfg)%list).
Proof.
  split.
  { intros snapshot. split; [reflexivity|].
    split; [|intros k Hk]; rewrite handler_params; try reflexivity;
      try assumption.
    discriminate. }
  split; [reflexivity|].
  change (params (on_pop cfg None s))
    with (merge (merge [] (initialParams cfg)) (initial_taxonomies cfg)).
  split.
  { intros k Hk Hn. rewrite merge_get_other by exact Hn.
    now apply initialParams_merged_get. }
  split.
  { intros Hwf Hn. rewrite merge_get_other by exact Hn.
    rewrite initialParams_merged. cbn [get String.eqb Ascii.eqb Bool.eqb].
    now rewrite merge_value_copy. }
  split.
  { intros Hd taxonomy selection Hsel Hwf.
    rewrite (merge_get _ _ taxonomy (VArr selection))
      by (try apply distinct_NoDup; assumption).
    f_equal. apply merge_value_array; [|exact Hwf].
    intros d. apply initialParams_merged_no_array. }
  intros Hmq Htax Hnew.
  assert (Hinit : merge [] (initialParams cfg) = configured_values cfg).
  { rewrite initialParams_merged. unfold configured_values.
    now rewrite merge_value_copy. }
  rewrite Hinit.
  change (well_formed (VObj (initial_taxonomies cfg)))
    with (distinct (map fst (initial_taxonomies cfg))
          && forallb (fun kv => well_formed (snd kv)) (initial_taxonomies cfg))
    in Htax.
  apply andb_true_iff in Htax as [Hd Hall].
  apply merge_copy; [|exact Hall].
  unfold keys. rewrite map_app. apply NoDup_app.
  - repeat constructor; simpl; intros H;
      repeat destruct H as [H|H]; try discriminate; exact H.
  - now apply distinct_NoDup.
  - intros k Hk Hin. exact (Hnew k Hin Hk).
Qed.

End Pop.

(** C9 on the example configured with two categories and one filter: a
    pop without a snapshot brings the selection and the filter back. *)
Lemma pop_restores_params_example :
  (well_formed (VObj (initial_meta_query example_selected)) = true
   /\ well_formed (VObj (initial_taxonomies example_selected)) = true
   /\ forall taxonomy,
        In taxonomy (keys (initial_taxonomies example_selected)) ->
        ~ In taxonomy (keys (configured_values example_selected)))
  /\ params (on_pop example_selected None
               (with_params [("search", VStr "tea")] example_state))
     = [ ("per_page", VNum 10); ("search", VStr ""); ("order", VStr "desc");
         ("orderby", VStr "date"); ("pagenum", VNum 1);
         ("meta_query",
            VObj [("color", VObj [("field", VStr "color"); ("value", VStr "red")])]);
         ("ver", VNum 1); ("category", VArr [VNum 3; VNum 5]) ].
Proof.
  assert (Hnew : forall taxonomy,
             In taxonomy (keys (initial_taxonomies example_selected)) ->
             ~ In taxonomy (keys (configured_values example_selected))).
  { intros taxonomy [<-|[]] H. simpl in H.
    repeat destruct H as [H|H]; try discriminate; exact H. }
  split; [split; [reflexivity|split; [reflexivity|exact Hnew]]|].
  destruct (pop_restores_params example_selected "/library" "https://example.org"
              (with_params [("search", VStr "tea")] example_state))
    as (_ & _ & _ & _ & _ & Hall).
  exact (Hall eq_refl eq_refl Hnew).
Defined.
